(** * ATR workflow: a shallow embedding of the job orchestration code

    The development follows the layout of the Python sources:

    - [Processing]   ocr_workflow/components/processing.py
    - [Transkribus]  ocr_workflow/components/transkribus_api.py
    - [Views]        main/views.py
    - [Base64], [TranskribusSync], [Llms]
                     the encoding of the images, the synchronous
                     recognition cycle and the routing of LLMs.py

    Python [str] values are sequences of Unicode code points; dictionary
    keys, which the sources only ever write as literals, are Rocq strings. *)

From Stdlib Require Import ZArith QArith Lqa.
From stdpp Require Import gmap strings list fin_maps pretty.

Local Open Scope N_scope.
Local Open Scope list_scope.

(** ** Python strings *)

Abbreviation pystr := (list N).

Definition LF : N := 10.
Definition CR : N := 13.

(** Decoding of the UTF-8 bytes of a source literal into code points. *)
Fixpoint utf8_decode (bs : list N) : pystr :=
  match bs with
  | [] => []
  | b0 :: r0 =>
    if b0 <? 128 then b0 :: utf8_decode r0
    else if b0 <? 224 then
    match r0 with
    | b1 :: r1 => ((b0 - 192) * 64 + (b1 - 128)) :: utf8_decode r1
    | [] => [b0]
    end
    else if b0 <? 240 then
    match r0 with
    | b1 :: b2 :: r2 =>
      ((b0 - 224) * 4096 + (b1 - 128) * 64 + (b2 - 128)) :: utf8_decode r2
    | _ => b0 :: r0
    end
    else
    match r0 with
    | b1 :: b2 :: b3 :: r3 =>
      ((b0 - 240) * 262144 + (b1 - 128) * 4096 + (b2 - 128) * 64 + (b3 - 128))
        :: utf8_decode r3
    | _ => b0 :: r0
    end
  end.

(** [py "..."] is the Python string written as that literal. *)
Definition py (s : string) : pystr :=
  utf8_decode (map Ascii.N_of_ascii (String.list_ascii_of_string s)).

Definition pystr_eqb (a b : pystr) : bool := bool_decide (a = b).

(** [str.isspace] on one character, the table of [_PyUnicode_IsWhitespace];
    it is also what [\s] means in a [re] pattern over [str]. *)
Definition is_space (c : N) : bool :=
  ((9 <=? c) && (c <=? 13)) || ((28 <=? c) && (c <=? 32))
  || (c =? 133) || (c =? 160) || (c =? 5760)
  || ((8192 <=? c) && (c <=? 8202))
  || (c =? 8232) || (c =? 8233) || (c =? 8239) || (c =? 8287) || (c =? 12288).

(** The line boundaries of [str.splitlines] ([_PyUnicode_IsLinebreak]). *)
Definition is_linebreak (c : N) : bool :=
  ((10 <=? c) && (c <=? 13)) || ((28 <=? c) && (c <=? 30))
  || (c =? 133) || (c =? 8232) || (c =? 8233).

(** [sep.join(parts)] *)
Fixpoint join (sep : pystr) (parts : list pystr) : pystr :=
  match parts with
  | [] => []
  | [p] => p
  | p :: ps => p ++ sep ++ join sep ps
  end.

(** [s.splitlines()]: [cur] is the line being read.  A line is emitted at
    every line boundary, CR LF counting as one, and at the end of the text
    when characters are pending. *)
Fixpoint splitlines_from (cur : pystr) (s : pystr) : list pystr :=
  match s with
  | [] => match cur with [] => [] | _ => [cur] end
  | c :: rest =>
    if is_linebreak c then
    if c =? CR then
      match rest with
      | c' :: rest' =>
        if c' =? LF then cur :: splitlines_from [] rest'
        else cur :: splitlines_from [] rest
      | [] => cur :: splitlines_from [] rest
      end
    else cur :: splitlines_from [] rest
    else splitlines_from (cur ++ [c]) rest
  end.

Definition splitlines (s : pystr) : list pystr := splitlines_from [] s.

Fixpoint lstrip (s : pystr) : pystr :=
  match s with
  | c :: rest => if is_space c then lstrip rest else s
  | [] => []
  end.

Definition rstrip (s : pystr) : pystr := reverse (lstrip (reverse s)).

(** [s.strip()] *)
Definition strip (s : pystr) : pystr := rstrip (lstrip s).

(** [s.startswith(prefix)], returning what follows the prefix. *)
Fixpoint strip_prefix (prefix s : pystr) : option pystr :=
  match prefix, s with
  | [], _ => Some s
  | p :: prefix', c :: s' => if p =? c then strip_prefix prefix' s' else None
  | _ :: _, [] => None
  end.

(** [s.replace(old, "")] for a non-empty [old]: the occurrences are found
    left to right and do not overlap; [skip] counts the characters of the
    occurrence being dropped. *)
Fixpoint replace_go (old : pystr) (skip : nat) (s : pystr) : pystr :=
  match s with
  | [] => []
  | c :: s' =>
    match skip with
    | S k => replace_go old k s'
    | O =>
    match strip_prefix old s with
    | Some _ => replace_go old (length old - 1) s'
    | None => c :: replace_go old 0 s'
    end
    end
  end.

(** ** The fragment of [re] that processing.py uses *)

Module Re.

(** Patterns: a literal, a character class, the greedy repetitions of a
    class, and concatenation. *)
Inductive regex :=
| Lit (c : N)
| Class (p : N → bool)
| Star (p : N → bool)
| Plus (p : N → bool)
| Seq (r1 r2 : regex).

(** The ways a greedy [X*] can match at the head of [s], as the texts
    left over, in the order the backtracking matcher tries them: the
    longest repetition first. *)
Fixpoint star_matches (p : N → bool) (s : pystr) : list pystr :=
  match s with
  | c :: s' => if p c then star_matches p s' ++ [s] else [s]
  | [] => [[]]
  end.

(** All matches of [r] at the head of [s] in priority order. *)
Fixpoint matches (r : regex) (s : pystr) : list pystr :=
  match r with
  | Lit c =>
    match s with
    | c' :: s' => if c =? c' then [s'] else []
    | [] => []
    end
  | Class p =>
    match s with
    | c' :: s' => if p c' then [s'] else []
    | [] => []
    end
  | Star p => star_matches p s
  | Plus p =>
    match s with
    | c' :: s' => if p c' then star_matches p s' else []
    | [] => []
    end
  | Seq r1 r2 => flat_map (matches r2) (matches r1 s)
  end.

(** The match the engine reports at this position: the first success. *)
Definition match_here (r : regex) (s : pystr) : option pystr :=
  head (matches r s).

(** [re.sub(r, repl, s)] for a pattern that matches no empty text: scan
    left to right, replace the match found at the current position by
    [repl] and resume after it; [skip] counts the characters of the match
    still to be passed over. *)
Fixpoint sub_go (r : regex) (repl : pystr) (skip : nat) (s : pystr) : pystr :=
  match s with
  | [] => []
  | c :: s' =>
    match skip with
    | S k => sub_go r repl k s'
    | O =>
      match match_here r s with
      | Some rest => repl ++ sub_go r repl (length s' - length rest) s'
      | None => c :: sub_go r repl 0 s'
      end
    end
  end.

Definition sub (r : regex) (repl : pystr) (s : pystr) : pystr :=
  sub_go r repl 0 s.

Fixpoint lits (s : pystr) : regex :=
  match s with
  | [] => Star (λ _, false)
  | [c] => Lit c
  | c :: s' => Seq (Lit c) (lits s')
  end.

End Re.

(** ** processing.py *)

Module Processing.
Import Re.

(** [r"\n\s*\n"] *)
Definition blank_lines_re : regex :=
  Seq (Lit LF) (Seq (Star is_space) (Lit LF)).

(** [r"<[^>]+>"] *)
Definition xml_tag_re : regex :=
  Seq (Lit 60) (Seq (Plus (λ c, negb (c =? 62))) (Lit 62)).

Definition remove_empty_lines (text_input : pystr) : pystr :=
  sub blank_lines_re [LF] text_input.

Definition remove_xml_tags (text_input : pystr) : pystr :=
  sub xml_tag_re [] text_input.

Definition strip_lines (text_input : pystr) : pystr :=
  join [LF] (map strip (splitlines text_input)).

Definition remove_accent (text_input : pystr) : pystr :=
  let output_clean := sub (lits (py "```xml")) [] text_input in
  sub (lits (py "```")) [] output_clean.

Definition remove_first_empty_line (text_input : pystr) : pystr :=
  match splitlines text_input with
  | l0 :: lines =>
    if pystr_eqb (strip l0) [] then join [LF] lines else text_input
  | [] => text_input
  end.

Definition remove_specific_string (text_input string_to_remove : pystr) : pystr :=
  replace_go string_to_remove 0 text_input.

(** The default of [string_to_remove]. *)
Definition default_string_to_remove : pystr :=
  py "hat keine Adresse, ist geprüft".

End Processing.


(** ** Values, exceptions and the outside world *)

(** Python's [float]: the finite values are kept as exact rationals. *)
Inductive pyfloat :=
| FNan
| FInf (negative : bool)
| FFin (q : Q).

(** A per-page entry of a recognition job's [results]. *)
Record page_result := PageResult {
  page : nat;
  mllm_merged_result : pystr;
  ocr_engine_result : option pystr;
  mllm_only_result : pystr;
}.

(** The values stored in a job record or sent in a JSON body. *)
Inductive pyval :=
| VStr (s : pystr)
| VInt (z : Z)
| VTime (t : Q)
| VResults (l : list page_result).

Abbreviation pydict := (gmap string pyval).
Abbreviation headers_t := (gmap string pystr).

(** Exceptions, each with the text [str(e)] gives. [HTTPError] is
    [requests.exceptions.HTTPError], which [raise_for_status] raises with
    the response's status code; [RequestFailed] stands for the other
    failures of a request (time-outs, connection errors, a body that is
    not JSON), none of which is an [HTTPError]. *)
Inductive exn :=
| HTTPError (status_code : Z) (msg : pystr)
| RequestFailed (msg : pystr)
| RuntimeError (msg : pystr)
| ValueError (msg : pystr)
| KeyError (msg : pystr)
| IndexError (msg : pystr)
| TypeError (msg : pystr)
| AttributeError (msg : pystr).

Definition str_exn (e : exn) : pystr :=
  match e with
  | HTTPError _ m | RequestFailed m | RuntimeError m | ValueError m
  | KeyError m | IndexError m | TypeError m | AttributeError m => m
  end.

Definition is_HTTPError (e : exn) : bool :=
  match e with HTTPError _ _ => true | _ => false end.

(** [e.response.status_code] of an [HTTPError]. *)
Definition response_status_code (e : exn) : option Z :=
  match e with HTTPError c _ => Some c | _ => None end.

(** What the status endpoint's JSON body holds for the code:
    [status_response.get("status")] and
    [status_response["content"]["text"]] when that path exists. *)
Record status_response := StatusResponse {
  resp_status : option pystr;
  resp_text : option pystr;
}.

(** The image argument of [get_tei_from_mllm]: one image or a list. *)
Inductive tei_images :=
| OneImage (image_data : pystr)
| ImageList (image_data : list pystr).

(** Everything the code reaches outside of itself: the HTR provider and
    its clock (a state the calls read and advance), the language-model
    calls of LLMs.py, the settings module, and the builtins [int], [float],
    [base64.b64encode], [uuid.uuid4] and [time.time]. *)
Class Env := {
  ext_state : Type;
  (* requests.get(status_url) ; raise_for_status() ; json() *)
  http_get_status : ext_state → pystr → headers_t → ext_state * (exn + status_response);
  (* requests.post(token_url) ; raise_for_status() ; json().get("access_token") *)
  http_post_token : ext_state → pystr → pystr → ext_state * (exn + option pystr);
  (* requests.post(process_url) ; raise_for_status() ; json()["processId"] *)
  http_post_process : ext_state → headers_t → pystr → Z → ext_state * (exn + pystr);
  env_sleep : ext_state → Q → ext_state;
  env_time : ext_state → ext_state * Q;
  env_uuid4 : ext_state → ext_state * pystr;
  get_mllm_only_atr_result : pystr → pystr → pyfloat → pystr → exn + pystr;
  get_merged_atr_mllm_result :
    pystr → option pystr → pystr → pystr → pyfloat → pystr → exn + pystr;
  get_tei_from_mllm :
    pystr → tei_images → pystr → pystr → pystr → pyfloat → pystr → exn + pystr;
  encode_image : list N → pystr;
  py_int : pystr → option Z;
  py_float : pystr → option pyfloat;
  USERNAME_TRANSKRIBUS_RA : pystr;
  PASSWORD_TRANSKRIBUS_RA : pystr;
  USERNAME_TRANSKRIBUS_GL : pystr;
  PASSWORD_TRANSKRIBUS_GL : pystr;
}.

(** The effects of a run, in the order they happen. *)
Inductive event :=
| EvSleep (seconds : Q)
| EvGet (url : pystr) (headers : headers_t) (out : exn + status_response)
| EvLogin (username password : pystr) (out : exn + option pystr)
| EvSubmit (headers : headers_t) (image_data : pystr) (model_id : Z) (out : exn + pystr)
| EvTime (t : Q)
| EvUuid (id : pystr)
| EvCreate (process_id : pystr) (record : pydict)
| EvDelete (process_id : pystr)
| EvWrite (process_id : pystr) (key : string) (v : pyval).

(** The outcome of running a piece of code: a value, an exception, or no
    outcome within the given number of loop rounds. *)
Inductive result (A : Type) :=
| Ok (a : A)
| Raise (e : exn)
| Diverge.
Arguments Ok {A} a.
Arguments Raise {A} e.
Arguments Diverge {A}.

Section Effects.
Context `{!Env}.

(** The state a run acts on: the outside world, [process_status_store]
    and the trace of effects so far. *)
Record world := World {
  ext : ext_state;
  process_status_store : gmap pystr pydict;
  log : list event;
}.

Definition M (A : Type) : Type := world → world * result A.

Definition ret {A} (a : A) : M A := λ w, (w, Ok a).

Definition bind {A B} (m : M A) (k : A → M B) : M B :=
  λ w, match m w with
       | (w', Ok a) => k a w'
       | (w', Raise e) => (w', Raise e)
       | (w', Diverge) => (w', Diverge)
       end.

Definition raise {A} (e : exn) : M A := λ w, (w, Raise e).

Definition diverge {A} : M A := λ w, (w, Diverge).

(** [try: body / except <catches> as e: handler e] *)
Definition try_except {A} (catches : exn → bool) (body : M A) (handler : exn → M A) : M A :=
  λ w, match body w with
       | (w', Raise e) => if catches e then handler e w' else (w', Raise e)
       | other => other
       end.

Definition emit (ev : event) (w : world) : world :=
  World (ext w) (process_status_store w) (log w ++ [ev]).

End Effects.

Notation "'let*' x := m 'in' k" := (bind m (λ x, k))
  (at level 10, x name, m at level 100, k at level 200, only parsing).
Notation "'let*' ' pat := m 'in' k" := (bind m (λ x, match x with pat => k end))
  (at level 10, pat pattern, m at level 100, k at level 200, only parsing).

(** ** transkribus_api.py *)

Module Transkribus.
Section Api.
Context `{!Env}.

(** [f"{x}"] for a value that may be [None]. *)
Definition fmt_opt (x : option pystr) : pystr :=
  match x with Some s => s | None => py "None" end.

Definition auth_headers (access_token : option pystr) : headers_t :=
  {[ "Authorization" := py "Bearer " ++ fmt_opt access_token;
     "Content-Type" := py "application/json" ]}.

(** The request of [check_process_status]: GET, [raise_for_status], [json]. *)
Definition requests_get_json (url : pystr) (headers : headers_t) : M status_response :=
  λ w, let '(x, out) := http_get_status (ext w) url headers in
       let w' := emit (EvGet url headers out)
                   (World x (process_status_store w) (log w)) in
       match out with
       | inl e => (w', Raise e)
       | inr r => (w', Ok r)
       end.

Definition transkribus_login (username password : pystr) : M (option pystr) :=
  λ w, let '(x, out) := http_post_token (ext w) username password in
       let w' := emit (EvLogin username password out)
                   (World x (process_status_store w) (log w)) in
       match out with
       | inl e => (w', Raise e)
       | inr access_token => (w', Ok access_token)
       end.

Definition start_recognition_process (access_token : option pystr)
    (image_data : pystr) (model_id : Z) : M (pystr * headers_t) :=
  let headers := auth_headers access_token in
  λ w, let '(x, out) := http_post_process (ext w) headers image_data model_id in
       let w' := emit (EvSubmit headers image_data model_id out)
                   (World x (process_status_store w) (log w)) in
       match out with
       | inl e => (w', Raise e)
       | inr process_id => (w', Ok (process_id, headers))
       end.

Definition status_url (process_id : pystr) : pystr :=
  py "https://transkribus.eu/processing/v1/processes/" ++ process_id.

Definition check_process_status (process_id : pystr) (headers : headers_t) : M status_response :=
  requests_get_json (status_url process_id) headers.

Definition check_process_status_with_retry (process_id : pystr) (headers : headers_t)
    (username password : pystr) : M (status_response * headers_t) :=
  try_except is_HTTPError
    (let* status_response := requests_get_json (status_url process_id) headers in
     ret (status_response, headers))
    (λ e,
      if bool_decide (response_status_code e = Some 401%Z) then
        let* new_access_token := transkribus_login username password in
        let new_headers := auth_headers new_access_token in
        let* status_response := requests_get_json (status_url process_id) new_headers in
        ret (status_response, new_headers)
      else raise e).

Definition get_process_result (status_response : status_response) : M pystr :=
  let status := resp_status status_response in
  if bool_decide (status = Some (py "ERROR")) then
    raise (RuntimeError (py "Transkribus-Verarbeitung fehlgeschlagen (Status: ERROR)."))
  else if negb (bool_decide (status = Some (py "FINISHED"))) then
    raise (RuntimeError
      (py "Transkribus-Prozess noch nicht abgeschlossen. Aktueller Status: "
       ++ fmt_opt status))
  else
    match resp_text status_response with
    | Some recognized_text => ret recognized_text
    | None => raise (KeyError (py "'content'"))
    end.

End Api.
End Transkribus.

(** ** views.py *)

Module Views.
Import Processing Transkribus.

Definition PROCESS_ENTRY_TTL : Q := 3600.
Definition VALID_MODES : list pystr := [py "RA"; py "GL"].
Definition VALID_MODELS : list pystr :=
  [py "gpt-5.2"; py "claude-sonnet-4-5-20250929"; py "gemini-2.5-pro";
   py "gemini-3-pro-preview"].
Definition VALID_PROMPTS : list pystr :=
  [py "prompt-tei-gl"; py "prompt-tei-ra"; py "prompt-tei-custom"].
Definition MAX_PAGES : nat := 10.
Definition MAX_MLLM_WORKERS : nat := 10.
Definition TEMPERATURE_MIN : Q := 0.
Definition TEMPERATURE_MAX : Q := 2.

(** [TEMPERATURE_MIN <= t <= TEMPERATURE_MAX]; every comparison with a
    NaN is false. *)
Definition temperature_in_range (t : pyfloat) : bool :=
  match t with
  | FFin q => Qle_bool TEMPERATURE_MIN q && Qle_bool q TEMPERATURE_MAX
  | _ => false
  end.

(** [data.get("created_at", 0)] *)
Definition created_at_or_0 (data : pydict) : Q :=
  match data !! "created_at" with
  | Some (VTime t) => t
  | Some (VInt z) => inject_Z z
  | _ => 0
  end.

(** The entries [_cleanup_old_entries] deletes, given its cutoff. *)
Definition expired (cutoff : Q) (data : pydict) : bool :=
  match (created_at_or_0 data ?= cutoff)%Q with
  | Lt => true
  | _ => false
  end.

(** [min(a, b)]: the first argument unless the second is smaller. *)
Definition py_min (a b : Q) : Q :=
  match (b ?= a)%Q with
  | Lt => b
  | _ => a
  end.

(** [str(n)] *)
Definition str_nat (n : nat) : pystr := py (pretty n).

(** The closure of [process_ocr]: what the background thread of a
    recognition job captures from [upload_image]. *)
Record ocr_job := OcrJob {
  ocr_process_id : pystr;
  ocr_images_base64 : list pystr;
  ocr_total_pages : nat;
  ocr_multimodal_llm : pystr;
  ocr_transkribus_model : Z;
  ocr_temperature : pyfloat;
  ocr_mode : pystr;
}.

(** The closure of [process_tei]. *)
Record tei_job := TeiJob {
  tei_process_id : pystr;
  tei_images_base64 : list pystr;
  tei_is_multipage : bool;
  tei_multimodal_llm : pystr;
  tei_merged_text : pystr;
  tei_chosen_prompt : pystr;
  tei_custom_prompt_text : pystr;
  tei_temperature : pyfloat;
  tei_mode : pystr;
}.

(** The files uploaded under one field name, of which there is at least
    one: [request.FILES[key]] is the last of them and
    [request.FILES.getlist(key)] all of them. *)
Record uploads := Uploads {
  earlier : list (list N);
  latest : list N;
}.

Definition all_files (u : uploads) : list (list N) := earlier u ++ [latest u].

(** An HTTP request as the views read it. *)
Record HttpRequest := Request {
  method : pystr;
  POST : gmap string pystr;
  GET : gmap string pystr;
  FILES : gmap string uploads;
}.

(** [request.FILES.getlist(key)] *)
Definition getlist (request : HttpRequest) (key : string) : list (list N) :=
  match FILES request !! key with
  | Some u => all_files u
  | None => []
  end.

(** [x] when it is one of [allowed], for the guards [x not in allowed]. *)
Definition one_of (allowed : list pystr) (x : option pystr) : option pystr :=
  match x with
  | Some v => if bool_decide (v ∈ allowed) then Some v else None
  | None => None
  end.

(** [JsonResponse(body, status=status)] *)
Record JsonResponse := Json {
  body : pydict;
  status : Z;
}.

Definition error_response (msg : pystr) (code : Z) : JsonResponse :=
  Json {[ "error" := VStr msg ]} code.

(** The loop state of [_poll_transkribus_jobs]. *)
Record poll_state := PollState {
  results : list (option pystr);
  finished_count : nat;
  headers : headers_t;
}.

Section Core.
Context `{!Env}.

Definition time_sleep (seconds : Q) : M unit :=
  λ w, (emit (EvSleep seconds)
          (World (env_sleep (ext w) seconds) (process_status_store w) (log w)),
        Ok tt).

Definition time_time : M Q :=
  λ w, let '(x, t) := env_time (ext w) in
       (emit (EvTime t) (World x (process_status_store w) (log w)), Ok t).

Definition uuid4 : M pystr :=
  λ w, let '(x, id) := env_uuid4 (ext w) in
       (emit (EvUuid id) (World x (process_status_store w) (log w)), Ok id).

(** [process_status_store[process_id][key] = v] *)
Definition store_set (process_id : pystr) (key : string) (v : pyval) : M unit :=
  λ w, match process_status_store w !! process_id with
       | Some data =>
         (emit (EvWrite process_id key v)
            (World (ext w) (<[process_id := <[key := v]> data]> (process_status_store w))
               (log w)),
          Ok tt)
       | None => (w, Raise (KeyError process_id))
       end.

(** [process_status_store[process_id] = data] *)
Definition store_create (process_id : pystr) (data : pydict) : M unit :=
  λ w, (emit (EvCreate process_id data)
          (World (ext w) (<[process_id := data]> (process_status_store w)) (log w)),
        Ok tt).

(** [del process_status_store[pid]] *)
Definition store_delete (pid : pystr) : M unit :=
  λ w, match process_status_store w !! pid with
       | Some _ =>
         (emit (EvDelete pid)
            (World (ext w) (delete pid (process_status_store w)) (log w)),
          Ok tt)
       | None => (w, Raise (KeyError pid))
       end.

(** [process_status_store[process_id]["results"].extend(page_results)] *)
Definition store_extend_results (process_id : pystr) (page_results : list page_result) : M unit :=
  λ w, match process_status_store w !! process_id with
       | Some data =>
         match data !! "results" with
         | Some (VResults l) =>
           let v := VResults (l ++ page_results) in
           (emit (EvWrite process_id "results" v)
              (World (ext w)
                 (<[process_id := <["results" := v]> data]> (process_status_store w))
                 (log w)),
            Ok tt)
         | Some _ => (w, Raise (TypeError (py "extend")))
         | None => (w, Raise (KeyError (py "'results'")))
         end
       | None => (w, Raise (KeyError process_id))
       end.

(** A [for] loop over a list whose body may raise. *)
Fixpoint for_each {A} (l : list A) (body : A → M unit) : M unit :=
  match l with
  | [] => ret tt
  | x :: l' => let* _ := body x in for_each l' body
  end.

Definition _cleanup_old_entries : M unit :=
  let* now := time_time in
  let cutoff := (now - PROCESS_ENTRY_TTL)%Q in
  λ w, let to_delete :=
         (map_to_list (filter (λ kv, expired cutoff kv.2 = true) (process_status_store w))).*1 in
       for_each to_delete store_delete w.

(** The submission loop of [_start_transkribus_jobs]. *)
Fixpoint submit_images (access_token : option pystr) (transkribus_model : Z)
    (images : list pystr) (process_ids : list pystr) (headers : headers_t)
  : M (list pystr * headers_t) :=
  match images with
  | [] => ret (process_ids, headers)
  | image_data :: images' =>
    let* '(pid, headers') :=
      start_recognition_process access_token image_data transkribus_model in
    submit_images access_token transkribus_model images' (process_ids ++ [pid]) headers'
  end.

Definition _start_transkribus_jobs (images_base64 : list pystr)
    (transkribus_model : Z) (mode : pystr)
  : M (list pystr * headers_t * pystr * pystr) :=
  let username :=
    if pystr_eqb mode (py "RA") then USERNAME_TRANSKRIBUS_RA else USERNAME_TRANSKRIBUS_GL in
  let password :=
    if pystr_eqb mode (py "RA") then PASSWORD_TRANSKRIBUS_RA else PASSWORD_TRANSKRIBUS_GL in
  let* access_token := transkribus_login username password in
  let* '(process_ids, headers) :=
    submit_images access_token transkribus_model images_base64 [] ∅ in
  ret (process_ids, headers, username, password).

(** One iteration of the [for page_index, pid in enumerate(process_ids)]
    loop of [_poll_transkribus_jobs]. *)
Definition poll_page (process_id : pystr) (username password : pystr) (total_pages : nat)
    (page_index : nat) (pid : pystr) (st : poll_state) : M poll_state :=
  match results st !! page_index with
  | None => raise (IndexError (py "list index out of range"))
  | Some (Some _) => ret st
  | Some None =>
    let* '(status_response, headers') :=
      check_process_status_with_retry pid (headers st) username password in
    let transkribus_status := resp_status status_response in
    if bool_decide (transkribus_status = Some (py "FINISHED")) then
      let* text := get_process_result status_response in
      let results' := <[page_index := Some text]> (results st) in
      let finished_count' := S (finished_count st) in
      let* _ := store_set process_id "status"
        (VStr (py "Texerkennung bei " ++ str_nat finished_count' ++ py " von "
               ++ str_nat total_pages ++ py " Seite(n) abgeschlossen.")) in
      ret (PollState results' finished_count' headers')
    else if bool_decide (transkribus_status = Some (py "ERROR")) then
      let* _ := store_set process_id "status"
        (VStr (py "Fehler bei der Texterkennung bei Seite " ++ str_nat (page_index + 1))) in
      let* _ := store_set process_id "transkribus_status" (VStr (py "ERROR")) in
      raise (RuntimeError
        (py "Transkribus processing failed for page " ++ str_nat (page_index + 1)))
    else ret (PollState (results st) (finished_count st) headers')
  end.

(** One polling round: the [for] loop over [enumerate(process_ids)],
    [page_index] being the index of the head of [pids]. *)
Fixpoint poll_round (process_id : pystr) (username password : pystr) (total_pages : nat)
    (page_index : nat) (pids : list pystr) (st : poll_state) : M poll_state :=
  match pids with
  | [] => ret st
  | pid :: pids' =>
    let* st' := poll_page process_id username password total_pages page_index pid st in
    poll_round process_id username password total_pages (S page_index) pids' st'
  end.

(** The [while finished_count < total_pages] loop; [fuel] bounds the
    number of rounds. *)
Fixpoint poll_loop (fuel : nat) (process_ids : list pystr) (process_id : pystr)
    (username password : pystr) (total_pages : nat)
    (poll_interval : Q) (st : poll_state) : M (list (option pystr)) :=
  if (finished_count st <? total_pages)%nat then
    match fuel with
    | O => diverge
    | S fuel' =>
      let* _ := time_sleep poll_interval in
      let poll_interval' := py_min (poll_interval * 1.5) 30 in
      let* st' := poll_round process_id username password total_pages 0 process_ids st in
      poll_loop fuel' process_ids process_id username password total_pages poll_interval' st'
    end
  else ret (results st).

Definition _poll_transkribus_jobs (fuel : nat) (process_ids : list pystr)
    (headers : headers_t) (username password : pystr) (process_id : pystr)
    (total_pages : nat) : M (list (option pystr)) :=
  poll_loop fuel process_ids process_id username password total_pages 5
    (PollState (replicate total_pages None) 0 headers).

(** A call that returns or raises without touching the store. *)
Definition call {A} (out : exn + A) : M A :=
  match out with
  | inl e => raise e
  | inr a => ret a
  end.

(** [xs[i]] *)
Definition index {A} (xs : list A) (i : nat) : M A :=
  match xs !! i with
  | Some x => ret x
  | None => raise (IndexError (py "list index out of range"))
  end.

(** The loop of [_merge_page_results] over [range(len(images_base64))]. *)
Fixpoint merge_pages (images_base64 : list pystr)
    (transkribus_results : list (option pystr)) (mllm_results : list pystr)
    (model : pystr) (temperature : pyfloat) (mode : pystr)
    (indices : list nat) (page_results : list page_result) : M (list page_result) :=
  match indices with
  | [] => ret page_results
  | page_index :: indices' =>
    let* htr := index transkribus_results page_index in
    let* mllm := index mllm_results page_index in
    let* image := index images_base64 page_index in
    let* merged :=
      call (get_merged_atr_mllm_result model htr mllm image temperature mode) in
    merge_pages images_base64 transkribus_results mllm_results model temperature mode
      indices' (page_results ++ [PageResult page_index merged htr mllm])
  end.

Definition _merge_page_results (images_base64 : list pystr)
    (transkribus_results : list (option pystr)) (mllm_results : list pystr)
    (model : pystr) (temperature : pyfloat) (mode : pystr) (process_id : pystr)
  : M (list page_result) :=
  let* _ := store_set process_id "status"
    (VStr (py "Ergebnisse für alle Seiten werden zusammengeführt...")) in
  merge_pages images_base64 transkribus_results mllm_results model temperature mode
    (seq 0 (length images_base64)) [].

(** The futures of the thread pool, one slot per submitted call in
    submission order; a slot is filled when its call has completed.
    [schedule] lists the calls in the order in which they complete. *)
Definition run_futures {A} (tasks : list (exn + A)) (schedule : list nat)
  : list (option (exn + A)) :=
  foldl (λ slots i,
           match tasks !! i with
           | Some out => <[i := Some out]> slots
           | None => slots
           end)
        (replicate (length tasks) None) schedule.

(** [future.result()]: waits for the call, then returns or raises. *)
Definition future_result {A} (slot : option (exn + A)) : M A :=
  match slot with
  | Some out => call out
  | None => diverge
  end.

(** [[future.result() for future in futures]] *)
Fixpoint collect_results {A} (futures : list (option (exn + A))) : M (list A) :=
  match futures with
  | [] => ret []
  | future :: futures' =>
    let* x := future_result future in
    let* xs := collect_results futures' in
    ret (x :: xs)
  end.

(** [with ThreadPoolExecutor(max_workers=...) as executor: body]: leaving
    the block, normally or by an exception, waits for every submitted
    call. *)
Definition with_executor {A B} (max_workers : nat) (tasks : list (exn + A))
    (schedule : list nat) (body : list (option (exn + A)) → M B) : M B :=
  if (max_workers =? 0)%nat then
    raise (ValueError (py "max_workers must be greater than 0"))
  else
    let futures := run_futures tasks schedule in
    λ w, match body futures w with
         | (w', Diverge) => (w', Diverge)
         | (w', r) =>
           if forallb (λ slot, bool_decide (is_Some slot)) futures
           then (w', r) else (w', Diverge)
         end.

Definition process_ocr_body (fuel : nat) (schedule : list nat) (job : ocr_job) : M unit :=
  let process_id := ocr_process_id job in
  let total_pages := ocr_total_pages job in
  let images_base64 := ocr_images_base64 job in
  let multimodal_llm_ocr := ocr_multimodal_llm job in
  let temperature_ocr := ocr_temperature job in
  let mode := ocr_mode job in
  let* _ := store_set process_id "status"
    (VStr (py "Texterkennung für " ++ str_nat total_pages
           ++ py " Seite(n) wird gestartet...")) in
  let* '(transkribus_pids, headers, username, password) :=
    _start_transkribus_jobs images_base64 (ocr_transkribus_model job) mode in
  let* _ := store_set process_id "status"
    (VStr (py "Texterkennung für alle " ++ str_nat total_pages
           ++ py " Seite(n) läuft parallel...")) in
  let* _ := store_set process_id "transkribus_status" (VStr (py "RUNNING")) in
  let* '(transkribus_results, mllm_results) :=
    with_executor (min total_pages MAX_MLLM_WORKERS)
      (map (λ image_data,
              get_mllm_only_atr_result multimodal_llm_ocr image_data temperature_ocr mode)
           images_base64)
      schedule
      (λ mllm_futures,
        let* transkribus_results :=
          _poll_transkribus_jobs fuel transkribus_pids headers username password
            process_id total_pages in
        let* _ := store_set process_id "status"
          (VStr (py "Auf Ergebnisse des multimodalen Modells warten...")) in
        let* mllm_results := collect_results mllm_futures in
        ret (transkribus_results, mllm_results)) in
  let* _ := store_set process_id "transkribus_status" (VStr (py "FINISHED")) in
  let* _ := store_set process_id "mllm_status" (VStr (py "FINISHED")) in
  let* page_results :=
    _merge_page_results images_base64 transkribus_results mllm_results
      multimodal_llm_ocr temperature_ocr mode process_id in
  let* _ := store_extend_results process_id page_results in
  let* _ := store_set process_id "status" (VStr (py "Verarbeitung abgeschlossen")) in
  let* _ := store_set process_id "transkribus_status" (VStr (py "FINISHED")) in
  store_set process_id "mllm_status" (VStr (py "FINISHED")).

(** The background function of [upload_image]; [fuel] bounds the polling
    rounds and [schedule] is the order in which the MLLM calls complete. *)
Definition process_ocr (fuel : nat) (schedule : list nat) (job : ocr_job) : M unit :=
  let process_id := ocr_process_id job in
  try_except (λ _, true) (process_ocr_body fuel schedule job)
    (λ e,
      let* _ := store_set process_id "status" (VStr (py "Fehler: " ++ str_exn e)) in
      store_set process_id "error" (VStr (str_exn e))).

Definition process_tei_body (job : tei_job) : M unit :=
  let process_id := tei_process_id job in
  let images_base64 := tei_images_base64 job in
  let* _ := store_set process_id "status" (VStr (py "TEI-XML wird generiert...")) in
  let* image_data :=
    if tei_is_multipage job then ret (ImageList images_base64)
    else let* image := index images_base64 0 in ret (OneImage image) in
  let* result_tei :=
    call (get_tei_from_mllm (tei_multimodal_llm job) image_data (tei_merged_text job)
            (tei_chosen_prompt job) (tei_custom_prompt_text job) (tei_temperature job)
            (tei_mode job)) in
  let result_tei := remove_first_empty_line result_tei in
  let result_text_content_only :=
    remove_first_empty_line
      (remove_specific_string
        (strip_lines
          (remove_empty_lines
            (remove_accent
              (remove_xml_tags result_tei))))
        default_string_to_remove) in
  let* _ := store_set process_id "status" (VStr (py "Verarbeitung abgeschlossen")) in
  let* _ := store_set process_id "tei_status" (VStr (py "FINISHED")) in
  let* _ := store_set process_id "result_tei" (VStr result_tei) in
  store_set process_id "result_text_content_only" (VStr result_text_content_only).

(** The background function of [create_tei]. *)
Definition process_tei (job : tei_job) : M unit :=
  let process_id := tei_process_id job in
  try_except (λ _, true) (process_tei_body job)
    (λ e,
      let* _ := store_set process_id "status" (VStr (py "Fehler: " ++ str_exn e)) in
      let* _ := store_set process_id "error" (VStr (str_exn e)) in
      store_set process_id "tei_status" (VStr (py "ERROR"))).

(** A validation failure of an entry point: the response, and no job. *)
Definition reject {J} (msg : pystr) (code : Z) : M (JsonResponse * option J) :=
  ret (error_response msg code, None).

Definition upload_image (request : HttpRequest) : M (JsonResponse * option ocr_job) :=
  if pystr_eqb (method request) (py "POST")
     && negb (bool_decide (getlist request "images" = [])) then
    let multimodal_llm_ocr := POST request !! "multimodal-llm-ocr" in
    match one_of VALID_MODELS multimodal_llm_ocr with
    | None => reject (py "Ungültiges Modell: " ++ fmt_opt multimodal_llm_ocr) 400
    | Some multimodal_llm_ocr =>
    (* int(None) raises TypeError, int(text) may raise ValueError *)
    match POST request !! "transkribus-model" ≫= py_int with
    | None => reject (py "Ungültiges Transkribus-Modell") 400
    | Some transkribus_model =>
    match py_float (default (py "0.0") (POST request !! "temperature-ocr")) with
    | None => reject (py "Ungültiger Temperature-Wert") 400
    | Some temperature_ocr =>
    if negb (temperature_in_range temperature_ocr) then
      reject (py "Temperature muss zwischen 0.0 und 2.0 liegen") 400
    else
    let images := getlist request "images" in
    if (MAX_PAGES <? length images)%nat then
      reject (py "Maximal " ++ str_nat MAX_PAGES ++ py " Seiten erlaubt") 400
    else
    let mode := POST request !! "mode" in
    match one_of VALID_MODES mode with
    | None => reject (py "Ungültiger Modus: " ++ fmt_opt mode) 400
    | Some mode =>
    let images_base64 := map encode_image images in
    let* process_id := uuid4 in
    let* _ := _cleanup_old_entries in
    let total_pages := length images_base64 in
    let* created_at := time_time in
    let* _ := store_create process_id
      {[ "status" := VStr (py "Texterkennung gestartet");
         "transkribus_status" := VStr (py "PENDING");
         "mllm_status" := VStr (py "PENDING");
         "total_pages" := VInt (Z.of_nat total_pages);
         "current_page" := VInt 0;
         "results" := VResults [];
         "created_at" := VTime created_at ]} in
    ret (Json {[ "process_id" := VStr process_id ]} 200,
         Some (OcrJob process_id images_base64 total_pages multimodal_llm_ocr
                 transkribus_model temperature_ocr mode))
    end end end end
  else reject (py "POST-Anfrage mit Bildern erforderlich") 400.

(** The loop of [create_tei] over [range(num_pages)]: the encoded images,
    or the response for the first image that is missing. *)
Fixpoint collect_images (request : HttpRequest) (indices : list nat)
    (images_base64 : list pystr) : JsonResponse + list pystr :=
  match indices with
  | [] => inr images_base64
  | i :: indices' =>
    let image_key := "image_" +:+ pretty i in
    match FILES request !! image_key with
    | Some u =>
      collect_images request indices' (images_base64 ++ [encode_image (latest u)])
    | None => inl (error_response (py "Bild " ++ str_nat i ++ py " fehlt") 400)
    end
  end.

Definition create_tei (request : HttpRequest) : M (JsonResponse * option tei_job) :=
  if pystr_eqb (method request) (py "POST") then
    let multimodal_llm_tei := POST request !! "multimodal-llm-tei" in
    match one_of VALID_MODELS multimodal_llm_tei with
    | None => reject (py "Ungültiges Modell: " ++ fmt_opt multimodal_llm_tei) 400
    | Some multimodal_llm_tei =>
    let chosen_prompt := POST request !! "prompt-transformation-tei" in
    match one_of VALID_PROMPTS chosen_prompt with
    | None => reject (py "Ungültiger Prompt: " ++ fmt_opt chosen_prompt) 400
    | Some chosen_prompt =>
    let custom_prompt_text := default [] (POST request !! "custom-prompt-text") in
    match py_float (default (py "0.0") (POST request !! "temperature-tei")) with
    | None => reject (py "Ungültiger Temperature-Wert") 400
    | Some temperature_tei =>
    if negb (temperature_in_range temperature_tei) then
      reject (py "Temperature muss zwischen 0.0 und 2.0 liegen") 400
    else
    match POST request !! "merged_text" with
    | None | Some [] => reject (py "Kein Text übergeben") 400
    | Some merged_text =>
    let mode := Some (default (py "RA") (POST request !! "mode")) in
    match one_of VALID_MODES mode with
    | None => reject (py "Ungültiger Modus: " ++ fmt_opt mode) 400
    | Some mode =>
    let start (images_base64 : list pystr) (is_multipage : bool) :=
      let* process_id := uuid4 in
      let* _ := _cleanup_old_entries in
      let* created_at := time_time in
      let* _ := store_create process_id
        {[ "status" := VStr (py "TEI-XML-Generierung gestartet");
           "tei_status" := VStr (py "RUNNING");
           "created_at" := VTime created_at ]} in
      ret (Json {[ "process_id" := VStr process_id ]} 200,
           Some (TeiJob process_id images_base64 is_multipage multimodal_llm_tei
                   merged_text chosen_prompt custom_prompt_text temperature_tei mode)) in
    match POST request !! "num_pages" with
    | Some (c :: cs) =>
      let num_pages := c :: cs in
      match py_int num_pages with
      | None => reject (py "Ungültige Seitenanzahl") 400
      | Some num_pages =>
        if negb ((1 <=? num_pages)%Z && (num_pages <=? Z.of_nat MAX_PAGES)%Z) then
          reject (py "Seitenanzahl muss zwischen 1 und " ++ str_nat MAX_PAGES
                  ++ py " liegen") 400
        else
          match collect_images request (seq 0 (Z.to_nat num_pages)) [] with
          | inl response => ret (response, None)
          | inr images_base64 => start images_base64 true
          end
      end
    | _ =>
      match FILES request !! "image" with
      | Some u => start [encode_image (latest u)] false
      | None => reject (py "Kein Bild hochgeladen") 400
      end
    end
    end end end end end
  else reject (py "POST-Anfrage erforderlich") 405.

Definition check_status (request : HttpRequest) : M JsonResponse :=
  if pystr_eqb (method request) (py "GET") then
    let process_id := GET request !! "process_id" in
    λ w, match process_id ≫= (λ pid, process_status_store w !! pid) with
         | Some status_data => (w, Ok (Json (delete "created_at" status_data) 200))
         | None => (w, Ok (error_response (py "Prozess nicht gefunden") 404))
         end
  else ret (error_response (py "GET-Anfrage erforderlich") 405).

End Core.
End Views.

(** ** A scripted outside world, for running the code on examples *)

Module Sim.
Import Transkribus Views.

(** The state of the simulated world: its clock, which only [time.sleep]
    advances, and how many log-ins, submissions and identifiers it has
    served. *)
Record sim_state := SimState {
  sim_clock : Q;
  sim_logins : nat;
  sim_submitted : nat;
  sim_uuids : nat;
}.

(** What the simulated providers answer. *)
Record sim_config := SimConfig {
  (* the status endpoint, given the URL, the headers and the clock *)
  cfg_status : pystr → headers_t → Q → exn + status_response;
  (* the n-th log-in *)
  cfg_token : nat → exn + option pystr;
  cfg_mllm_only : pystr → exn + pystr;
  cfg_merged : option pystr → pystr → pystr → exn + pystr;
  cfg_tei : tei_images → pystr → exn + pystr;
}.

Definition digit_value (c : N) : option Z :=
  if (48 <=? c) && (c <=? 57) then Some (Z.of_N (c - 48)) else None.

(** [int(s)] on a text of decimal digits. *)
Fixpoint parse_digits (acc : Z) (s : pystr) : option Z :=
  match s with
  | [] => Some acc
  | c :: s' =>
    match digit_value c with
    | Some d => parse_digits (acc * 10 + d) s'
    | None => None
    end
  end.

Definition sim_int (s : pystr) : option Z :=
  match s with
  | [] => None
  | _ => parse_digits 0 s
  end.

(** [float(s)] on texts of the form [d.d], one digit each side. *)
Definition sim_float (s : pystr) : option pyfloat :=
  match s with
  | [a; 46; b] =>
    match digit_value a, digit_value b with
    | Some x, Some y => Some (FFin (inject_Z x + inject_Z y / 10))
    | _, _ => None
    end
  | _ => None
  end.

Definition sim_env (cfg : sim_config) : Env := {|
  ext_state := sim_state;
  http_get_status := λ x url headers, (x, cfg_status cfg url headers (sim_clock x));
  http_post_token := λ x _ _,
    (SimState (sim_clock x) (S (sim_logins x)) (sim_submitted x) (sim_uuids x),
     cfg_token cfg (sim_logins x));
  http_post_process := λ x _ _ _,
    (SimState (sim_clock x) (sim_logins x) (S (sim_submitted x)) (sim_uuids x),
     inr (py "p" ++ str_nat (sim_submitted x)));
  env_sleep := λ x seconds,
    SimState (sim_clock x + seconds) (sim_logins x) (sim_submitted x) (sim_uuids x);
  env_time := λ x, (x, sim_clock x);
  env_uuid4 := λ x,
    (SimState (sim_clock x) (sim_logins x) (sim_submitted x) (S (sim_uuids x)),
     py "job-" ++ str_nat (sim_uuids x));
  get_mllm_only_atr_result := λ _ image _ _, cfg_mllm_only cfg image;
  get_merged_atr_mllm_result := λ _ htr mllm image _ _, cfg_merged cfg htr mllm image;
  get_tei_from_mllm := λ _ images merged_text _ _ _ _, cfg_tei cfg images merged_text;
  encode_image := λ content, content;
  py_int := sim_int;
  py_float := sim_float;
  USERNAME_TRANSKRIBUS_RA := py "ra-user";
  PASSWORD_TRANSKRIBUS_RA := py "ra-password";
  USERNAME_TRANSKRIBUS_GL := py "gl-user";
  PASSWORD_TRANSKRIBUS_GL := py "gl-password";
|}.

(** A status endpoint on which the job of page [i] (URL ending in [p<i>])
    is FINISHED, with text [htr:p<i>], once the clock has reached
    [latency i], and RUNNING before. *)
Definition latency_status (latencies : list Q) (url : pystr) (_ : headers_t) (now : Q)
  : exn + status_response :=
  match
    list_find (λ '(i, _), url = status_url (py "p" ++ str_nat i)) (imap (λ i l, (i, l)) latencies)
  with
  | Some (_, (i, l)) =>
    if Qle_bool l now
    then inr (StatusResponse (Some (py "FINISHED")) (Some (py "htr:p" ++ str_nat i)))
    else inr (StatusResponse (Some (py "RUNNING")) None)
  | None => inl (HTTPError 404 (py "404 Client Error: Not Found"))
  end.

Definition latency_config (latencies : list Q) : sim_config := {|
  cfg_status := latency_status latencies;
  cfg_token := λ n, inr (Some (py "token" ++ str_nat n));
  cfg_mllm_only := λ image, inr (py "mllm:" ++ image);
  cfg_merged := λ htr mllm image, inr (py "merged:" ++ fmt_opt htr ++ py "+" ++ mllm);
  cfg_tei := λ _ merged_text, inr (py "<text>" ++ merged_text ++ py "</text>");
|}.

Definition sim_world0 (cfg : sim_config) : @world (sim_env cfg) :=
  @World (sim_env cfg) (SimState 0 0 0 0) ∅ [].

End Sim.


(** ** Further parts of the sources *)

(** *** processing.py: encoding and image type *)

Module Base64.

(** The standard base64 alphabet: the character of a 6-bit value. *)
Definition b64_char (i : N) : N :=
  if i <? 26 then 65 + i
  else if i <? 52 then 97 + (i - 26)
  else if i <? 62 then 48 + (i - 52)
  else if i =? 62 then 43
  else 47.

(** [base64.b64encode(content).decode("utf-8")] on a sequence of bytes:
    three bytes give four characters, and a last group of one or two
    bytes is padded with [=]. *)
Fixpoint b64encode (content : list N) : pystr :=
  match content with
  | [] => []
  | [a] =>
    [b64_char (N.shiftr a 2); b64_char (N.shiftl (N.land a 3) 4); 61; 61]
  | [a; b] =>
    [b64_char (N.shiftr a 2);
     b64_char (N.lor (N.shiftl (N.land a 3) 4) (N.shiftr b 4));
     b64_char (N.shiftl (N.land b 15) 2); 61]
  | a :: b :: c :: rest =>
    b64_char (N.shiftr a 2)
    :: b64_char (N.lor (N.shiftl (N.land a 3) 4) (N.shiftr b 4))
    :: b64_char (N.lor (N.shiftl (N.land b 15) 2) (N.shiftr c 6))
    :: b64_char (N.land c 63)
    :: b64encode rest
  end.

(** [encode_image]: the content of the file, base64-encoded. *)
Definition encode_image (image_content : list N) : pystr := b64encode image_content.

Definition get_image_type (base64_string : pystr) : pystr :=
  match strip_prefix (py "/9j/") base64_string with
  | Some _ => py "jpeg"
  | None => py "png"
  end.

(** The characters of a base64 text. *)
Definition is_b64_char (c : N) : bool :=
  ((65 <=? c) && (c <=? 90)) || ((97 <=? c) && (c <=? 122))
  || ((48 <=? c) && (c <=? 57)) || (c =? 43) || (c =? 47) || (c =? 61).

End Base64.

(** *** transkribus_api.py: the synchronous recognition cycle *)

Module TranskribusSync.
Import Transkribus Views.
Section Api.
Context `{!Env}.

(** The [while True] loop of [get_recognition_result]; [fuel] bounds the
    number of status requests. *)
Fixpoint recognition_loop (fuel : nat) (process_id : pystr) (headers : headers_t)
    (poll_interval : Q) : M pystr :=
  match fuel with
  | O => diverge
  | S fuel' =>
    let* status_response := check_process_status process_id headers in
    let status := resp_status status_response in
    if bool_decide (status = Some (py "FINISHED")) then
      get_process_result status_response
    else if bool_decide (status = Some (py "ERROR")) then
      raise (RuntimeError
        (py "Transkribus-Verarbeitung fehlgeschlagen (Prozess-ID: " ++ process_id
         ++ py ")."))
    else
      let* _ := time_sleep poll_interval in
      recognition_loop fuel' process_id headers (py_min (poll_interval * 1.5) 30)
  end.

Definition get_recognition_result (fuel : nat) (access_token : option pystr)
    (image_data : pystr) (model_id : Z) : M pystr :=
  let* '(process_id, headers) :=
    start_recognition_process access_token image_data model_id in
  recognition_loop fuel process_id headers 5.

Definition get_result_from_transkribus (fuel : nat) (image_data : pystr) (model_id : Z)
    (mode : pystr) : M pystr :=
  let '(username, password) :=
    if pystr_eqb mode (py "RA")
    then (USERNAME_TRANSKRIBUS_RA, PASSWORD_TRANSKRIBUS_RA)
    else if pystr_eqb mode (py "GL")
    then (USERNAME_TRANSKRIBUS_GL, PASSWORD_TRANSKRIBUS_GL)
    else ([], []) in
  let* access_token := transkribus_login username password in
  get_recognition_result fuel access_token image_data model_id.

End Api.
End TranskribusSync.

(** *** LLMs.py: the routing of a request to its provider *)

Module Llms.

Definition OPENAI_MODELS : list pystr := [py "gpt-5.2"].
Definition ANTHROPIC_MODELS : list pystr := [py "claude-sonnet-4-5-20250929"].
Definition GOOGLE_MODELS : list pystr := [py "gemini-2.5-pro"; py "gemini-3-pro-preview"].

(** [get_result_from_mllm], given what the call of each provider returns
    for the request: the content, which may be [None], or an exception.
    A model of no provider falls through every branch and gives [None]. *)
Definition get_result_from_mllm (openai anthropic google : exn + option pystr)
    (model : pystr) : exn + option pystr :=
  if bool_decide (model ∈ OPENAI_MODELS) then openai
  else if bool_decide (model ∈ ANTHROPIC_MODELS) then anthropic
  else if bool_decide (model ∈ GOOGLE_MODELS) then google
  else inr None.

End Llms.


(** ** Notions used to state and prove the properties *)

(** The text after the last line feed of the white space at the head of
    [s], when that white space holds a line feed: what [\s*\n] matches. *)
Fixpoint blank_run_end (s : pystr) : option pystr :=
  match s with
  | [] => None
  | c :: s' =>
    if is_space c then
      match blank_run_end s' with
      | Some r => Some r
      | None => if c =? LF then Some s' else None
      end
    else None
  end.

(** No line feed of [s] is followed by white space and another line feed:
    [\n\s*\n] matches nowhere in [s]. *)
Definition settled (s : pystr) : Prop :=
  ∀ pre t, s = pre ++ LF :: t → blank_run_end t = None.

(** The patterns every match of which takes at least one character. *)
Fixpoint consumes (r : Re.regex) : bool :=
  match r with
  | Re.Lit _ | Re.Class _ | Re.Plus _ => true
  | Re.Star _ => false
  | Re.Seq r1 r2 => consumes r1 || consumes r2
  end.


(** The text of the example: [<a>], two line feeds, [Hello] and two
    spaces, a line feed, [</a>]. *)
Definition cleanup_example : pystr :=
  py "<a>" ++ [LF; LF] ++ py "Hello  " ++ [LF] ++ py "</a>".


(** A simulated world in which nothing is ever finished. *)
Definition idle_config : Sim.sim_config := Sim.latency_config [].

(** A store holding one record created at time 1000, in a world whose
    clock shows 4600. *)
Definition boundary_record : pydict :=
  {[ "status" := VStr (py "TEI-XML-Generierung gestartet");
     "tei_status" := VStr (py "RUNNING");
     "created_at" := VTime 1000 ]}.

Definition boundary_world : @world (Sim.sim_env idle_config) :=
  @World (Sim.sim_env idle_config) (Sim.SimState 4600 0 0 0)
    {[ py "job-0" := boundary_record ]} [].

(** A status endpoint that accepts only the token of the [n]-th log-in
    and answers 401 to any other. *)
Definition expiring_config (n : nat) : Sim.sim_config := {|
  Sim.cfg_status := λ url headers now,
    if bool_decide (headers !! "Authorization"
                    = Some (py "Bearer token" ++ Views.str_nat n))
    then inr (StatusResponse (Some (py "RUNNING")) None)
    else inl (HTTPError 401 (py "401 Client Error: Unauthorized"));
  Sim.cfg_token := λ n, inr (Some (py "token" ++ Views.str_nat n));
  Sim.cfg_mllm_only := λ image, inr (py "mllm:" ++ image);
  Sim.cfg_merged := λ htr mllm image, inr (py "merged");
  Sim.cfg_tei := λ _ merged_text, inr merged_text;
|}.

(** The kind of an effect, for reading traces. *)
Definition event_kind (e : event) : string :=
  match e with
  | EvSleep _ => "sleep"
  | EvGet _ _ _ => "get"
  | EvLogin _ _ _ => "login"
  | EvSubmit _ _ _ _ => "submit"
  | EvTime _ => "time"
  | EvUuid _ => "uuid"
  | EvCreate _ _ => "create"
  | EvDelete _ => "delete"
  | EvWrite _ key _ => "write " +:+ key
  end.

(** *** The store as a function of the trace *)

(** The change an effect makes to [process_status_store]. *)
Definition replay_event (ev : event) (m : gmap pystr pydict) : gmap pystr pydict :=
  match ev with
  | EvWrite pid key v => alter (insert key v) pid m
  | EvCreate pid data => <[pid := data]> m
  | EvDelete pid => delete pid m
  | _ => m
  end.

(** The store after the effects [evs], starting from [m]. *)
Definition replay (evs : list event) (m : gmap pystr pydict) : gmap pystr pydict :=
  foldl (λ m ev, replay_event ev m) m evs.

(** The change an effect makes to the record of job [pid]. *)
Definition write_to (pid : pystr) (data : pydict) (ev : event) : pydict :=
  match ev with
  | EvWrite p key v => if decide (p = pid) then <[key := v]> data else data
  | _ => data
  end.

Definition apply_writes (pid : pystr) (evs : list event) (data : pydict) : pydict :=
  foldl (write_to pid) data evs.

(** The effects a background job can have: it creates and deletes no
    record, draws no identifier and does not read the clock. *)
Definition job_event (ev : event) : bool :=
  match ev with
  | EvCreate _ _ | EvDelete _ | EvUuid _ | EvTime _ => false
  | _ => true
  end.

(** [job_spec pid data m Q]: run in a world whose store holds the record
    [data] for [pid], the code [m] extends the trace by effects of a job,
    the store changes as these effects say, and the outcome and the
    effects satisfy [Q]. *)
Definition job_spec `{!Env} {A} (pid : pystr) (data : pydict) (m : M A)
    (Q : result A → list event → Prop) : Prop :=
  ∀ w, process_status_store w !! pid = Some data →
    ∃ evs, log (m w).1 = log w ++ evs
      ∧ process_status_store (m w).1 = replay evs (process_status_store w)
      ∧ Forall (λ ev, job_event ev = true) evs
      ∧ Q (m w).2 evs.

(** The sleep intervals of a trace, in order. *)
Definition sleeps (evs : list event) : list Q :=
  omap (λ ev, match ev with EvSleep t => Some t | _ => None end) evs.

(** The writes to the key [key] of job [pid] in a trace, in order. *)
Definition writes_of (pid : pystr) (key : string) (evs : list event) : list pyval :=
  omap (λ ev, match ev with
              | EvWrite p k v => if decide (p = pid ∧ k = key) then Some v else None
              | _ => None
              end) evs.

(** The keys of job [pid] that a trace writes, in order. *)
Definition written_keys (pid : pystr) (evs : list event) : list string :=
  omap (λ ev, match ev with
              | EvWrite p k _ => if decide (p = pid) then Some k else None
              | _ => None
              end) evs.

(** *** Notions for the polling loop *)

(** The sleep interval before polling round [n] (from 0):
    [poll_interval = 5], then [poll_interval = min(poll_interval * 1.5, 30)]
    after each sleep. *)
Fixpoint backoff (n : nat) : Q :=
  match n with
  | O => 5
  | S n' => Views.py_min (backoff n' * 1.5) 30
  end.

(** The status text written when the [k]-th page has finished. *)
Definition progress_write (total k : nat) : pyval :=
  VStr (py "Texerkennung bei " ++ Views.str_nat k ++ py " von "
        ++ Views.str_nat total ++ py " Seite(n) abgeschlossen.").

(** Requests to the HTR provider. *)
Definition request_event (ev : event) : bool :=
  match ev with
  | EvGet _ _ _ | EvLogin _ _ _ | EvSubmit _ _ _ _ => true
  | _ => false
  end.

(** Status requests and log-ins. *)
Definition status_request (ev : event) : bool :=
  match ev with
  | EvGet _ _ _ | EvLogin _ _ _ => true
  | _ => false
  end.

(** The effects of polling: sleeps, status requests, log-ins, and writes
    of the two status keys of the job's record. *)
Definition polling_event (pid : pystr) (ev : event) : bool :=
  match ev with
  | EvSleep _ | EvGet _ _ _ | EvLogin _ _ _ => true
  | EvWrite p k _ => bool_decide (p = pid ∧ k ∈ ["status"; "transkribus_status"])
  | _ => false
  end.

(** The effects of a job that touch no key of its record but [keys]. *)
Definition writes_within (pid : pystr) (keys : list string) (ev : event) : bool :=
  match ev with
  | EvWrite p k _ => bool_decide (p = pid ∧ k ∈ keys)
  | EvCreate _ _ | EvDelete _ | EvUuid _ | EvTime _ => false
  | _ => true
  end.

(** A status request for the job [pid_i] was answered FINISHED with
    [text] in the trace [evs]. *)
Definition finished_in (evs : list event) (pid_i : pystr) (text : pystr) : Prop :=
  ∃ headers response,
    EvGet (Transkribus.status_url pid_i) headers (inr response) ∈ evs
    ∧ resp_status response = Some (py "FINISHED")
    ∧ resp_text response = Some text.

(** The invariant of [_poll_transkribus_jobs], relating the loop state to
    the trace [evs] of the loop so far. *)
Definition poll_inv (pid : pystr) (total : nat) (process_ids : list pystr)
    (st : Views.poll_state) (evs : list event) : Prop :=
  length (Views.results st) = total
  ∧ Views.finished_count st = length (filter is_Some (Views.results st))
  ∧ writes_of pid "status" evs
    = map (progress_write total) (seq 1 (Views.finished_count st))
  ∧ (Views.finished_count st = total → (0 < total)%nat →
     last evs = Some (EvWrite pid "status" (progress_write total total)))
  ∧ (∀ i text, Views.results st !! i = Some (Some text) →
     ∃ pid_i, process_ids !! i = Some pid_i ∧ finished_in evs pid_i text).

(** *** Notions for recognition jobs *)

(** The images submitted to the HTR provider in a trace, each with the
    process identifier the provider returned for it, in order. *)
Definition submissions (evs : list event) : list (pystr * pystr) :=
  omap (λ ev, match ev with
              | EvSubmit _ image_data _ (inr process_id) => Some (image_data, process_id)
              | _ => None
              end) evs.

(** [entry] is the result entry of page [i] of the job: it carries the
    index [i], the text [text] that a FINISHED response for the HTR job of
    page [i] carried, the text [mllm] of the MLLM call for the image of
    page [i], and the text [merged] of the merge call for these two texts
    and that image. *)
Definition page_entry_of `{!Env} (job : Views.ocr_job) (process_ids : list pystr)
    (evs : list event) (i : nat) (entry : page_result) : Prop :=
  ∃ image pid_i text mllm merged,
    Views.ocr_images_base64 job !! i = Some image
    ∧ process_ids !! i = Some pid_i
    ∧ finished_in evs pid_i text
    ∧ get_mllm_only_atr_result (Views.ocr_multimodal_llm job) image
        (Views.ocr_temperature job) (Views.ocr_mode job) = inr mllm
    ∧ get_merged_atr_mllm_result (Views.ocr_multimodal_llm job) (Some text) mllm image
        (Views.ocr_temperature job) (Views.ocr_mode job) = inr merged
    ∧ entry = PageResult i merged (Some text) mllm.

(** The keys a recognition job writes before it stores its results. *)
Definition ocr_status_keys : list string :=
  ["status"; "transkribus_status"; "mllm_status"].

(** The trace [evs] of a recognition job that ran to its end: the
    submissions of the images in order, then polling and merging, during
    which only status keys are written, then the one write of [results]
    with all the entries, then the three final status writes. *)
Definition ocr_completed `{!Env} (job : Views.ocr_job) (evs : list event)
    (page_results : list page_result) : Prop :=
  let pid := Views.ocr_process_id job in
  let images := Views.ocr_images_base64 job in
  ∃ process_ids evs_before,
    evs = evs_before ++
          [EvWrite pid "results" (VResults page_results);
           EvWrite pid "status" (VStr (py "Verarbeitung abgeschlossen"));
           EvWrite pid "transkribus_status" (VStr (py "FINISHED"));
           EvWrite pid "mllm_status" (VStr (py "FINISHED"))]
    ∧ Forall (λ ev, writes_within pid ocr_status_keys ev = true) evs_before
    ∧ submissions evs_before = zip images process_ids
    ∧ length process_ids = length images
    ∧ length page_results = length images
    ∧ ∀ i, (i < length images)%nat →
        ∃ entry, page_results !! i = Some entry
                 ∧ page_entry_of job process_ids evs_before i entry.

(** The trace of a recognition job that failed with the exception [e]:
    status writes only, then the failure status and the error. *)
Definition ocr_failed (job : Views.ocr_job) (evs : list event) (e : exn) : Prop :=
  let pid := Views.ocr_process_id job in
  ∃ body_evs,
    evs = body_evs ++
          [EvWrite pid "status" (VStr (py "Fehler: " ++ str_exn e));
           EvWrite pid "error" (VStr (str_exn e))]
    ∧ Forall (λ ev, writes_within pid ocr_status_keys ev = true) body_evs.

(** Writes to the record of job [pid]. *)
Definition is_write_to (pid : pystr) (ev : event) : bool :=
  match ev with
  | EvWrite p _ _ => bool_decide (p = pid)
  | _ => false
  end.

(** The writes to the record of job [pid] that follow the first write of
    its [error] field in a trace; [None] when the trace never sets it. *)
Fixpoint mutations_after_error (pid : pystr) (evs : list event) : option (list event) :=
  match evs with
  | [] => None
  | ev :: evs' =>
    match ev with
    | EvWrite p key _ =>
      if decide (p = pid ∧ key = "error")
      then Some (List.filter (is_write_to pid) evs')
      else mutations_after_error pid evs'
    | _ => mutations_after_error pid evs'
    end
  end.

(** The record [upload_image] stores for a new recognition job. *)
Definition ocr_initial_record (total_pages : nat) (created_at : Q) : pydict :=
  {[ "status" := VStr (py "Texterkennung gestartet");
     "transkribus_status" := VStr (py "PENDING");
     "mllm_status" := VStr (py "PENDING");
     "total_pages" := VInt (Z.of_nat total_pages);
     "current_page" := VInt 0;
     "results" := VResults [];
     "created_at" := VTime created_at ]}.

(** The status query for job [pid]. *)
Definition status_query (pid : pystr) : Views.HttpRequest :=
  Views.Request (py "GET") ∅ {[ "process_id" := pid ]} ∅.

(** The traces of the annotation job. *)
Definition tei_started (pid : pystr) : event :=
  EvWrite pid "status" (VStr (py "TEI-XML wird generiert...")).

Definition tei_failure_writes (pid : pystr) (e : exn) : list event :=
  [EvWrite pid "status" (VStr (py "Fehler: " ++ str_exn e));
   EvWrite pid "error" (VStr (str_exn e));
   EvWrite pid "tei_status" (VStr (py "ERROR"))].

(** *** Example runs *)

(** A provider on which page 0 finishes after 20 seconds and page 1
    after 3: the second page completes first. *)
Definition two_page_config : Sim.sim_config := Sim.latency_config [20%Q; 3%Q].

(** A recognition request with two images. *)
Definition two_page_request : Views.HttpRequest :=
  Views.Request (py "POST")
    {[ "multimodal-llm-ocr" := py "gpt-5.2";
       "transkribus-model" := py "123";
       "temperature-ocr" := py "0.5";
       "mode" := py "RA" ]}
    ∅
    {[ "images" := Views.Uploads [py "A"] (py "B") ]}.

(** The world after [upload_image] has accepted the request, and the job
    it has started. *)
Definition two_page_world : @world (Sim.sim_env two_page_config) :=
  (@Views.upload_image (Sim.sim_env two_page_config) two_page_request
     (Sim.sim_world0 two_page_config)).1.

Definition two_page_job : Views.ocr_job :=
  Views.OcrJob (py "job-0") [py "A"; py "B"] 2 (py "gpt-5.2") 123 (FFin (inject_Z 0 + inject_Z 5 / 10)) (py "RA").

Definition two_page_response : Views.JsonResponse :=
  Views.Json {[ "process_id" := VStr (py "job-0") ]} 200.

(** A language model whose annotation call fails. *)
Definition failing_tei_config : Sim.sim_config := {|
  Sim.cfg_status := Sim.latency_status [];
  Sim.cfg_token := λ n, inr (Some (py "token"));
  Sim.cfg_mllm_only := λ image, inr image;
  Sim.cfg_merged := λ htr mllm image, inr mllm;
  Sim.cfg_tei := λ _ _, inl (ValueError (py "Model returned None."));
|}.

Definition example_tei_job : Views.tei_job :=
  Views.TeiJob (py "job-0") [py "A"] false (py "gpt-5.2") (py "Hello")
    (py "prompt-tei-ra") [] (FFin 0) (py "RA").

Definition tei_world (cfg : Sim.sim_config) : @world (Sim.sim_env cfg) :=
  @World (Sim.sim_env cfg) (Sim.SimState 0 0 0 0) {[ py "job-0" := boundary_record ]} [].


(** What a status query for job [pid] shows under the key [key]. *)
Definition status_field `{!Env} (w : world) (pid : pystr) (key : string) : option pyval :=
  match (Views.check_status (status_query pid) w).2 with
  | Ok response => Views.body response !! key
  | _ => None
  end.

(** The run of the two-page job, the effects of that run, and the world
    at the point of the run where [n] of them have happened. *)
Definition two_page_run : @world (Sim.sim_env two_page_config) * result unit :=
  @Views.process_ocr (Sim.sim_env two_page_config) 10 [1; 0]%nat two_page_job two_page_world.

Definition two_page_trace : list event :=
  drop (length (log two_page_world)) (log two_page_run.1).

Definition two_page_world_after (n : nat) : @world (Sim.sim_env two_page_config) :=
  @World (Sim.sim_env two_page_config) (ext two_page_world)
    (replay (take n two_page_trace) (process_status_store two_page_world))
    (log two_page_world ++ take n two_page_trace).

(** *** Notions for the entry points *)

(** The key under which [create_tei] expects image [i]. *)
Definition image_key (i : nat) : string := "image_" +:+ pretty i.

(** The fields of an annotation request other than the page count and
    the images pass the checks of [create_tei]. *)
Definition tei_fields_valid `{!Env} (request : Views.HttpRequest) : Prop :=
  Views.method request = py "POST"
  ∧ is_Some (Views.one_of Views.VALID_MODELS (Views.POST request !! "multimodal-llm-tei"))
  ∧ is_Some (Views.one_of Views.VALID_PROMPTS
               (Views.POST request !! "prompt-transformation-tei"))
  ∧ (∃ t, py_float (default (py "0.0") (Views.POST request !! "temperature-tei")) = Some t
          ∧ Views.temperature_in_range t = true)
  ∧ (∃ c cs, Views.POST request !! "merged_text" = Some (c :: cs))
  ∧ is_Some (Views.one_of Views.VALID_MODES
               (Some (default (py "RA") (Views.POST request !! "mode")))).



(** An annotation request that declares three pages and attaches two
    images, and a complete single-page one without a mode. *)
Definition three_pages_two_images : Views.HttpRequest :=
  Views.Request (py "POST")
    {[ "multimodal-llm-tei" := py "gemini-2.5-pro";
       "prompt-transformation-tei" := py "prompt-tei-ra";
       "temperature-tei" := py "0.0";
       "merged_text" := py "Hello";
       "mode" := py "GL";
       "num_pages" := py "3" ]}
    ∅
    {[ "image_0" := Views.Uploads [] (py "A"); "image_1" := Views.Uploads [] (py "B") ]}.

Definition tei_request_without_mode : Views.HttpRequest :=
  Views.Request (py "POST")
    {[ "multimodal-llm-tei" := py "gemini-2.5-pro";
       "prompt-transformation-tei" := py "prompt-tei-ra";
       "merged_text" := py "Hello" ]}
    ∅
    {[ "image" := Views.Uploads [] (py "A") ]}.

Definition ocr_request_without_mode : Views.HttpRequest :=
  Views.Request (py "POST")
    {[ "multimodal-llm-ocr" := py "gpt-5.2";
       "transkribus-model" := py "123" ]}
    ∅
    {[ "images" := Views.Uploads [] (py "A") ]}.

(** Literals are kept folded in the proofs below. *)
Opaque py.

(** *** Notions for the further properties *)

(** A text without white space at either end. *)
Definition stripped (s : pystr) : Prop :=
  match s with
  | [] => True
  | c :: _ => is_space c = false ∧ ∃ c', last s = Some c' ∧ is_space c' = false
  end.

(** The first three bytes of a JPEG file. *)
Definition jpeg_magic : list N := [255; 216; 255].

(** The record [create_tei] stores for a new annotation job. *)
Definition tei_initial_record (created_at : Q) : pydict :=
  {[ "status" := VStr (py "TEI-XML-Generierung gestartet");
     "tei_status" := VStr (py "RUNNING");
     "created_at" := VTime created_at ]}.

(** An annotation request for two pages with both images attached, and
    the job [create_tei] starts for it in a fresh simulated world. *)
Definition two_image_tei_request : Views.HttpRequest :=
  Views.Request (py "POST")
    {[ "multimodal-llm-tei" := py "gemini-2.5-pro";
       "prompt-transformation-tei" := py "prompt-tei-gl";
       "temperature-tei" := py "1.5";
       "merged_text" := py "Hello";
       "num_pages" := py "2" ]}
    ∅
    {[ "image_0" := Views.Uploads [] (py "A"); "image_1" := Views.Uploads [] (py "B") ]}.

Definition two_image_tei_job : Views.tei_job :=
  Views.TeiJob (py "job-0") [py "A"; py "B"] true (py "gemini-2.5-pro") (py "Hello")
    (py "prompt-tei-gl") [] (FFin (inject_Z 1 + inject_Z 5 / 10)) (py "RA").

(** A store holding one record without a creation time, in a world whose
    clock shows 4600. *)
Definition undated_record : pydict :=
  {[ "status" := VStr (py "TEI-XML-Generierung gestartet");
     "tei_status" := VStr (py "RUNNING") ]}.

Definition undated_world : @world (Sim.sim_env idle_config) :=
  @World (Sim.sim_env idle_config) (Sim.SimState 4600 0 0 0)
    {[ py "job-0" := undated_record ]} [].

(** The answer to the one language-model call of [process_tei], with the
    failure of the indexing [images_base64[0]] that precedes it for a
    single-page job without an image. *)
Definition tei_answer `{!Env} (job : Views.tei_job) : exn + pystr :=
  let ask image_data :=
    get_tei_from_mllm (Views.tei_multimodal_llm job) image_data (Views.tei_merged_text job)
      (Views.tei_chosen_prompt job) (Views.tei_custom_prompt_text job)
      (Views.tei_temperature job) (Views.tei_mode job) in
  if Views.tei_is_multipage job then ask (ImageList (Views.tei_images_base64 job))
  else match Views.tei_images_base64 job with
       | image :: _ => ask (OneImage image)
       | [] => inl (IndexError (py "list index out of range"))
       end.

(** The clean-up chain [process_tei] applies to the annotated text to get
    its plain text. *)
Definition text_content_only (result_tei : pystr) : pystr :=
  Processing.remove_first_empty_line
    (Processing.remove_specific_string
      (Processing.strip_lines
        (Processing.remove_empty_lines
          (Processing.remove_accent
            (Processing.remove_xml_tags result_tei))))
      Processing.default_string_to_remove).

(** The keys a job may write in its record. *)
Definition ocr_keys : list string :=
  ["status"; "transkribus_status"; "mllm_status"; "results"; "error"].

Definition tei_keys : list string :=
  ["status"; "tei_status"; "result_tei"; "result_text_content_only"; "error"].

(** Status answers that report the failure of an HTR job. *)
Definition error_answer (ev : event) : bool :=
  match ev with
  | EvGet _ _ (inr response) => bool_decide (resp_status response = Some (py "ERROR"))
  | _ => false
  end.

(** What polling writes when the HTR job of page [i] (from 0) has failed. *)
Definition abort_writes (pid : pystr) (i : nat) : list event :=
  [EvWrite pid "status"
     (VStr (py "Fehler bei der Texterkennung bei Seite " ++ Views.str_nat (i + 1)));
   EvWrite pid "transkribus_status" (VStr (py "ERROR"))].

(** The trace [evs] of polling ends with the first ERROR answer, for page
    [i], followed by the two writes that report it, and the outcome [r] is
    the exception naming that page. *)
Definition poll_aborted {A} (pid : pystr) (process_ids : list pystr)
    (evs : list event) (r : result A) : Prop :=
  ∃ pre headers response i pid_i,
    evs = pre ++ EvGet (Transkribus.status_url pid_i) headers (inr response)
                 :: abort_writes pid i
    ∧ Forall (λ ev, error_answer ev = false) pre
    ∧ process_ids !! i = Some pid_i
    ∧ resp_status response = Some (py "ERROR")
    ∧ r = Raise (RuntimeError
                   (py "Transkribus processing failed for page " ++ Views.str_nat (i + 1))).

(** A provider on which the HTR job of page 0 keeps running and that of
    page 1 has failed. *)
Definition error_config : Sim.sim_config := {|
  Sim.cfg_status := λ url _ _,
    if bool_decide (url = Transkribus.status_url (py "p1"))
    then inr (StatusResponse (Some (py "ERROR")) None)
    else inr (StatusResponse (Some (py "RUNNING")) None);
  Sim.cfg_token := λ n, inr (Some (py "token"));
  Sim.cfg_mllm_only := λ image, inr image;
  Sim.cfg_merged := λ htr mllm image, inr mllm;
  Sim.cfg_tei := λ _ merged_text, inr merged_text;
|}.

(** The submissions of [images], in order, with the token [access_token],
    each answered with the process identifier at its place in [pids]. *)
Definition submit_events (access_token : option pystr) (model_id : Z)
    (images pids : list pystr) : list event :=
  zip_with (λ image pid,
              EvSubmit (Transkribus.auth_headers access_token) image model_id (inr pid))
    images pids.

(** A provider on which every HTR job has finished, with the URL of the
    status request as its text. *)
Definition finished_config : Sim.sim_config := {|
  Sim.cfg_status := λ url _ _, inr (StatusResponse (Some (py "FINISHED")) (Some url));
  Sim.cfg_token := λ n, inr (Some (py "token"));
  Sim.cfg_mllm_only := λ image, inr image;
  Sim.cfg_merged := λ htr mllm image, inr mllm;
  Sim.cfg_tei := λ _ merged_text, inr merged_text;
|}.

(** The effects of waiting for a job with [get_recognition_result]: each
    answer of [waiting] to a status request is followed by a sleep, the
    sleeps following the back-off from its step [n]. *)
Fixpoint polls (url : pystr) (headers : headers_t) (n : nat)
    (waiting : list status_response) : list event :=
  match waiting with
  | [] => []
  | response :: waiting' =>
    EvGet url headers (inr response) :: EvSleep (backoff n) :: polls url headers (S n) waiting'
  end.

(** A status that makes [get_recognition_result] wait. *)
Definition pending (response : status_response) : Prop :=
  resp_status response ≠ Some (py "FINISHED") ∧ resp_status response ≠ Some (py "ERROR").

(** The text after the first [>] of [s], when there is one. *)
Fixpoint tag_end (s : pystr) : option pystr :=
  match s with
  | [] => None
  | c :: s' => if c =? 62 then Some s' else tag_end s'
  end.

(** No tag is left in [s]: wherever a [<] is followed by a character
    other than [>], no [>] comes after it, so that [<[^>]+>] matches
    nowhere. *)
Definition tag_free (s : pystr) : Prop :=
  ∀ pre c t, s = pre ++ 60 :: c :: t → c ≠ 62 → tag_end t = None.

(** The characters [<] and [>]. *)
Definition angle (c : N) : bool := (c =? 60) || (c =? 62).

(** [edit s t]: the text [t] is [s] with some characters other than [<]
    and [>] deleted or replaced by such characters. *)
Inductive edit : pystr → pystr → Prop :=
| edit_nil : edit [] []
| edit_keep c s t : edit s t → edit (c :: s) (c :: t)
| edit_drop c s t : angle c = false → edit s t → edit (c :: s) t
| edit_subst c d s t : angle c = false → angle d = false → edit s t → edit (c :: s) (d :: t).

(** A store holding one record created at time 1000, in a world whose
    clock shows 5000 and that has served one identifier. *)
Definition late_world : @world (Sim.sim_env idle_config) :=
  @World (Sim.sim_env idle_config) (Sim.SimState 5000 0 0 1)
    {[ py "job-0" := boundary_record ]} [].


(** * Properties *)

(** ** processing.py: the text transforms *)

Module ProcessingFacts.
Import Re Processing.

Lemma head_app_first {A} (l1 l2 : list A) :
  head (l1 ++ l2) = match head l1 with Some x => Some x | None => head l2 end.
Proof. by destruct l1. Qed.

Lemma is_space_not_LF c : is_space c = false → (c =? LF) = false.
Proof.
  intros Hc. destruct (N.eqb_spec c LF) as [->|]; [|done].
  by vm_compute in Hc.
Qed.

(** The backtracking matcher's answer for [\s*\n] is the text after the
    last line feed of the leading run of white space. *)
Lemma blank_tail_matches s :
  head (flat_map (matches (Lit LF)) (star_matches is_space s)) = blank_run_end s.
Proof.
  induction s as [|c s IH]; [done|].
  cbn [star_matches blank_run_end].
  destruct (is_space c) eqn:Hc.
  - rewrite flat_map_app, head_app_first, IH.
    destruct (blank_run_end s); [done|].
    cbn [flat_map matches]. rewrite (N.eqb_sym LF c). by destruct (c =? LF).
  - cbn [flat_map matches]. by rewrite (N.eqb_sym LF c), (is_space_not_LF c Hc).
Qed.

Lemma match_blank_lines c s :
  match_here blank_lines_re (c :: s) = if c =? LF then blank_run_end s else None.
Proof.
  unfold match_here, blank_lines_re. cbn [matches].
  rewrite (N.eqb_sym LF c). destruct (c =? LF); [|done].
  cbn [flat_map]. rewrite app_nil_r. apply blank_tail_matches.
Qed.

Lemma blank_run_end_suffix s r :
  blank_run_end s = Some r → drop (length s - length r) s = r ∧ (length r < length s)%nat.
Proof.
  revert r. induction s as [|c s IH]; intros r; [done|].
  cbn [blank_run_end]. destruct (is_space c); [|done].
  destruct (blank_run_end s) as [r'|] eqn:Hs.
  - intros [= <-]. destruct (IH r' eq_refl) as [Hd Hl].
    cbn [length]. split; [|lia].
    replace (S (length s) - length r')%nat with (S (length s - length r')) by lia.
    done.
  - destruct (c =? LF); [|done]. intros [= <-].
    cbn [length]. split; [|lia].
    replace (S (length s) - length s)%nat with 1%nat by lia. done.
Qed.

(** No line feed is left in the white space that follows the match. *)
Lemma blank_run_end_last s r : blank_run_end s = Some r → blank_run_end r = None.
Proof.
  revert r. induction s as [|c s IH]; intros r; [done|].
  cbn [blank_run_end]. destruct (is_space c); [|done].
  destruct (blank_run_end s) as [r'|] eqn:Hs.
  - intros [= <-]. by apply IH.
  - destruct (c =? LF); [|done]. by intros [= <-].
Qed.

Lemma sub_go_skip r repl k s : sub_go r repl k s = sub_go r repl 0 (drop k s).
Proof.
  revert k. induction s as [|c s IH]; intros [|k]; try done.
  cbn [sub_go drop]. apply IH.
Qed.

Lemma remove_empty_lines_nil : remove_empty_lines [] = [].
Proof. done. Qed.

(** The scan of [remove_empty_lines], one character at a time. *)
Lemma remove_empty_lines_cons c s :
  remove_empty_lines (c :: s) =
    if c =? LF then
      match blank_run_end s with
      | Some rest => LF :: remove_empty_lines rest
      | None => c :: remove_empty_lines s
      end
    else c :: remove_empty_lines s.
Proof.
  unfold remove_empty_lines, sub. cbn [sub_go].
  rewrite match_blank_lines. destruct (c =? LF); [|done].
  destruct (blank_run_end s) as [rest|] eqn:Hs; [|done].
  rewrite sub_go_skip. by destruct (blank_run_end_suffix _ _ Hs) as [-> _].
Qed.

(** White space without a line feed at the head of a text is left as it
    is, so no match appears there. *)
Lemma blank_run_end_remove s :
  blank_run_end s = None → blank_run_end (remove_empty_lines s) = None.
Proof.
  induction s as [|c s IH]; [done|].
  cbn [blank_run_end]. rewrite remove_empty_lines_cons.
  destruct (is_space c) eqn:Hc.
  - destruct (blank_run_end s) eqn:Hs; [done|].
    destruct (c =? LF) eqn:Hlf; [done|]. intros _.
    cbn [blank_run_end]. by rewrite Hc, IH, Hlf.
  - intros _. rewrite (is_space_not_LF c Hc). cbn [blank_run_end]. by rewrite Hc.
Qed.

Lemma settled_cons c s :
  settled s → ((c =? LF) = true → blank_run_end s = None) → settled (c :: s).
Proof.
  intros Hs Hc [|c' pre] t; cbn; intros [= -> ->].
  - apply Hc, N.eqb_refl.
  - by eapply Hs.
Qed.

Lemma settled_remove_empty_lines s : settled (remove_empty_lines s).
Proof.
  remember (length s) as n eqn:Hn. revert s Hn.
  induction n as [n IH] using lt_wf_ind. intros s ->.
  destruct s as [|c s].
  { intros pre t H. by destruct pre. }
  rewrite remove_empty_lines_cons. destruct (c =? LF) eqn:Hc.
  - destruct (blank_run_end s) as [rest|] eqn:Hs.
    + apply settled_cons.
      * eapply IH; [|done]. cbn. destruct (blank_run_end_suffix _ _ Hs). lia.
      * intros _. apply blank_run_end_remove. by eapply blank_run_end_last.
    + apply settled_cons.
      * eapply IH; [|done]. cbn. lia.
      * intros _. by apply blank_run_end_remove.
  - apply settled_cons.
    + eapply IH; [|done]. cbn. lia.
    + intros; congruence.
Qed.

(** A text in which the pattern matches nowhere is left unchanged. *)
Lemma settled_fixed s : settled s → remove_empty_lines s = s.
Proof.
  induction s as [|c s IH]; intros Hs; [done|].
  assert (settled s) as Hs' by (intros pre t ->; by apply (Hs (c :: pre) t)).
  rewrite remove_empty_lines_cons, (IH Hs').
  destruct (N.eqb_spec c LF) as [->|]; [|done].
  by rewrite (Hs [] s eq_refl).
Qed.

(** C9. The blank-line removal is idempotent: for every text [s],
    [remove_empty_lines (remove_empty_lines s) = remove_empty_lines s]. *)
Theorem remove_empty_lines_idempotent (s : pystr) :
  remove_empty_lines (remove_empty_lines s) = remove_empty_lines s.
Proof. apply settled_fixed, settled_remove_empty_lines. Qed.

Lemma star_matches_length p s t : t ∈ star_matches p s → (length t ≤ length s)%nat.
Proof.
  revert t. induction s as [|c s IH]; intros t; cbn [star_matches].
  - intros ->%list_elem_of_singleton. done.
  - destruct (p c).
    + intros [H| ->%list_elem_of_singleton]%elem_of_app; [|done].
      apply IH in H. cbn. lia.
    + intros ->%list_elem_of_singleton. done.
Qed.

Lemma matches_length r s t :
  t ∈ matches r s →
  (length t ≤ length s)%nat ∧ (consumes r = true → (length t < length s)%nat).
Proof.
  revert s t. induction r as [c|p|p|p|r1 IH1 r2 IH2]; intros s t; cbn [matches consumes].
  - destruct s as [|c' s]; [by intros ?%elem_of_nil|].
    destruct (c =? c'); [|by intros ?%elem_of_nil].
    intros ->%list_elem_of_singleton. cbn. lia.
  - destruct s as [|c' s]; [by intros ?%elem_of_nil|].
    destruct (p c'); [|by intros ?%elem_of_nil].
    intros ->%list_elem_of_singleton. cbn. lia.
  - intros H%star_matches_length. split; [done|done].
  - destruct s as [|c' s]; [by intros ?%elem_of_nil|].
    destruct (p c'); [|by intros ?%elem_of_nil].
    intros H%star_matches_length. cbn. lia.
  - rewrite list_elem_of_In, in_flat_map.
    intros (u & Hu%list_elem_of_In & Ht%list_elem_of_In).
    destruct (IH1 _ _ Hu) as [H1 H1']. destruct (IH2 _ _ Ht) as [H2 H2'].
    split; [lia|]. intros [Hc|Hc]%orb_true_iff; [specialize (H1' Hc)|specialize (H2' Hc)]; lia.
Qed.

Lemma match_here_consumes r s rest :
  consumes r = true → match_here r s = Some rest → (length rest < length s)%nat.
Proof.
  unfold match_here. intros Hc Hh.
  apply (matches_length r s rest); [|done].
  destruct (matches r s); [done|]. injection Hh as ->. apply list_elem_of_here.
Qed.

(** The patterns of processing.py match no empty text, which is what
    [Re.sub] relies on. *)
Lemma processing_patterns_consume :
  consumes blank_lines_re = true ∧ consumes xml_tag_re = true
  ∧ consumes (lits (py "```xml")) = true ∧ consumes (lits (py "```")) = true.
Proof. done. Qed.

(** C8, as stated, fails: the three transforms do not yield [Hello]. *)
Lemma cleanup_example_not_Hello :
  strip_lines (remove_empty_lines (remove_xml_tags cleanup_example)) ≠ py "Hello".
Proof. vm_compute. discriminate. Qed.

(** C8, amended. Tag stripping, blank-line removal and line trimming, in
    that order, turn the example into a line feed followed by [Hello]:
    the first line, left empty by the opening tag, is kept. It is
    [remove_first_empty_line], the next step of the pipeline in
    [process_tei], that yields [Hello]. *)
Theorem cleanup_example_result :
  remove_xml_tags cleanup_example = [LF; LF] ++ py "Hello  " ++ [LF]
  ∧ remove_empty_lines (remove_xml_tags cleanup_example) = [LF] ++ py "Hello  " ++ [LF]
  ∧ strip_lines (remove_empty_lines (remove_xml_tags cleanup_example))
    = [LF] ++ py "Hello"
  ∧ remove_first_empty_line
      (strip_lines (remove_empty_lines (remove_xml_tags cleanup_example)))
    = py "Hello".
Proof. repeat split; vm_compute; reflexivity. Qed.

End ProcessingFacts.

(** ** views.py: the job state store *)

Module StoreFacts.
Import Transkribus Views Sim.

Section WithEnv.
Context `{!Env}.

Lemma lookup_foldl_delete (keys : list pystr) (m : gmap pystr pydict) (j : pystr) :
  foldl (λ m k, delete k m) m keys !! j = if decide (j ∈ keys) then None else m !! j.
Proof.
  revert m. induction keys as [|k keys IH]; intros m; cbn [foldl].
  - by rewrite decide_False by apply not_elem_of_nil.
  - rewrite IH. destruct (decide (j ∈ keys)) as [Hin|Hin].
    + by rewrite decide_True by by right.
    + destruct (decide (j = k)) as [->|Hne].
      * rewrite lookup_delete_eq. by rewrite decide_True by left.
      * rewrite lookup_delete_ne by done.
        rewrite decide_False; [done|]. by intros [?|?]%elem_of_cons.
Qed.

(** Deleting a list of distinct identifiers that are all in the store
    succeeds and removes exactly these. *)
Lemma for_each_store_delete (keys : list pystr) (w : world) :
  NoDup keys →
  (∀ k, k ∈ keys → is_Some (process_status_store w !! k)) →
  for_each keys store_delete w =
    (World (ext w) (foldl (λ m k, delete k m) (process_status_store w) keys)
       (log w ++ map EvDelete keys), Ok tt).
Proof.
  revert w. induction keys as [|k keys IH]; intros w Hnd Hin.
  - cbn. rewrite app_nil_r. by destruct w.
  - apply NoDup_cons in Hnd as [Hk Hnd].
    cbn [for_each]. unfold bind at 1. unfold store_delete at 1.
    destruct (Hin k) as [d Hd]; [left|]. rewrite Hd.
    rewrite IH; [|done|].
    + cbn. by rewrite <- app_assoc.
    + intros k' Hk'. cbn. rewrite lookup_delete_ne by (intros ->; done).
      apply Hin. by right.
Qed.

(** What [_cleanup_old_entries] does: it reads the clock once and removes
    the records that are older than the cutoff; the others are kept. *)
Lemma cleanup_old_entries_spec (w : world) :
  let now := (env_time (ext w)).2 in
  ∃ w', _cleanup_old_entries w = (w', Ok tt)
    ∧ ∀ pid, process_status_store w' !! pid =
        match process_status_store w !! pid with
        | Some data =>
          if expired (now - PROCESS_ENTRY_TTL) data then None else Some data
        | None => None
        end.
Proof.
  unfold _cleanup_old_entries, bind, time_time.
  destruct (env_time (ext w)) as [x now] eqn:Ht. cbn [snd].
  set (w1 := emit _ _).
  set (keys := (map_to_list _).*1).
  assert (∀ k, k ∈ keys ↔ ∃ data, process_status_store w !! k = Some data
            ∧ expired (now - PROCESS_ENTRY_TTL) data = true) as Hkeys.
  { intros k. unfold keys. rewrite list_elem_of_fmap. split.
    - intros ([k' d] & -> & Hel%elem_of_map_to_list).
      apply map_lookup_filter_Some in Hel as [? ?]. by exists d.
    - intros (d & Hd & He). exists (k, d). split; [done|].
      apply elem_of_map_to_list, map_lookup_filter_Some. done. }
  eexists. split.
  - apply for_each_store_delete.
    + apply NoDup_fst_map_to_list.
    + intros k (d & Hd & _)%Hkeys. by exists d.
  - intros pid. cbn. rewrite lookup_foldl_delete.
    destruct (process_status_store w !! pid) as [data|] eqn:Hd.
    + destruct (expired (now - PROCESS_ENTRY_TTL) data) eqn:He.
      * rewrite decide_True; [done|]. apply Hkeys. by exists data.
      * rewrite decide_False; [done|]. intros (d & Hd' & He')%Hkeys. congruence.
    + by destruct (decide _).
Qed.

Lemma expired_iff (now T : Q) (data : pydict) :
  data !! "created_at" = Some (VTime T) →
  expired (now - PROCESS_ENTRY_TTL) data = true ↔ (T + PROCESS_ENTRY_TTL < now)%Q.
Proof.
  intros Hd. unfold expired, created_at_or_0. rewrite Hd.
  destruct (T ?= now - PROCESS_ENTRY_TTL)%Q eqn:Hc.
  - apply Qeq_alt in Hc. split; [done|]. intros Hlt. lra.
  - apply Qlt_alt in Hc. split; [|done]. intros _. lra.
  - apply Qgt_alt in Hc. split; [done|]. intros Hlt. lra.
Qed.

(** C6, amended. A record created at time [T] is absent after a sweep
    invoked at a time strictly greater than [T + TTL], and is still
    present, unchanged, after a sweep invoked at a time less than or equal
    to [T + TTL]: the sweep deletes the records with
    [created_at < now - TTL], so at exactly [T + TTL] the record stays. *)
Theorem cleanup_ttl_boundary (w : world) (pid : pystr) (data : pydict) (T : Q) :
  process_status_store w !! pid = Some data →
  data !! "created_at" = Some (VTime T) →
  let now := (env_time (ext w)).2 in
  ∃ w', _cleanup_old_entries w = (w', Ok tt)
    ∧ ((T + PROCESS_ENTRY_TTL < now)%Q → process_status_store w' !! pid = None)
    ∧ ((now <= T + PROCESS_ENTRY_TTL)%Q → process_status_store w' !! pid = Some data).
Proof.
  intros Hpid HT now.
  destruct (cleanup_old_entries_spec w) as (w' & Hrun & Hstore).
  exists w'. split; [done|]. rewrite Hstore, Hpid. fold now.
  pose proof (expired_iff now T data HT) as Hexp.
  destruct (expired (now - PROCESS_ENTRY_TTL) data).
  - split; [done|]. intros Hle. exfalso.
    apply (Qlt_irrefl now). eapply Qle_lt_trans; [done|]. by apply Hexp.
  - split; [|done]. intros Hlt. by apply Hexp in Hlt.
Qed.

End WithEnv.

(** C6, as stated, fails at the boundary: a record created at time 1000
    survives the sweep invoked at time [1000 + TTL = 4600]. *)
Lemma cleanup_at_ttl_keeps_record :
  (4600 >= 1000 + PROCESS_ENTRY_TTL)%Q
  ∧ process_status_store (_cleanup_old_entries (H := sim_env idle_config) boundary_world).1
      !! py "job-0" = Some boundary_record.
Proof. split; [done|]. vm_compute. reflexivity. Qed.

Lemma cleanup_ttl_boundary_witness :
  ∃ w', _cleanup_old_entries (H := sim_env idle_config) boundary_world = (w', Ok tt)
    ∧ ((1000 + PROCESS_ENTRY_TTL < 4600)%Q → process_status_store w' !! py "job-0" = None)
    ∧ ((4600 <= 1000 + PROCESS_ENTRY_TTL)%Q
       → process_status_store w' !! py "job-0" = Some boundary_record).
Proof.
  apply (cleanup_ttl_boundary (H := sim_env idle_config) boundary_world
           (py "job-0") boundary_record 1000); reflexivity.
Defined.

End StoreFacts.

(** ** transkribus_api.py: the status poll with token refresh *)

Module TranskribusFacts.
Import Transkribus Sim.

Section WithEnv.
Context `{!Env}.

(** C4. The trace of one call of [check_process_status_with_retry], in
    full. The status request is sent once. If it succeeds, or fails with
    anything but an HTTP 401, that is all: its answer is returned, its
    error raised, and nothing is retried. On an HTTP 401 there is exactly
    one log-in, followed, when the log-in succeeded, by exactly one more
    status request with the headers of the new token, whose outcome is the
    outcome of the call: a failure of it, a second 401 included, is raised
    to the caller. A failed log-in is raised as well, without a retry. *)
Theorem check_process_status_with_retry_trace
    (w : world) (process_id : pystr) (headers : headers_t) (username password : pystr) :
  let url := status_url process_id in
  let first := http_get_status (ext w) url headers in
  let login := http_post_token first.1 username password in
  let run := check_process_status_with_retry process_id headers username password w in
  match first.2 with
  | inr response =>
    log run.1 = log w ++ [EvGet url headers first.2] ∧ run.2 = Ok (response, headers)
  | inl e =>
    if bool_decide (response_status_code e = Some 401%Z) then
      match login.2 with
      | inl e' =>
        log run.1 = log w ++ [EvGet url headers first.2; EvLogin username password login.2]
        ∧ run.2 = Raise e'
      | inr token =>
        let second := http_get_status login.1 url (auth_headers token) in
        log run.1 = log w ++ [EvGet url headers first.2;
                              EvLogin username password login.2;
                              EvGet url (auth_headers token) second.2]
        ∧ run.2 = match second.2 with
                  | inl e'' => Raise e''
                  | inr response => Ok (response, auth_headers token)
                  end
      end
    else log run.1 = log w ++ [EvGet url headers first.2] ∧ run.2 = Raise e
  end.
Proof.
  cbv zeta.
  unfold check_process_status_with_retry, try_except, bind, requests_get_json,
    transkribus_login, ret, raise, emit.
  destruct (http_get_status (ext w) (status_url process_id) headers) as [x1 [e|r]];
    cbn [fst snd ext log process_status_store]; [|done].
  destruct e; cbn [is_HTTPError response_status_code fst snd ext log process_status_store];
    try (rewrite bool_decide_false by done; done).
  case_bool_decide as Hcode; [|done].
  cbn [fst snd ext log process_status_store].
  destruct (http_post_token x1 username password) as [x2 [e'|token]];
    cbn [fst snd ext log process_status_store].
  { by rewrite <- app_assoc. }
  destruct (http_get_status x2 (status_url process_id) (auth_headers token))
    as [x3 [e''|r]]; cbn [fst snd ext log process_status_store];
    by rewrite <- !app_assoc.
Qed.

End WithEnv.

(** Three runs of the poll on simulated providers. With a token that has
    expired, the poll logs in once and its second request succeeds. *)
Example retry_after_401_succeeds :
  let run := check_process_status_with_retry (H := sim_env (expiring_config 0))
               (py "p0") (auth_headers (Some (py "stale"))) (py "u") (py "p")
               (sim_world0 _) in
  map event_kind (log run.1) = ["get"; "login"; "get"]
  ∧ run.2 = Ok (StatusResponse (Some (py "RUNNING")) None,
                auth_headers (Some (py "token0"))).
Proof. vm_compute. split; reflexivity. Qed.

(** When the provider answers 401 also to the new token, the second 401
    is raised after one log-in and two requests. *)
Example retry_after_401_fails_again :
  let run := check_process_status_with_retry (H := sim_env (expiring_config 5))
               (py "p0") (auth_headers (Some (py "token9"))) (py "u") (py "p")
               (sim_world0 _) in
  map event_kind (log run.1) = ["get"; "login"; "get"]
  ∧ run.2 = Raise (HTTPError 401 (py "401 Client Error: Unauthorized")).
Proof. vm_compute. split; reflexivity. Qed.

(** A 404 is raised at once. *)
Example no_retry_after_404 :
  let run := check_process_status_with_retry (H := sim_env idle_config)
               (py "p0") (auth_headers (Some (py "token0"))) (py "u") (py "p")
               (sim_world0 _) in
  map event_kind (log run.1) = ["get"]
  ∧ run.2 = Raise (HTTPError 404 (py "404 Client Error: Not Found")).
Proof. vm_compute. split; reflexivity. Qed.

End TranskribusFacts.

(** ** Reasoning about background jobs *)

Module JobLogic.
Import Transkribus Views.

Section WithEnv.
Context `{!Env}.

Lemma replay_app evs1 evs2 m : replay (evs1 ++ evs2) m = replay evs2 (replay evs1 m).
Proof. apply foldl_app. Qed.

Lemma apply_writes_app pid evs1 evs2 d :
  apply_writes pid (evs1 ++ evs2) d = apply_writes pid evs2 (apply_writes pid evs1 d).
Proof. apply foldl_app. Qed.

(** Under the effects of a job the record of [pid] stays in the store, and
    it is the initial record with the job's writes applied. *)
Lemma replay_job_record pid evs m d :
  Forall (λ ev, job_event ev = true) evs →
  m !! pid = Some d →
  replay evs m !! pid = Some (apply_writes pid evs d).
Proof.
  intros Hevs. revert m d.
  induction Hevs as [|ev evs Hev _ IH]; intros m d Hm; [done|].
  cbn [replay apply_writes foldl]. apply IH.
  destruct ev; try done; cbn [replay_event write_to].
  rewrite lookup_alter. repeat case_decide; simplify_eq; by rewrite ?Hm.
Qed.

Lemma job_conseq {A} pid d (m : M A) (Q Q' : result A → list event → Prop) :
  job_spec pid d m Q → (∀ r evs, Q r evs → Q' r evs) → job_spec pid d m Q'.
Proof.
  intros Hm HQ w Hw. destruct (Hm w Hw) as (evs & ? & ? & ? & ?).
  exists evs. eauto.
Qed.

Lemma job_ret {A} pid d (a : A) (Q : result A → list event → Prop) :
  Q (Ok a) [] → job_spec pid d (ret a) Q.
Proof. intros HQ w Hw. exists []. cbn. by rewrite app_nil_r. Qed.

Lemma job_raise {A} pid d e (Q : result A → list event → Prop) :
  Q (Raise e) [] → job_spec pid d (raise e) Q.
Proof. intros HQ w Hw. exists []. cbn. by rewrite app_nil_r. Qed.

Lemma job_diverge {A} pid d (Q : result A → list event → Prop) :
  Q Diverge [] → job_spec pid d diverge Q.
Proof. intros HQ w Hw. exists []. cbn. by rewrite app_nil_r. Qed.

Lemma job_bind {A B} pid d (m : M A) (k : A → M B)
    (Q1 : result A → list event → Prop) (Q : result B → list event → Prop) :
  job_spec pid d m Q1 →
  (∀ a evs1, Q1 (Ok a) evs1 →
     job_spec pid (apply_writes pid evs1 d) (k a) (λ r evs2, Q r (evs1 ++ evs2))) →
  (∀ e evs1, Q1 (Raise e) evs1 → Q (Raise e) evs1) →
  (∀ evs1, Q1 Diverge evs1 → Q Diverge evs1) →
  job_spec pid d (bind m k) Q.
Proof.
  intros Hm Hk He Hd w Hw.
  destruct (Hm w Hw) as (evs1 & Hlog & Hst & Hje & HQ1).
  unfold bind. destruct (m w) as [w1 [a|e|]]; cbn [fst snd] in *.
  - assert (process_status_store w1 !! pid = Some (apply_writes pid evs1 d)) as Hw1.
    { rewrite Hst. by apply replay_job_record. }
    destruct (Hk a evs1 HQ1 w1 Hw1) as (evs2 & Hlog2 & Hst2 & Hje2 & HQ).
    exists (evs1 ++ evs2). split_and!.
    + by rewrite Hlog2, Hlog, app_assoc.
    + by rewrite Hst2, Hst, replay_app.
    + by apply Forall_app.
    + done.
  - exists evs1. eauto.
  - exists evs1. eauto.
Qed.

Lemma job_try_except {A} pid d (catches : exn → bool) (body : M A) (handler : exn → M A)
    (Q1 Q : result A → list event → Prop) :
  job_spec pid d body Q1 →
  (∀ e evs1, Q1 (Raise e) evs1 → catches e = true →
     job_spec pid (apply_writes pid evs1 d) (handler e) (λ r evs2, Q r (evs1 ++ evs2))) →
  (∀ e evs1, Q1 (Raise e) evs1 → catches e = false → Q (Raise e) evs1) →
  (∀ a evs1, Q1 (Ok a) evs1 → Q (Ok a) evs1) →
  (∀ evs1, Q1 Diverge evs1 → Q Diverge evs1) →
  job_spec pid d (try_except catches body handler) Q.
Proof.
  intros Hm Hh He Ha Hd w Hw.
  destruct (Hm w Hw) as (evs1 & Hlog & Hst & Hje & HQ1).
  unfold try_except. destruct (body w) as [w1 [a|e|]]; cbn [fst snd] in *.
  - exists evs1. eauto.
  - destruct (catches e) eqn:Hc.
    + assert (process_status_store w1 !! pid = Some (apply_writes pid evs1 d)) as Hw1.
      { rewrite Hst. by apply replay_job_record. }
      destruct (Hh e evs1 HQ1 Hc w1 Hw1) as (evs2 & Hlog2 & Hst2 & Hje2 & HQ).
      exists (evs1 ++ evs2). split_and!.
      * by rewrite Hlog2, Hlog, app_assoc.
      * by rewrite Hst2, Hst, replay_app.
      * by apply Forall_app.
      * done.
    + exists evs1. eauto.
  - exists evs1. eauto.
Qed.

(** The primitives. *)

Lemma job_store_set pid d key v (Q : result unit → list event → Prop) :
  Q (Ok tt) [EvWrite pid key v] → job_spec pid d (store_set pid key v) Q.
Proof.
  intros HQ w Hw. exists [EvWrite pid key v]. unfold store_set. rewrite Hw. cbn.
  split_and!; [done| |by repeat constructor|done].
  apply map_eq. intros j. rewrite lookup_alter, lookup_insert.
  repeat case_decide; simplify_eq; by rewrite ?Hw.
Qed.

Lemma job_store_extend_results pid d l page_results (Q : result unit → list event → Prop) :
  d !! "results" = Some (VResults l) →
  Q (Ok tt) [EvWrite pid "results" (VResults (l ++ page_results))] →
  job_spec pid d (store_extend_results pid page_results) Q.
Proof.
  intros Hd HQ w Hw. exists [EvWrite pid "results" (VResults (l ++ page_results))].
  unfold store_extend_results. rewrite Hw, Hd. cbn.
  split_and!; [done| |by repeat constructor|done].
  apply map_eq. intros j. rewrite lookup_alter, lookup_insert.
  repeat case_decide; simplify_eq; by rewrite ?Hw.
Qed.

Lemma job_time_sleep pid d t (Q : result unit → list event → Prop) :
  Q (Ok tt) [EvSleep t] → job_spec pid d (time_sleep t) Q.
Proof. intros HQ w Hw. exists [EvSleep t]. cbn. split_and!; by repeat constructor. Qed.

Lemma job_requests_get_json pid d url headers (Q : result status_response → list event → Prop) :
  (∀ out, Q (match out with inl e => Raise e | inr r => Ok r end) [EvGet url headers out]) →
  job_spec pid d (requests_get_json url headers) Q.
Proof.
  intros HQ w Hw. unfold requests_get_json.
  destruct (http_get_status (ext w) url headers) as [x out].
  exists [EvGet url headers out]. specialize (HQ out).
  destruct out; cbn; split_and!; by repeat constructor.
Qed.

Lemma job_transkribus_login pid d username password
    (Q : result (option pystr) → list event → Prop) :
  (∀ out, Q (match out with inl e => Raise e | inr r => Ok r end)
            [EvLogin username password out]) →
  job_spec pid d (transkribus_login username password) Q.
Proof.
  intros HQ w Hw. unfold transkribus_login.
  destruct (http_post_token (ext w) username password) as [x out].
  exists [EvLogin username password out]. specialize (HQ out).
  destruct out; cbn; split_and!; by repeat constructor.
Qed.

Lemma job_start_recognition_process pid d access_token image_data model_id
    (Q : result (pystr * headers_t) → list event → Prop) :
  (∀ out, Q (match out with
             | inl e => Raise e
             | inr p => Ok (p, auth_headers access_token)
             end)
            [EvSubmit (auth_headers access_token) image_data model_id out]) →
  job_spec pid d (start_recognition_process access_token image_data model_id) Q.
Proof.
  intros HQ w Hw. unfold start_recognition_process.
  destruct (http_post_process (ext w) _ image_data model_id) as [x out].
  exists [EvSubmit (auth_headers access_token) image_data model_id out].
  specialize (HQ out). destruct out; cbn; split_and!; by repeat constructor.
Qed.

Lemma job_call {A} pid d (out : exn + A) (Q : result A → list event → Prop) :
  Q (match out with inl e => Raise e | inr a => Ok a end) [] →
  job_spec pid d (call out) Q.
Proof. destruct out; [apply job_raise|apply job_ret]. Qed.

Lemma job_index {A} pid d (xs : list A) i (Q : result A → list event → Prop) :
  Q (match xs !! i with
     | Some x => Ok x
     | None => Raise (IndexError (py "list index out of range"))
     end) [] →
  job_spec pid d (index xs i) Q.
Proof. unfold index. destruct (xs !! i); [apply job_ret|apply job_raise]. Qed.

(** Steps of straight-line code. *)

Lemma job_bind_ret {A B} pid d (a : A) (k : A → M B) (Q : result B → list event → Prop) :
  job_spec pid d (k a) Q → job_spec pid d (bind (ret a) k) Q.
Proof. intros Hk w Hw. apply (Hk w Hw). Qed.

Lemma job_bind_raise {A B} pid d e (k : A → M B) (Q : result B → list event → Prop) :
  Q (Raise e) [] → job_spec pid d (bind (raise e) k) Q.
Proof. intros HQ. apply (job_raise pid d e Q HQ). Qed.

Lemma apply_writes_own pid key v d :
  apply_writes pid [EvWrite pid key v] d = <[key := v]> d.
Proof. cbn. by rewrite decide_True. Qed.

Lemma job_bind_store_set {B} pid d key v (k : unit → M B)
    (Q : result B → list event → Prop) :
  job_spec pid (<[key := v]> d) (k tt) (λ r evs, Q r (EvWrite pid key v :: evs)) →
  job_spec pid d (bind (store_set pid key v) k) Q.
Proof.
  intros Hk.
  eapply job_bind with (Q1 := λ r evs, r = Ok tt ∧ evs = [EvWrite pid key v]).
  - by apply job_store_set.
  - intros [] evs1 [_ ->]. by rewrite apply_writes_own.
  - by intros e evs1 [? _].
  - by intros evs1 [? _].
Qed.

Lemma job_bind_call {A B} pid d (out : exn + A) (k : A → M B)
    (Q : result B → list event → Prop) :
  match out with
  | inl e => Q (Raise e) []
  | inr a => job_spec pid d (k a) Q
  end →
  job_spec pid d (bind (call out) k) Q.
Proof. destruct out; [apply job_bind_raise|apply job_bind_ret]. Qed.

Lemma job_bind_index {A B} pid d (xs : list A) i (k : A → M B)
    (Q : result B → list event → Prop) :
  match xs !! i with
  | Some x => job_spec pid d (k x) Q
  | None => Q (Raise (IndexError (py "list index out of range"))) []
  end →
  job_spec pid d (bind (index xs i) k) Q.
Proof. unfold index. destruct (xs !! i); [apply job_bind_ret|apply job_bind_raise]. Qed.

End WithEnv.
End JobLogic.

(** ** views.py: the polling loop *)

Module PollFacts.
Import Transkribus Views JobLogic.

(** Closes goals [Forall (writes_within pid keys) evs] for a trace built
    from known parts and explicit writes. *)
Ltac within :=
  repeat match goal with
  | |- Forall _ [] => apply Forall_nil_2
  | |- Forall _ (_ :: _) => apply Forall_cons_2
  | |- Forall _ (_ ++ _) => apply Forall_app_2
  | |- Forall _ _ => assumption
  | |- writes_within _ _ (EvWrite _ _ _) = true =>
    cbn [writes_within]; apply bool_decide_eq_true_2;
    split; [reflexivity|unfold ocr_status_keys; set_solver]
  | |- polling_event _ (EvWrite _ _ _) = true =>
    cbn [polling_event]; apply bool_decide_eq_true_2; split; [reflexivity|set_solver]
  | |- writes_within _ _ _ = true => reflexivity
  | |- polling_event _ _ = true => reflexivity
  end.

Section WithEnv.
Context `{!Env}.

Lemma sleeps_app evs1 evs2 : sleeps (evs1 ++ evs2) = sleeps evs1 ++ sleeps evs2.
Proof. apply omap_app. Qed.

Lemma writes_of_app pid key evs1 evs2 :
  writes_of pid key (evs1 ++ evs2) = writes_of pid key evs1 ++ writes_of pid key evs2.
Proof. apply omap_app. Qed.

Lemma writes_of_own pid key v : writes_of pid key [EvWrite pid key v] = [v].
Proof. unfold writes_of. cbn. by rewrite decide_True. Qed.

Lemma written_keys_app pid evs1 evs2 :
  written_keys pid (evs1 ++ evs2) = written_keys pid evs1 ++ written_keys pid evs2.
Proof. apply omap_app. Qed.

Lemma requests_no_sleeps evs :
  Forall (λ ev, status_request ev = true) evs → sleeps evs = [].
Proof. induction 1 as [|[] ? ? ? IH]; try done. Qed.

Lemma requests_no_writes pid key evs :
  Forall (λ ev, status_request ev = true) evs → writes_of pid key evs = [].
Proof. induction 1 as [|[] ? ? ? IH]; try done. Qed.

Lemma requests_polling pid evs :
  Forall (λ ev, status_request ev = true) evs →
  Forall (λ ev, polling_event pid ev = true) evs.
Proof. intros Hevs. eapply Forall_impl; [done|]. by intros []. Qed.

Lemma requests_within pid keys evs :
  Forall (λ ev, request_event ev = true) evs →
  Forall (λ ev, writes_within pid keys ev = true) evs.
Proof. intros Hevs. eapply Forall_impl; [done|]. by intros []. Qed.

Lemma polling_within pid keys evs :
  ["status"; "transkribus_status"] ⊆ keys →
  Forall (λ ev, polling_event pid ev = true) evs →
  Forall (λ ev, writes_within pid keys ev = true) evs.
Proof.
  intros Hsub Hevs. eapply Forall_impl; [done|]. intros [] Hev; try done.
  cbn [writes_within polling_event] in *. apply bool_decide_eq_true in Hev as [-> Hk].
  apply bool_decide_eq_true. split; [done|]. by apply Hsub.
Qed.

Lemma polling_no_submissions pid evs :
  Forall (λ ev, polling_event pid ev = true) evs → submissions evs = [].
Proof. induction 1 as [|[] ? ? ? IH]; try done. Qed.

(** The status poll sends requests only, and the response it returns is
    one the provider gave for this job. *)
Lemma check_process_status_with_retry_spec pid d pid_i headers username password :
  job_spec pid d (check_process_status_with_retry pid_i headers username password)
    (λ r evs,
      Forall (λ ev, status_request ev = true) evs
      ∧ ∀ response headers', r = Ok (response, headers') →
          ∃ h, EvGet (status_url pid_i) h (inr response) ∈ evs).
Proof.
  unfold check_process_status_with_retry.
  eapply job_try_except with
    (Q1 := λ r evs, ∃ out, evs = [EvGet (status_url pid_i) headers out]
             ∧ r = match out with inl e => Raise e | inr x => Ok (x, headers) end).
  - eapply job_bind with
      (Q1 := λ r evs, ∃ out, evs = [EvGet (status_url pid_i) headers out]
               ∧ r = match out with inl e => Raise e | inr x => Ok x end).
    + apply job_requests_get_json. intros out. by exists out.
    + intros a evs1 (out & -> & Hr). apply job_ret.
      exists out. rewrite app_nil_r. split; [done|]. by destruct out; simplify_eq.
    + intros e evs1 (out & -> & Hr). exists out. by destruct out; simplify_eq.
    + intros evs1 (out & -> & Hr). by destruct out.
  - intros e evs1 (out & -> & Hr) _. case_bool_decide.
    + eapply job_bind with
        (Q1 := λ r evs, Forall (λ ev, status_request ev = true) evs).
      * apply job_transkribus_login. intros o. by repeat constructor.
      * intros token evs2 Hevs2.
        eapply job_bind with
          (Q1 := λ r evs, ∃ o, evs = [EvGet (status_url pid_i) (auth_headers token) o]
                   ∧ r = match o with inl e => Raise e | inr x => Ok x end).
        -- apply job_requests_get_json. intros o. by exists o.
        -- intros a evs3 (o & -> & Hr'). apply job_ret. rewrite app_nil_r. split.
           ++ constructor; [done|]. apply Forall_app. split; [done|]. by repeat constructor.
           ++ intros response headers' [= -> <-]. exists (auth_headers token).
              destruct o; simplify_eq. set_solver.
        -- intros e' evs3 (o & -> & Hr'). split; [|done].
           constructor; [done|]. apply Forall_app. split; [done|]. by repeat constructor.
        -- intros evs3 (o & -> & Hr'). by destruct o.
      * intros e' evs2 Hevs2. split; [|done]. by constructor.
      * intros evs2 Hevs2. split; [|done]. by constructor.
    + apply job_raise. rewrite app_nil_r. split; [by repeat constructor|done].
  - intros e evs1 (out & -> & Hr) _. split; [by repeat constructor|done].
  - intros [response headers'] evs1 (out & -> & Hr). split; [by repeat constructor|].
    intros ? ? [= <- <-]. exists headers. destruct out; simplify_eq. by left.
  - intros evs1 (out & -> & Hr). by destruct out.
Qed.

Lemma filter_is_Some_insert {A} (l : list (option A)) i x :
  l !! i = Some None →
  length (filter is_Some (<[i := Some x]> l)) = S (length (filter is_Some l)).
Proof.
  revert i. induction l as [|y l IH]; intros [|i] Hi; simplify_eq/=.
  - rewrite filter_cons_False; [done|]. by intros [? ?].
  - rewrite !filter_cons. destruct (decide (is_Some y)); cbn; by rewrite (IH i).
Qed.

Lemma filter_is_Some_pending {A} (l : list (option A)) i :
  l !! i = Some None → (length (filter is_Some l) < length l)%nat.
Proof.
  intros Hi. eapply length_filter_lt.
  - by eapply list_elem_of_lookup_2.
  - by intros [? ?].
Qed.

Lemma finished_in_mono evs evs' pid_i text :
  evs ⊆ evs' → finished_in evs pid_i text → finished_in evs' pid_i text.
Proof. intros Hsub (h & r & Hin & ? & ?). exists h, r. split; [by apply Hsub|done]. Qed.

Lemma get_process_result_finished response :
  resp_status response = Some (py "FINISHED") →
  get_process_result response =
    match resp_text response with
    | Some recognized_text => ret recognized_text
    | None => raise (KeyError (py "'content'"))
    end.
Proof.
  intros Hs. unfold get_process_result. rewrite Hs.
  rewrite bool_decide_false by (by vm_compute).
  by rewrite bool_decide_true.
Qed.

(** One page of a polling round keeps the invariant; it writes nothing
    but the two status keys and does not sleep. *)
Lemma poll_page_spec pid d username password total pids evs0 i pid_i st :
  pids !! i = Some pid_i →
  poll_inv pid total pids st evs0 →
  job_spec pid d (poll_page pid username password total i pid_i st)
    (λ r evs,
      Forall (λ ev, polling_event pid ev = true) evs
      ∧ sleeps evs = []
      ∧ ∀ st', r = Ok st' → poll_inv pid total pids st' (evs0 ++ evs)).
Proof.
  intros Hpid (Hlen & Hfc & Hw & Hlast & Hev). unfold poll_page.
  destruct (results st !! i) as [[t|]|] eqn:Hi.
  - apply job_ret. rewrite app_nil_r. split_and!; [constructor|done|].
    by intros st' [= <-].
  - eapply job_bind; [apply check_process_status_with_retry_spec|..].
    + intros [response headers'] evs1 [Hreq Hresp].
      destruct (Hresp _ _ eq_refl) as [h Hget].
      pose proof (requests_polling pid _ Hreq) as Hwithin.
      pose proof (requests_no_sleeps _ Hreq) as Hns.
      pose proof (requests_no_writes pid "status" _ Hreq) as Hnw.
      case_bool_decide as Hfin.
      * rewrite (get_process_result_finished _ Hfin).
        destruct (resp_text response) as [text|] eqn:Htext.
        -- apply job_bind_ret, job_bind_store_set, job_ret.
           split_and!.
           ++ within.
           ++ by rewrite sleeps_app, Hns.
           ++ intros st' [= <-]. split_and!; cbn [results finished_count].
              ** by rewrite length_insert.
              ** by rewrite (filter_is_Some_insert _ _ _ Hi), Hfc.
              ** by rewrite !writes_of_app, Hw, Hnw, seq_S, map_app, writes_of_own.
              ** intros <- _. rewrite (app_assoc evs0 evs1). apply last_snoc.
              ** intros j text'. destruct (decide (j = i)) as [->|Hne].
                 --- rewrite list_lookup_insert_eq by (by eapply lookup_lt_Some).
                     intros [= <-]. exists pid_i. split; [done|].
                     exists h, response. split_and!; [|done..]. set_solver.
                 --- rewrite list_lookup_insert_ne by done. intros Hj.
                     destruct (Hev j text' Hj) as (p & ? & ?). exists p. split; [done|].
                     eapply finished_in_mono; [|done]. set_solver.
        -- apply job_bind_raise. rewrite app_nil_r. by split_and!.
      * case_bool_decide as Herr.
        -- apply job_bind_store_set, job_bind_store_set, job_raise. split_and!.
           ++ within.
           ++ by rewrite sleeps_app, Hns.
           ++ done.
        -- apply job_ret. rewrite app_nil_r. split_and!; [done..|].
           intros st' [= <-]. split_and!; cbn [results finished_count].
           ++ done.
           ++ done.
           ++ by rewrite writes_of_app, Hnw, app_nil_r.
           ++ intros Hfull. pose proof (filter_is_Some_pending _ _ Hi). lia.
           ++ intros j text' Hj. destruct (Hev j text' Hj) as (p & ? & ?).
              exists p. split; [done|]. eapply finished_in_mono; [|done]. set_solver.
    + intros e evs1 [Hreq _]. split_and!; [by apply requests_polling
                                           |by apply requests_no_sleeps|done].
    + intros evs1 [Hreq _]. split_and!; [by apply requests_polling
                                         |by apply requests_no_sleeps|done].
  - apply job_raise. by split_and!.
Qed.

(** A polling round keeps the invariant. *)
Lemma poll_round_spec pid d username password total pids_all evs0 i pids st :
  (∀ j pid_j, pids !! j = Some pid_j → pids_all !! (i + j)%nat = Some pid_j) →
  poll_inv pid total pids_all st evs0 →
  job_spec pid d (poll_round pid username password total i pids st)
    (λ r evs,
      Forall (λ ev, polling_event pid ev = true) evs
      ∧ sleeps evs = []
      ∧ ∀ st', r = Ok st' → poll_inv pid total pids_all st' (evs0 ++ evs)).
Proof.
  revert d evs0 i st. induction pids as [|pid_i pids IH]; intros d evs0 i st Hpids Hinv.
  - apply job_ret. rewrite app_nil_r. split_and!; [constructor|done|].
    by intros st' [= <-].
  - cbn [poll_round]. eapply job_bind.
    + apply (poll_page_spec pid d username password total pids_all evs0 i pid_i st);
        [|done]. specialize (Hpids 0%nat pid_i eq_refl). by rewrite Nat.add_0_r in Hpids.
    + intros st1 evs1 (Hw1 & Hs1 & Hinv1). cbn beta.
      eapply job_conseq.
      * apply (IH _ (evs0 ++ evs1) (S i) st1); [|by apply Hinv1].
        intros j pid_j Hj. specialize (Hpids (S j) pid_j Hj).
        by rewrite Nat.add_succ_r in Hpids.
      * cbn beta. intros r evs2 (Hw2 & Hs2 & Hinv2). split_and!.
        -- by apply Forall_app.
        -- by rewrite sleeps_app, Hs1, Hs2.
        -- intros st' Hr. rewrite app_assoc. by apply Hinv2.
    + by intros e evs1 (? & ? & _).
    + by intros evs1 (? & ? & _).
Qed.

Lemma poll_inv_sleep pid total pids st evs t :
  (finished_count st < total)%nat →
  poll_inv pid total pids st evs → poll_inv pid total pids st (evs ++ [EvSleep t]).
Proof.
  intros Hlt (Hlen & Hfc & Hw & Hlast & Hev). split_and!; [done..| | |].
  - by rewrite writes_of_app, app_nil_r.
  - lia.
  - intros i text Hi. destruct (Hev i text Hi) as (p & ? & ?). exists p.
    split; [done|]. eapply finished_in_mono; [|done]. set_solver.
Qed.

(** The loop: its sleeps are consecutive intervals of the back-off
    schedule, and when it returns the invariant holds with every page
    finished. *)
Lemma poll_loop_spec fuel pid d username password total pids evs0 n st :
  poll_inv pid total pids st evs0 →
  job_spec pid d (poll_loop fuel pids pid username password total (backoff n) st)
    (λ r evs,
      Forall (λ ev, polling_event pid ev = true) evs
      ∧ (∃ rounds, sleeps evs = map backoff (seq n rounds))
      ∧ ∀ res, r = Ok res →
          ∃ st', res = results st' ∧ (total ≤ finished_count st')%nat
                 ∧ poll_inv pid total pids st' (evs0 ++ evs)).
Proof.
  revert d evs0 n st. induction fuel as [|fuel IH]; intros d evs0 n st Hinv;
    cbn [poll_loop]; destruct (finished_count st <? total)%nat eqn:Hlt.
  - apply job_diverge. split_and!; [constructor|by exists 0%nat|done].
  - apply job_ret. split_and!; [constructor|by exists 0%nat|].
    intros res [= <-]. exists st. rewrite app_nil_r.
    apply Nat.ltb_ge in Hlt. done.
  - apply Nat.ltb_lt in Hlt.
    eapply job_bind with (Q1 := λ r evs, r = Ok tt ∧ evs = [EvSleep (backoff n)]).
    + by apply job_time_sleep.
    + intros [] evs1 [_ ->]. cbn beta.
      eapply job_bind.
      * apply (poll_round_spec pid _ username password total pids
                 (evs0 ++ [EvSleep (backoff n)]) 0 pids st); [done|].
        by apply poll_inv_sleep.
      * intros st1 evs2 (Hw2 & Hs2 & Hinv2). cbn beta.
        eapply job_conseq.
        -- apply (IH _ ((evs0 ++ [EvSleep (backoff n)]) ++ evs2) (S n) st1).
           by apply Hinv2.
        -- cbn beta. intros r evs3 (Hw3 & [rounds Hs3] & Hres). split_and!.
           ++ constructor; [done|]. by apply Forall_app.
           ++ exists (S rounds). by rewrite !sleeps_app, Hs2, Hs3.
           ++ intros res Hr. destruct (Hres res Hr) as (st' & ? & ? & Hinv').
              exists st'. split_and!; [done..|].
              by rewrite <- !app_assoc in Hinv'.
      * intros e evs2 (Hw2 & Hs2 & _). split_and!; [by constructor| |done].
        exists 1%nat. by rewrite sleeps_app, Hs2.
      * intros evs2 (Hw2 & Hs2 & _). split_and!; [by constructor| |done].
        exists 1%nat. by rewrite sleeps_app, Hs2.
    + by intros e evs1 [? _].
    + by intros evs1 [? _].
  - apply job_ret. split_and!; [constructor|by exists 0%nat|].
    intros res [= <-]. exists st. rewrite app_nil_r.
    apply Nat.ltb_ge in Hlt. done.
Qed.

Lemma filter_is_Some_replicate {A} n :
  filter is_Some (replicate n (@None A)) = [].
Proof.
  induction n as [|n IH]; [done|]. cbn [replicate].
  rewrite filter_cons_False; [done|]. by intros [? ?].
Qed.

Lemma filter_is_Some_full {A} (l : list (option A)) :
  (length l ≤ length (filter is_Some l))%nat → Forall is_Some l.
Proof.
  induction l as [|x l IH]; [constructor|].
  rewrite filter_cons. pose proof (length_filter is_Some l).
  destruct (decide (is_Some x)); cbn [length]; intros Hlen.
  - constructor; [done|]. apply IH. lia.
  - lia.
Qed.

(** What [_poll_transkribus_jobs] does. It writes only the two status
    keys of the job's record. Its sleeps are the first intervals of the
    back-off schedule. When it returns, every page has a text, the text a
    FINISHED response for the page's own job carried; the status writes
    are the progress messages 1, ..., [total_pages] in order; and the
    write of the last of them is the last effect of the loop. *)
Lemma poll_transkribus_jobs_spec fuel pid d pids headers username password total :
  job_spec pid d
    (_poll_transkribus_jobs fuel pids headers username password pid total)
    (λ r evs,
      Forall (λ ev, polling_event pid ev = true) evs
      ∧ (∃ rounds, sleeps evs = map backoff (seq 0 rounds))
      ∧ ∀ res, r = Ok res →
          length res = total
          ∧ (∀ i, (i < total)%nat →
               ∃ pid_i text, pids !! i = Some pid_i ∧ res !! i = Some (Some text)
                             ∧ finished_in evs pid_i text)
          ∧ writes_of pid "status" evs = map (progress_write total) (seq 1 total)
          ∧ ((0 < total)%nat →
               last evs = Some (EvWrite pid "status" (progress_write total total)))).
Proof.
  unfold _poll_transkribus_jobs. eapply job_conseq.
  - apply (poll_loop_spec fuel pid d username password total pids [] 0).
    split_and!; cbn [results finished_count].
    + by rewrite length_replicate.
    + by rewrite filter_is_Some_replicate.
    + done.
    + intros <-. lia.
    + intros i text [Hi _]%lookup_replicate. done.
  - cbn beta. intros r evs (Hw & Hs & Hres). split_and!; [done..|].
    intros res Hr. destruct (Hres res Hr) as (st' & -> & Hge & Hinv).
    rewrite app_nil_l in Hinv. destruct Hinv as (Hlen & Hfc & Hwr & Hlast & Hev).
    pose proof (length_filter is_Some (results st')) as Hle.
    assert (finished_count st' = total) as Heq by lia.
    assert (Forall is_Some (results st')) as Hall.
    { apply filter_is_Some_full. lia. }
    split_and!; [done| |by rewrite <- Heq at 2|by apply Hlast].
    intros i Hi. rewrite <- Hlen in Hi.
    destruct (lookup_lt_is_Some_2 _ _ Hi) as [x Hx].
    destruct (proj1 (Forall_lookup _ _) Hall i x Hx) as [text ->].
    destruct (Hev i text Hx) as (pid_i & ? & ?). by exists pid_i, text.
Qed.

End WithEnv.
End PollFacts.

(** ** views.py: the recognition job *)

Module OcrFacts.
Import Transkribus Views JobLogic PollFacts.

Section WithEnv.
Context `{!Env}.

Lemma submissions_app evs1 evs2 :
  submissions (evs1 ++ evs2) = submissions evs1 ++ submissions evs2.
Proof. apply omap_app. Qed.

Lemma submissions_write pid key v evs :
  submissions (EvWrite pid key v :: evs) = submissions evs.
Proof. done. Qed.

Lemma within_weaken pid keys keys' evs :
  keys ⊆ keys' →
  Forall (λ ev, writes_within pid keys ev = true) evs →
  Forall (λ ev, writes_within pid keys' ev = true) evs.
Proof.
  intros Hsub Hevs. eapply Forall_impl; [done|]. intros [] Hev; try done.
  cbn [writes_within] in *. apply bool_decide_eq_true in Hev as [-> Hk].
  apply bool_decide_eq_true. split; [done|]. by apply Hsub.
Qed.

(** The submission loop sends one request per image, in order, and
    collects the identifiers it is given in the same order. *)
Lemma submit_images_spec pid d access_token model_id images pids headers :
  job_spec pid d (submit_images access_token model_id images pids headers)
    (λ r evs,
      Forall (λ ev, request_event ev = true) evs
      ∧ ∀ pids' headers', r = Ok (pids', headers') →
          ∃ new, pids' = pids ++ new ∧ submissions evs = zip images new
                 ∧ length new = length images).
Proof.
  revert d pids headers. induction images as [|image images IH]; intros d pids headers;
    cbn [submit_images].
  - apply job_ret. split; [constructor|]. intros ? ? [= <- <-].
    exists []. by rewrite app_nil_r.
  - eapply job_bind with
      (Q1 := λ r evs, ∃ out,
               evs = [EvSubmit (auth_headers access_token) image model_id out]
               ∧ r = match out with
                     | inl e => Raise e
                     | inr p => Ok (p, auth_headers access_token)
                     end).
    + apply job_start_recognition_process. intros out. by exists out.
    + intros [p h] evs1 (out & -> & Hr). destruct out as [|p']; simplify_eq.
      eapply job_conseq; [apply IH|]. cbn beta.
      intros r evs2 [Hreq Hres]. split; [by constructor|].
      intros pids' headers' Hr. destruct (Hres _ _ Hr) as (new & -> & Hsub & Hlen).
      exists (p' :: new). rewrite <- app_assoc. split_and!; [done| |by cbn; rewrite Hlen].
      by rewrite submissions_app, Hsub.
    + intros e evs1 (out & -> & Hr). split; [by repeat constructor|done].
    + intros evs1 (out & -> & Hr). by destruct out.
Qed.

Lemma start_transkribus_jobs_spec pid d images model_id mode :
  job_spec pid d (_start_transkribus_jobs images model_id mode)
    (λ r evs,
      Forall (λ ev, request_event ev = true) evs
      ∧ ∀ pids headers username password, r = Ok (pids, headers, username, password) →
          submissions evs = zip images pids ∧ length pids = length images).
Proof.
  unfold _start_transkribus_jobs.
  eapply job_bind with (Q1 := λ r evs, Forall (λ ev, request_event ev = true) evs
                                       ∧ submissions evs = []).
  - apply job_transkribus_login. intros out. split; [by repeat constructor|done].
  - intros token evs1 [Hreq1 Hsub1]. eapply job_bind; [apply submit_images_spec|..].
    + intros [pids headers] evs2 [Hreq2 Hres]. apply job_ret. rewrite app_nil_r.
      split; [by apply Forall_app|]. intros ? ? ? ? [= <- <- <- <-].
      destruct (Hres _ _ eq_refl) as (new & -> & Hsub & Hlen).
      by rewrite submissions_app, Hsub1.
    + intros e evs2 [Hreq2 _]. split; [by apply Forall_app|done].
    + intros evs2 [Hreq2 _]. split; [by apply Forall_app|done].
  - by intros e evs1 [? _].
  - by intros evs1 [? _].
Qed.

(** The slot of call [i] holds the outcome of call [i], whatever the
    order of completion. *)
Lemma run_futures_lookup {A} (tasks : list (exn + A)) (schedule : list nat) i slot :
  run_futures tasks schedule !! i = Some (Some slot) → tasks !! i = Some slot.
Proof.
  unfold run_futures.
  assert (∀ slots : list (option (exn + A)),
            (∀ j s, slots !! j = Some (Some s) → tasks !! j = Some s) →
            foldl (λ slots i, match tasks !! i with
                              | Some out => <[i := Some out]> slots
                              | None => slots
                              end) slots schedule !! i = Some (Some slot) →
            tasks !! i = Some slot) as Hgen.
  { induction schedule as [|k schedule IH]; intros slots Hslots; cbn [foldl].
    - apply Hslots.
    - apply IH. destruct (tasks !! k) as [out|] eqn:Hk; [|done].
      intros j s. destruct (decide (j = k)) as [->|Hne].
      + destruct (decide (k < length slots)%nat) as [Hlt|Hge].
        * rewrite list_lookup_insert_eq by done. intros Hj. by simplify_eq.
        * rewrite list_insert_ge by lia. apply Hslots.
      + rewrite list_lookup_insert_ne by done. apply Hslots. }
  apply Hgen. intros j s [? _]%lookup_replicate. done.
Qed.

Lemma run_futures_length {A} (tasks : list (exn + A)) (schedule : list nat) :
  length (run_futures tasks schedule) = length tasks.
Proof.
  unfold run_futures.
  assert (∀ slots : list (option (exn + A)),
            length (foldl (λ slots i, match tasks !! i with
                                      | Some out => <[i := Some out]> slots
                                      | None => slots
                                      end) slots schedule) = length slots) as Hgen.
  { induction schedule as [|k schedule IH]; intros slots; cbn [foldl]; [done|].
    rewrite IH. destruct (tasks !! k); [apply length_insert|done]. }
  by rewrite Hgen, length_replicate.
Qed.

(** Collecting the results touches nothing, and succeeds only when every
    call has completed with a value. *)
Lemma collect_results_spec {A} pid d (futures : list (option (exn + A))) :
  job_spec pid d (collect_results futures)
    (λ r evs, evs = [] ∧ ∀ xs, r = Ok xs → futures = map (λ x, Some (inr x)) xs).
Proof.
  revert d. induction futures as [|future futures IH]; intros d; cbn [collect_results].
  - apply job_ret. split; [done|]. by intros xs [= <-].
  - destruct future as [[e|x]|]; cbn [future_result call].
    + by apply job_bind_raise.
    + apply job_bind_ret. eapply job_bind; [apply IH|..].
      * intros xs evs1 [-> Hxs]. apply job_ret. split; [done|].
        intros ? [= <-]. cbn. by rewrite <- (Hxs xs).
      * by intros e evs1 [-> _].
      * by intros evs1 [-> _].
    + apply (job_diverge pid d). by split.
Qed.

(** The merge loop touches nothing and appends, for every index, the
    entry made of that index and the texts at that index. *)
Lemma merge_pages_spec pid d images htr_results mllm_results model temperature mode
    indices acc :
  job_spec pid d
    (merge_pages images htr_results mllm_results model temperature mode indices acc)
    (λ r evs,
      evs = [] ∧ ∀ page_results, r = Ok page_results →
        ∃ new, page_results = acc ++ new
          ∧ Forall2 (λ i entry, ∃ htr mllm image merged,
                       htr_results !! i = Some htr ∧ mllm_results !! i = Some mllm
                       ∧ images !! i = Some image
                       ∧ get_merged_atr_mllm_result model htr mllm image temperature mode
                         = inr merged
                       ∧ entry = PageResult i merged htr mllm) indices new).
Proof.
  revert d acc. induction indices as [|i indices IH]; intros d acc; cbn [merge_pages].
  - apply job_ret. split; [done|]. intros ? [= <-]. exists []. by rewrite app_nil_r.
  - apply job_bind_index. destruct (htr_results !! i) as [htr|] eqn:Hhtr; [|done].
    apply job_bind_index. destruct (mllm_results !! i) as [mllm|] eqn:Hmllm; [|done].
    apply job_bind_index. destruct (images !! i) as [image|] eqn:Himage; [|done].
    apply job_bind_call.
    destruct (get_merged_atr_mllm_result model htr mllm image temperature mode)
      as [e|merged] eqn:Hmerged; [done|].
    eapply job_conseq; [apply IH|]. cbn beta. intros r evs [-> Hres]. split; [done|].
    intros page_results Hr. destruct (Hres _ Hr) as (new & -> & Hnew).
    exists (PageResult i merged htr mllm :: new). rewrite <- app_assoc. split; [done|].
    constructor; [|done]. by exists htr, mllm, image, merged.
Qed.

Lemma merge_page_results_spec pid d images htr_results mllm_results model temperature mode :
  job_spec pid d
    (_merge_page_results images htr_results mllm_results model temperature mode pid)
    (λ r evs,
      evs = [EvWrite pid "status"
               (VStr (py "Ergebnisse für alle Seiten werden zusammengeführt..."))]
      ∧ ∀ page_results, r = Ok page_results →
          length page_results = length images
          ∧ ∀ i, (i < length images)%nat →
              ∃ htr mllm image merged,
                htr_results !! i = Some htr ∧ mllm_results !! i = Some mllm
                ∧ images !! i = Some image
                ∧ get_merged_atr_mllm_result model htr mllm image temperature mode
                  = inr merged
                ∧ page_results !! i = Some (PageResult i merged htr mllm)).
Proof.
  unfold _merge_page_results. apply job_bind_store_set.
  eapply job_conseq; [apply merge_pages_spec|]. cbn beta.
  intros r evs [-> Hres]. split; [done|]. intros page_results Hr.
  destruct (Hres _ Hr) as (new & -> & Hnew). rewrite app_nil_l.
  pose proof (Forall2_length _ _ _ Hnew) as Hlen. rewrite length_seq in Hlen.
  split; [done|]. intros i Hi.
  destruct (lookup_lt_is_Some_2 new i) as [entry Hentry]; [lia|].
  assert (seq 0 (length images) !! i = Some i) as Hseq by by apply lookup_seq_lt.
  destruct (Forall2_lookup_lr _ _ _ _ _ _ Hnew Hseq Hentry)
    as (htr & mllm & image & merged & ? & ? & ? & ? & ->).
  by exists htr, mllm, image, merged.
Qed.

Lemma job_with_executor {A B} pid d max_workers (tasks : list (exn + A)) schedule
    (body : list (option (exn + A)) → M B) (Q1 Q : result B → list event → Prop) :
  job_spec pid d (body (run_futures tasks schedule)) Q1 →
  Q (Raise (ValueError (py "max_workers must be greater than 0"))) [] →
  (∀ r evs, Q1 r evs → Q r evs) →
  (∀ r evs, Q1 r evs → Q Diverge evs) →
  job_spec pid d (with_executor max_workers tasks schedule body) Q.
Proof.
  intros Hbody Hzero Hsame Hdiv. unfold with_executor.
  destruct (max_workers =? 0)%nat; [by apply job_raise|].
  intros w Hw. destruct (Hbody w Hw) as (evs & Hlog & Hst & Hje & HQ1).
  exists evs. destruct (body (run_futures tasks schedule) w) as [w' r].
  cbn [fst snd] in *.
  destruct r; [| |by eauto];
    destruct (forallb _ _); cbn [fst snd]; eauto 10.
Qed.

Lemma apply_writes_other_key pid keys key evs d :
  Forall (λ ev, writes_within pid keys ev = true) evs →
  key ∉ keys →
  apply_writes pid evs d !! key = d !! key.
Proof.
  intros Hevs Hkey. revert d. induction Hevs as [|ev evs Hev _ IH]; intros d; [done|].
  cbn [apply_writes foldl]. fold (apply_writes pid evs (write_to pid d ev)).
  rewrite IH. destruct ev; try done. cbn [write_to writes_within] in *.
  apply bool_decide_eq_true in Hev as [-> Hk]. rewrite decide_True by done.
  apply lookup_insert_ne. by intros ->.
Qed.

(** The body of [process_ocr]. Run to its end it has the trace described
    by [ocr_completed]; ended by an exception, or not ended, it has
    written status keys only. *)
Lemma process_ocr_body_spec fuel schedule job d :
  ocr_total_pages job = length (ocr_images_base64 job) →
  d !! "results" = Some (VResults []) →
  job_spec (ocr_process_id job) d (process_ocr_body fuel schedule job)
    (λ r evs,
      match r with
      | Ok _ => ∃ page_results, ocr_completed job evs page_results
      | _ => Forall (λ ev, writes_within (ocr_process_id job) ocr_status_keys ev = true) evs
      end).
Proof.
  intros Htotal Hresults. unfold process_ocr_body.
  set (pid := ocr_process_id job). set (images := ocr_images_base64 job).
  rewrite Htotal. fold images.
  set (tasks := map _ images).
  assert (["status"; "transkribus_status"] ⊆ ocr_status_keys) as Hkeys by set_solver.
  apply job_bind_store_set.
  eapply job_bind; [apply start_transkribus_jobs_spec|..]; cbn beta.
  2: { intros e evsB [HreqB _]. pose proof (requests_within pid ocr_status_keys _ HreqB).
       within. }
  2: { intros evsB [HreqB _]. pose proof (requests_within pid ocr_status_keys _ HreqB).
       within. }
  intros [[[pids headers] username] password] evsB [HreqB HresB].
  destruct (HresB _ _ _ _ eq_refl) as [Hsub Hlen].
  pose proof (requests_within pid ocr_status_keys _ HreqB) as HwB.
  apply job_bind_store_set, job_bind_store_set.
  eapply job_bind with
    (Q1 := λ r evs,
       Forall (λ ev, writes_within pid ocr_status_keys ev = true) evs
       ∧ submissions evs = []
       ∧ ∀ htr mllm, r = Ok (htr, mllm) →
           length htr = length images
           ∧ (∀ i, (i < length images)%nat →
                ∃ pid_i text, pids !! i = Some pid_i ∧ htr !! i = Some (Some text)
                              ∧ finished_in evs pid_i text)
           ∧ run_futures tasks schedule = map (λ x, Some (inr x)) mllm); cbn beta.
  - eapply job_with_executor; [| |intros r evs HQ; exact HQ|]; cbn beta.
    + eapply job_bind; [apply poll_transkribus_jobs_spec|..]; cbn beta.
      * intros htr evsP (HwP & _ & HresP).
        destruct (HresP _ eq_refl) as (HlenP & HevP & _).
        pose proof (polling_within _ _ _ Hkeys HwP) as HwP'.
        pose proof (polling_no_submissions _ _ HwP) as HsP.
        apply job_bind_store_set. eapply job_bind; [apply collect_results_spec|..].
        -- intros mllm evsC [-> Hfut]. apply job_ret. split_and!.
           ++ within.
           ++ by rewrite submissions_app, HsP.
           ++ intros ? ? [= <- <-]. split_and!; [done| |by apply Hfut].
              intros i Hi. destruct (HevP i Hi) as (pid_i & text & ? & ? & ?).
              exists pid_i, text. split_and!; [done..|].
              eapply finished_in_mono; [|done]. set_solver.
        -- intros e evsC [-> _]. split_and!; [within|by rewrite submissions_app, HsP|done].
        -- intros evsC [-> _]. split_and!; [within|by rewrite submissions_app, HsP|done].
      * intros e evsP (HwP & _ & _). split_and!;
          [by eapply polling_within|by eapply polling_no_submissions|done].
      * intros evsP (HwP & _ & _). split_and!;
          [by eapply polling_within|by eapply polling_no_submissions|done].
    + by split_and!.
    + intros r evs (? & ? & _). by split_and!.
  - intros [htr mllm] evsD (HwD & HsD & HresD).
    destruct (HresD _ _ eq_refl) as (HlenD & HevD & Hfut).
    apply job_bind_store_set, job_bind_store_set.
    eapply job_bind; [apply merge_page_results_spec|..]; cbn beta.
    + intros page_results evsF [-> HresF].
      destruct (HresF _ eq_refl) as [HlenF HevF].
      eapply job_bind with
        (Q1 := λ r evs, r = Ok tt ∧ evs = [EvWrite pid "results" (VResults page_results)]).
      * eapply (job_store_extend_results pid _ []); [|done].
        rewrite apply_writes_own, !lookup_insert_ne by done.
        rewrite (apply_writes_other_key pid ocr_status_keys) by (done || set_solver).
        rewrite !lookup_insert_ne by done.
        rewrite (apply_writes_other_key pid ocr_status_keys) by (done || set_solver).
        by rewrite lookup_insert_ne.
      * intros [] evsR [_ ->]. apply job_bind_store_set, job_bind_store_set, job_store_set.
        exists page_results, pids,
          (EvWrite pid "status"
             (VStr (py "Texterkennung für " ++ str_nat (length images)
                    ++ py " Seite(n) wird gestartet...")) ::
           evsB ++
           EvWrite pid "status"
             (VStr (py "Texterkennung für alle " ++ str_nat (length images)
                    ++ py " Seite(n) läuft parallel...")) ::
           EvWrite pid "transkribus_status" (VStr (py "RUNNING")) ::
           evsD ++
           [EvWrite pid "transkribus_status" (VStr (py "FINISHED"));
            EvWrite pid "mllm_status" (VStr (py "FINISHED"));
            EvWrite pid "status"
              (VStr (py "Ergebnisse für alle Seiten werden zusammengeführt..."))]).
        split_and!.
        -- cbn [app]. rewrite <- !app_assoc. cbn [app]. rewrite <- !app_assoc.
           reflexivity.
        -- within.
        -- rewrite submissions_write, submissions_app, Hsub, !submissions_write,
             submissions_app, HsD, !submissions_write. by rewrite !app_nil_r.
        -- done.
        -- done.
        -- intros i Hi.
           destruct (HevF i Hi) as (htr_i & mllm_i & image & merged & Hh & Hm & Him & Hmerged & Hentry).
           destruct (HevD i Hi) as (pid_i & text & Hpid & Hhtr & Hfin).
           exists (PageResult i merged htr_i mllm_i). split; [done|].
           rewrite Hhtr in Hh. injection Hh as <-.
           exists image, pid_i, text, mllm_i, merged. split_and!; [done|done| |  |done|done].
           ++ eapply finished_in_mono; [|done]. set_solver.
           ++ assert (tasks !! i = Some (inr mllm_i)) as Htask.
              { apply (run_futures_lookup tasks schedule). rewrite Hfut.
                by rewrite list_lookup_fmap, Hm. }
              unfold tasks in Htask. rewrite list_lookup_fmap, Him in Htask.
              by injection Htask.
      * intros e evsR [? _]. done.
      * intros evsR [? _]. done.
    + intros e evsF [-> _]. within.
    + intros evsF [-> _]. within.
  - intros e evsD (HwD & _ & _). within.
  - intros evsD (HwD & _ & _). within.
Qed.

End WithEnv.
End OcrFacts.

(** ** views.py: the background jobs and what a reader can observe *)

Module JobFacts.
Import Processing Transkribus Views Sim JobLogic PollFacts OcrFacts.

Section WithEnv.
Context `{!Env}.

(** [process_ocr] never raises: it ends with the results stored, or with
    the error recorded, and until then has written status keys only. *)
Lemma process_ocr_spec fuel schedule job d :
  ocr_total_pages job = length (ocr_images_base64 job) →
  d !! "results" = Some (VResults []) →
  job_spec (ocr_process_id job) d (process_ocr fuel schedule job)
    (λ r evs,
      match r with
      | Ok _ => (∃ page_results, ocr_completed job evs page_results)
                ∨ (∃ e, ocr_failed job evs e)
      | Raise _ => False
      | Diverge =>
        Forall (λ ev, writes_within (ocr_process_id job) ocr_status_keys ev = true) evs
      end).
Proof.
  intros Htotal Hresults. unfold process_ocr.
  eapply job_try_except; [by apply process_ocr_body_spec|..]; cbn beta.
  - intros e evs1 Hbody _. apply job_bind_store_set, job_store_set.
    right. exists e, evs1. done.
  - done.
  - intros a evs1 Hbody. by left.
  - done.
Qed.

(** The two traces of [process_tei]. *)
Lemma process_tei_spec job d :
  job_spec (tei_process_id job) d (process_tei job)
    (λ r evs,
      r = Ok tt
      ∧ ((∃ result_tei content,
            evs = [tei_started (tei_process_id job);
                   EvWrite (tei_process_id job) "status"
                     (VStr (py "Verarbeitung abgeschlossen"));
                   EvWrite (tei_process_id job) "tei_status" (VStr (py "FINISHED"));
                   EvWrite (tei_process_id job) "result_tei" (VStr result_tei);
                   EvWrite (tei_process_id job) "result_text_content_only"
                     (VStr content)])
         ∨ (∃ e, evs = tei_started (tei_process_id job)
                       :: tei_failure_writes (tei_process_id job) e))).
Proof.
  unfold process_tei. set (pid := tei_process_id job).
  eapply job_try_except with
    (Q1 := λ r evs,
       match r with
       | Ok _ => ∃ result_tei content,
           evs = [tei_started pid;
                  EvWrite pid "status" (VStr (py "Verarbeitung abgeschlossen"));
                  EvWrite pid "tei_status" (VStr (py "FINISHED"));
                  EvWrite pid "result_tei" (VStr result_tei);
                  EvWrite pid "result_text_content_only" (VStr content)]
       | Raise _ => evs = [tei_started pid]
       | Diverge => False
       end); cbn beta.
  - unfold process_tei_body. fold pid. apply job_bind_store_set.
    assert (∀ image_data d',
      job_spec pid d'
        (let* result_tei :=
           call (get_tei_from_mllm (tei_multimodal_llm job) image_data
                   (tei_merged_text job) (tei_chosen_prompt job)
                   (tei_custom_prompt_text job) (tei_temperature job) (tei_mode job)) in
         let result_tei := remove_first_empty_line result_tei in
         let result_text_content_only :=
           remove_first_empty_line
             (remove_specific_string
                (strip_lines (remove_empty_lines (remove_accent (remove_xml_tags result_tei))))
                default_string_to_remove) in
         let* _ := store_set pid "status" (VStr (py "Verarbeitung abgeschlossen")) in
         let* _ := store_set pid "tei_status" (VStr (py "FINISHED")) in
         let* _ := store_set pid "result_tei" (VStr result_tei) in
         store_set pid "result_text_content_only" (VStr result_text_content_only))
        (λ r evs,
           match r with
           | Ok _ => ∃ result_tei content,
               tei_started pid :: evs
               = [tei_started pid;
                  EvWrite pid "status" (VStr (py "Verarbeitung abgeschlossen"));
                  EvWrite pid "tei_status" (VStr (py "FINISHED"));
                  EvWrite pid "result_tei" (VStr result_tei);
                  EvWrite pid "result_text_content_only" (VStr content)]
           | Raise _ => tei_started pid :: evs = [tei_started pid]
           | Diverge => False
           end)) as Hrest.
    { intros image_data d'. apply job_bind_call.
      destruct (get_tei_from_mllm _ _ _ _ _ _ _) as [e|result_tei]; [done|].
      cbv zeta. apply job_bind_store_set, job_bind_store_set, job_bind_store_set,
        job_store_set. by eexists _, _. }
    destruct (tei_is_multipage job).
    + apply job_bind_ret, Hrest.
    + eapply job_bind with (Q1 := λ r evs, evs = [] ∧ r ≠ Diverge).
      * apply job_bind_index. destruct (_ !! _); [apply job_ret|]; done.
      * intros image evs1 [-> _]. cbn [app]. apply Hrest.
      * intros e evs1 [-> _]. done.
      * intros evs1 [_ ?]. done.
  - intros e evs1 -> _. apply job_bind_store_set, job_bind_store_set, job_store_set.
    split; [done|]. right. by exists e.
  - done.
  - intros [] evs1 Hbody. split; [done|]. by left.
  - done.
Qed.

Lemma mutations_after_error_within pid keys evs rest :
  Forall (λ ev, writes_within pid keys ev = true) evs →
  "error" ∉ keys →
  mutations_after_error pid (evs ++ rest) = mutations_after_error pid rest.
Proof.
  intros Hevs Hkey. induction Hevs as [|ev evs Hev _ IH]; [done|].
  cbn [app mutations_after_error]. destruct ev; try done.
  cbn [writes_within] in Hev. apply bool_decide_eq_true in Hev as [-> Hk].
  rewrite decide_False; [done|]. intros [_ ->]. done.
Qed.

Lemma mutations_after_error_none pid keys evs :
  Forall (λ ev, writes_within pid keys ev = true) evs →
  "error" ∉ keys →
  mutations_after_error pid evs = None.
Proof.
  intros Hevs Hkey. rewrite <- (app_nil_r evs).
  by rewrite (mutations_after_error_within pid keys).
Qed.

End WithEnv.
End JobFacts.

(** ** The recognition and annotation jobs: the stated properties *)

Module JobClaims.
Import Processing Transkribus Views Sim JobLogic PollFacts OcrFacts JobFacts StoreFacts.

Section WithEnv.
Context `{!Env}.




(** Once every page is finished the loop does nothing more, whatever
    fuel is left. *)
Lemma poll_loop_stops (w : world) fuel process_ids process_id username password
    total_pages poll_interval st :
  (total_pages ≤ finished_count st)%nat →
  poll_loop fuel process_ids process_id username password total_pages poll_interval st w
  = (w, Ok (results st)).
Proof.
  intros Hge. destruct fuel; cbn [poll_loop];
    by rewrite (proj2 (Nat.ltb_ge _ _) Hge).
Qed.

Lemma mutations_after_error_failed pid body_evs s v :
  Forall (λ ev, writes_within pid ocr_status_keys ev = true) body_evs →
  mutations_after_error pid (body_evs ++ [EvWrite pid "status" s; EvWrite pid "error" v])
  = Some [].
Proof.
  intros Hbody. rewrite (mutations_after_error_within pid ocr_status_keys)
    by (done || set_solver).
  cbn [mutations_after_error]. rewrite decide_False by (by intros [_ ?]).
  by rewrite decide_True.
Qed.

(** C3, amended. For a recognition job the write of [error] is the last
    mutation of the record by the job. For an annotation job the write of
    [error] is followed by exactly one more mutation of the record, which
    sets [tei_status] to ERROR. A status query mutates nothing. *)
Theorem error_write_then_at_most_tei_status :
  (∀ (w : world) fuel schedule job d,
     process_status_store w !! ocr_process_id job = Some d →
     ocr_total_pages job = length (ocr_images_base64 job) →
     d !! "results" = Some (VResults []) →
     ∃ evs, log (process_ocr fuel schedule job w).1 = log w ++ evs
       ∧ (mutations_after_error (ocr_process_id job) evs = None
          ∨ mutations_after_error (ocr_process_id job) evs = Some []))
  ∧ (∀ (w : world) job d,
       process_status_store w !! tei_process_id job = Some d →
       ∃ evs, log (process_tei job w).1 = log w ++ evs
         ∧ (mutations_after_error (tei_process_id job) evs = None
            ∨ mutations_after_error (tei_process_id job) evs
              = Some [EvWrite (tei_process_id job) "tei_status" (VStr (py "ERROR"))]))
  ∧ (∀ request (w : world), (check_status request w).1 = w).
Proof.
  split_and!.
  - intros w fuel schedule job d Hw Htotal Hresults.
    destruct (process_ocr_spec fuel schedule job d Htotal Hresults w Hw)
      as (evs & Hlog & _ & _ & HQ).
    exists evs. split; [done|].
    destruct ((process_ocr fuel schedule job w).2) as [[]| |]; [|done|].
    + destruct HQ as [[prs (pids & evs_before & -> & Hbefore & _)]|[e (body & -> & Hbody)]].
      * left. rewrite (mutations_after_error_within _ ocr_status_keys)
          by (done || set_solver).
        cbn [mutations_after_error]. by rewrite !decide_False by (by intros [_ ?]).
      * right. by apply mutations_after_error_failed.
    + left. apply (mutations_after_error_none _ ocr_status_keys); [done|set_solver].
  - intros w job d Hw.
    destruct (process_tei_spec job d w Hw) as (evs & Hlog & _ & _ & _ & HQ).
    exists evs. split; [done|].
    destruct HQ as [(result_tei & content & ->)|[e ->]].
    + left. unfold tei_started. cbn [mutations_after_error].
      by rewrite !decide_False by (by intros [_ ?]).
    + right. unfold tei_started, tei_failure_writes. cbn [mutations_after_error].
      rewrite !decide_False by (by intros [_ ?]). rewrite decide_True by done.
      cbn [List.filter is_write_to]. by rewrite bool_decide_true.
  - intros request w. unfold check_status. destruct (pystr_eqb _ _); [|done].
    by destruct (_ ≫= _).
Qed.

Lemma apply_writes_cons pid ev evs d :
  apply_writes pid (ev :: evs) d = apply_writes pid evs (write_to pid d ev).
Proof. done. Qed.

Lemma apply_writes_unwritten pid key evs d :
  writes_of pid key evs = [] → apply_writes pid evs d !! key = d !! key.
Proof.
  revert d. induction evs as [|ev evs IH]; intros d Hw; [done|].
  rewrite apply_writes_cons. unfold writes_of in Hw. cbn [omap list_omap] in Hw.
  fold (writes_of pid key evs) in Hw.
  destruct ev; try (by rewrite IH). cbn [write_to].
  destruct (decide (process_id = pid ∧ key0 = key)) as [[-> ->]|Hne]; [done|].
  rewrite IH by done. case_decide as Hp; [|done]. subst.
  apply lookup_insert_ne. intros ->. by apply Hne.
Qed.

(** The answer to a status query for a job whose record is in the store. *)
Lemma check_status_found (w : world) pid data :
  process_status_store w !! pid = Some data →
  check_status (status_query pid) w = (w, Ok (Json (delete "created_at" data) 200)).
Proof.
  intros Hw. unfold check_status, status_query, pystr_eqb. cbn [method GET].
  rewrite bool_decide_true by done. rewrite lookup_singleton_eq. cbn. by rewrite Hw.
Qed.

(** C5, amended. The results of a recognition job are not appended page
    by page: they are written once, all [total_pages] entries together,
    after the last page has been merged, followed only by the three final
    status writes. At every point of the run before that write, a status
    query returns an empty [results] sequence. *)
Theorem results_published_at_once (w : world) (fuel : nat) (schedule : list nat)
    (job : ocr_job) (d : pydict) :
  process_status_store w !! ocr_process_id job = Some d →
  ocr_total_pages job = length (ocr_images_base64 job) →
  d !! "results" = Some (VResults []) →
  let pid := ocr_process_id job in
  ∃ evs,
    log (process_ocr fuel schedule job w).1 = log w ++ evs
    ∧ (∀ pre post (w_mid : world),
         evs = pre ++ post →
         writes_of pid "results" pre = [] →
         process_status_store w_mid = replay pre (process_status_store w) →
         ∃ body, (check_status (status_query pid) w_mid).2 = Ok (Json body 200)
                 ∧ body !! "results" = Some (VResults []))
    ∧ (writes_of pid "results" evs = []
       ∨ ∃ page_results evs_before,
           evs = evs_before ++
                 [EvWrite pid "results" (VResults page_results);
                  EvWrite pid "status" (VStr (py "Verarbeitung abgeschlossen"));
                  EvWrite pid "transkribus_status" (VStr (py "FINISHED"));
                  EvWrite pid "mllm_status" (VStr (py "FINISHED"))]
           ∧ writes_of pid "results" evs_before = []
           ∧ length page_results = ocr_total_pages job).
Proof.
  intros Hw Htotal Hresults pid.
  destruct (process_ocr_spec fuel schedule job d Htotal Hresults w Hw)
    as (evs & Hlog & _ & Hje & HQ).
  exists evs. split_and!; [done| |].
  - intros pre post w_mid -> Hpre Hmid. apply Forall_app in Hje as [Hje _].
    pose proof (replay_job_record pid pre _ d Hje Hw) as Hrec. rewrite <- Hmid in Hrec.
    rewrite (check_status_found _ _ _ Hrec). eexists. split; [done|].
    rewrite lookup_delete_ne by done. by rewrite apply_writes_unwritten.
  - assert (∀ l, Forall (λ ev, writes_within pid ocr_status_keys ev = true) l →
                 writes_of pid "results" l = []) as Hnone.
    { induction 1 as [|ev l Hev _ IH]; [done|]. unfold writes_of. cbn [omap list_omap].
      fold (writes_of pid "results" l). rewrite IH. destruct ev; try done.
      cbn [writes_within] in Hev. apply bool_decide_eq_true in Hev as [-> Hk].
      rewrite decide_False; [done|]. intros [_ ->]. set_solver. }
    destruct ((process_ocr fuel schedule job w).2) as [[]| |]; [|done|].
    + destruct HQ as [[prs (pids & evs_before & -> & Hbefore & _ & _ & Hlen & _)]
                     |[e (body & -> & Hbody)]].
      * right. exists prs, evs_before. split_and!; [done|by apply Hnone|by rewrite Htotal].
      * left. rewrite writes_of_app, (Hnone _ Hbody). unfold writes_of.
        cbn [app omap list_omap]. by rewrite !decide_False by (by intros [_ ?]).
    + left. by apply Hnone.
Qed.




End WithEnv.


(** The entries of the simulated run, in which page 1 finishes first. *)
Example two_page_results :
  (process_status_store two_page_run.1 !! py "job-0") ≫= (λ data, data !! "results")
  = Some (VResults
      [PageResult 0 (py "merged:htr:p0+mllm:A") (Some (py "htr:p0")) (py "mllm:A");
       PageResult 1 (py "merged:htr:p1+mllm:B") (Some (py "htr:p1")) (py "mllm:B")]).
Proof. vm_compute. reflexivity. Qed.

(** C5, as stated, fails. Of the 23 effects of the simulated run the
    tenth records that page 1 of 2 has finished; a status query at that
    point shows an empty [results], and so does a query after the
    nineteenth effect, when both pages are finished and merged. The
    finished job shows both entries. *)
Lemma status_query_mid_run_shows_no_results :
  last (take 10 two_page_trace)
  = Some (EvWrite (py "job-0") "status" (progress_write 2 1))
  ∧ status_field (two_page_world_after 10) (py "job-0") "results" = Some (VResults [])
  ∧ status_field (two_page_world_after 19) (py "job-0") "results" = Some (VResults [])
  ∧ length two_page_trace = 23%nat
  ∧ status_field two_page_run.1 (py "job-0") "results"
    = Some (VResults
        [PageResult 0 (py "merged:htr:p0+mllm:A") (Some (py "htr:p0")) (py "mllm:A");
         PageResult 1 (py "merged:htr:p1+mllm:B") (Some (py "htr:p1")) (py "mllm:B")]).
Proof. vm_compute. repeat split; reflexivity. Qed.

Lemma results_published_at_once_witness :
  let pid := ocr_process_id two_page_job in
  ∃ evs,
    log two_page_run.1 = log two_page_world ++ evs
    ∧ (∀ pre post (w_mid : @world (sim_env two_page_config)),
         evs = pre ++ post →
         writes_of pid "results" pre = [] →
         process_status_store w_mid = replay pre (process_status_store two_page_world) →
         ∃ body, (check_status (status_query pid) w_mid).2 = Ok (Json body 200)
                 ∧ body !! "results" = Some (VResults []))
    ∧ (writes_of pid "results" evs = []
       ∨ ∃ page_results evs_before,
           evs = evs_before ++
                 [EvWrite pid "results" (VResults page_results);
                  EvWrite pid "status" (VStr (py "Verarbeitung abgeschlossen"));
                  EvWrite pid "transkribus_status" (VStr (py "FINISHED"));
                  EvWrite pid "mllm_status" (VStr (py "FINISHED"))]
           ∧ writes_of pid "results" evs_before = []
           ∧ length page_results = ocr_total_pages two_page_job).
Proof.
  apply (results_published_at_once (H := sim_env two_page_config) two_page_world 10
           [1; 0]%nat two_page_job (ocr_initial_record 2 0)); vm_compute; reflexivity.
Defined.

(** C3, as stated, fails for the annotation job: when the call of the
    language model fails, [process_tei] writes [tei_status] after it has
    written [error]. *)
Lemma tei_error_is_not_the_last_write :
  let run := process_tei (H := sim_env failing_tei_config) example_tei_job
               (tei_world failing_tei_config) in
  written_keys (py "job-0") (log run.1) = ["status"; "status"; "error"; "tei_status"]
  ∧ mutations_after_error (py "job-0") (log run.1)
    = Some [EvWrite (py "job-0") "tei_status" (VStr (py "ERROR"))].
Proof. vm_compute. split; reflexivity. Qed.


(** The simulated run sleeps 5, 7.5 and 11.25 seconds and returns in its
    third round. *)
Example poll_two_pages_sleeps :
  let run := _poll_transkribus_jobs (H := sim_env two_page_config) 10
               [py "p0"; py "p1"] ∅ (py "u") (py "p") (py "job-0") 2 two_page_world in
  Forall2 Qeq (sleeps (log run.1)) [5; 7.5; 11.25]%Q
  ∧ run.2 = Ok [Some (py "htr:p0"); Some (py "htr:p1")].
Proof. vm_compute. split; [repeat constructor|reflexivity]. Qed.

End JobClaims.

(** ** views.py: validation at the entry points *)

Module EntryFacts.
Import Processing Transkribus Views Sim.

Section WithEnv.
Context `{!Env}.

Lemma reject_run {J} msg code (w : world) :
  reject (J := J) msg code w = (w, Ok (error_response msg code, None)).
Proof. done. Qed.

(** The image loop answers with the first index that has no image. *)
Lemma collect_images_first_missing request a n acc i :
  (a ≤ i < a + n)%nat →
  FILES request !! image_key i = None →
  (∀ j, (a ≤ j < i)%nat → is_Some (FILES request !! image_key j)) →
  collect_images request (seq a n) acc
  = inl (error_response (py "Bild " ++ str_nat i ++ py " fehlt") 400).
Proof.
  revert a acc. induction n as [|n IH]; intros a acc Hi Hmiss Hbefore; [lia|].
  cbn [seq collect_images]. fold (image_key a).
  destruct (decide (a = i)) as [->|Hne].
  - by rewrite Hmiss.
  - destruct (Hbefore a) as [u ->]; [lia|].
    apply IH; [lia|done|]. intros j Hj. apply Hbefore. lia.
Qed.


(** C7. An annotation request that declares [N] pages and lacks the
    image of a page [i < N], all earlier images being there, is answered
    with an error response, whatever else it holds; no identifier is
    drawn, no record is created and the world is left as it was. When the
    other fields are valid and [N] is within 1..[MAX_PAGES], the response
    is the error [Bild i fehlt] with status 400, naming the first missing
    image. *)
Theorem create_tei_missing_image (request : HttpRequest) (w : world)
    (num_pages : pystr) (N : Z) (i : nat) :
  POST request !! "num_pages" = Some num_pages →
  num_pages ≠ [] →
  py_int num_pages = Some N →
  (Z.of_nat i < N)%Z →
  FILES request !! image_key i = None →
  (∀ j, (j < i)%nat → is_Some (FILES request !! image_key j)) →
  (∃ msg code, create_tei request w = (w, Ok (error_response msg code, None))
               ∧ (code = 400 ∨ code = 405)%Z)
  ∧ (tei_fields_valid request → (1 ≤ N ≤ Z.of_nat MAX_PAGES)%Z →
     create_tei request w
     = (w, Ok (error_response (py "Bild " ++ str_nat i ++ py " fehlt") 400, None))).
Proof.
  intros Hnum Hne Hint Hi Hmiss Hbefore.
  assert (collect_images request (seq 0 (Z.to_nat N)) []
          = inl (error_response (py "Bild " ++ str_nat i ++ py " fehlt") 400)) as Hloop.
  { apply collect_images_first_missing; [lia|done|]. intros j Hj. apply Hbefore. lia. }
  destruct num_pages as [|c cs]; [done|].
  split.
  - unfold create_tei. rewrite Hnum, Hint, Hloop.
    repeat (case_match; try (rewrite reject_run; eauto 10)).
    all: try (eexists _, _; split; [reflexivity|]; eauto).
  - intros (Hm & [model Hmodel] & [prompt Hprompt] & (t & Ht & Hrange)
            & (c' & cs' & Htext) & [mode Hmode]) Hrange'.
    unfold create_tei, pystr_eqb. rewrite Hm, bool_decide_true by done.
    rewrite Hmodel, Hprompt, Ht, Hrange, Htext, Hmode, Hnum, Hint, Hloop.
    cbn [negb].
    destruct (negb _) eqn:Hr; [|done].
    apply negb_true_iff, andb_false_iff in Hr as [Hr|Hr].
    + apply Z.leb_gt in Hr. lia.
    + apply Z.leb_gt in Hr. lia.
Qed.


End WithEnv.

Lemma create_tei_missing_image_witness :
  (∃ msg code,
     create_tei (H := sim_env idle_config) three_pages_two_images (sim_world0 idle_config)
     = (sim_world0 idle_config, Ok (error_response msg code, None))
     ∧ (code = 400 ∨ code = 405)%Z)
  ∧ (tei_fields_valid (H := sim_env idle_config) three_pages_two_images →
     (1 ≤ 3 ≤ Z.of_nat MAX_PAGES)%Z →
     create_tei (H := sim_env idle_config) three_pages_two_images (sim_world0 idle_config)
     = (sim_world0 idle_config,
        Ok (error_response (py "Bild " ++ str_nat 2 ++ py " fehlt") 400, None))).
Proof.
  apply (create_tei_missing_image (H := sim_env idle_config) three_pages_two_images
           (sim_world0 idle_config) (py "3") 3 2).
  - vm_compute. reflexivity.
  - vm_compute. discriminate.
  - vm_compute. reflexivity.
  - lia.
  - vm_compute. reflexivity.
  - intros j Hj. assert (j = 0 ∨ j = 1)%nat as [-> | ->] by lia; vm_compute; eauto.
Defined.

(** The example of the specification: three pages declared, two images
    attached. *)
Example three_pages_two_images_rejected :
  create_tei (H := sim_env idle_config) three_pages_two_images (sim_world0 idle_config)
  = (sim_world0 idle_config, Ok (error_response (py "Bild 2 fehlt") 400, None)).
Proof. vm_compute. reflexivity. Qed.


(** The annotation request without a mode is accepted, with the mode
    [RA]; the recognition request without a mode is rejected. *)
Example requests_without_mode :
  (match (create_tei (H := sim_env idle_config) tei_request_without_mode
            (sim_world0 idle_config)).2 with
   | Ok (response, Some job) => Some (status response, tei_mode job)
   | _ => None
   end) = Some (200%Z, py "RA")
  ∧ upload_image (H := sim_env idle_config) ocr_request_without_mode
      (sim_world0 idle_config)
    = (sim_world0 idle_config,
       Ok (error_response (py "Ungültiger Modus: None") 400, None)).
Proof. vm_compute. split; reflexivity. Qed.

End EntryFacts.

(** ** The sweep of old records *)

Module SweepFacts.
Import Processing Transkribus Views Sim StoreFacts.
Section WithEnv.
Context `{!Env}.

(** The whole effect of a sweep: the clock is read once, the records
    older than the cutoff are deleted, each with one deletion, and the
    others stay as they are. *)
Lemma cleanup_old_entries_run (w : world) :
  let x := (env_time (ext w)).1 in
  let now := (env_time (ext w)).2 in
  ∃ keys,
    NoDup keys
    ∧ (∀ k, k ∈ keys ↔ ∃ data, process_status_store w !! k = Some data
                          ∧ expired (now - PROCESS_ENTRY_TTL) data = true)
    ∧ _cleanup_old_entries w
      = (World x (foldl (λ m k, delete k m) (process_status_store w) keys)
           (log w ++ EvTime now :: map EvDelete keys), Ok tt).
Proof.
  unfold _cleanup_old_entries, bind, time_time.
  destruct (env_time (ext w)) as [x now] eqn:Ht. cbn [fst snd].
  set (keys := (map_to_list _).*1).
  assert (∀ k, k ∈ keys ↔ ∃ data, process_status_store w !! k = Some data
            ∧ expired (now - PROCESS_ENTRY_TTL) data = true) as Hkeys.
  { intros k. unfold keys. rewrite list_elem_of_fmap. split.
    - intros ([k' d] & -> & Hel%elem_of_map_to_list).
      apply map_lookup_filter_Some in Hel as [? ?]. by exists d.
    - intros (d & Hd & He). exists (k, d). split; [done|].
      apply elem_of_map_to_list, map_lookup_filter_Some. done. }
  exists keys. split; [apply NoDup_fst_map_to_list|]. split; [done|].
  rewrite for_each_store_delete.
  - unfold emit. cbn [ext process_status_store log]. by rewrite <- app_assoc.
  - apply NoDup_fst_map_to_list.
  - intros k (d & Hd & _)%Hkeys. by exists d.
Qed.


(** X7. A sweep never fails. It reads the clock once and then deletes,
    each exactly once and before doing anything else, the records created
    more than [PROCESS_ENTRY_TTL] seconds before that reading, a record
    without a creation time counting as created at time 0. What is left
    is the store without these records: no record is added and none is
    changed. *)
Theorem cleanup_deletes_exactly_the_expired (w : world) :
  let now := (env_time (ext w)).2 in
  ∃ w' deleted,
    _cleanup_old_entries w = (w', Ok tt)
    ∧ log w' = log w ++ EvTime now :: map EvDelete deleted
    ∧ NoDup deleted
    ∧ (∀ pid, pid ∈ deleted ↔
         ∃ data, process_status_store w !! pid = Some data
                 ∧ (created_at_or_0 data < now - PROCESS_ENTRY_TTL)%Q)
    ∧ (∀ pid, pid ∈ deleted → process_status_store w' !! pid = None)
    ∧ (∀ pid, pid ∉ deleted →
         process_status_store w' !! pid = process_status_store w !! pid).
Proof.
  intros now. destruct (cleanup_old_entries_run w) as (keys & Hnd & Hkeys & Hrun).
  fold now in Hkeys, Hrun.
  assert (∀ data, expired (now - PROCESS_ENTRY_TTL) data = true
                  ↔ (created_at_or_0 data < now - PROCESS_ENTRY_TTL)%Q) as Hexp.
  { intros data. unfold expired.
    destruct (created_at_or_0 data ?= now - PROCESS_ENTRY_TTL)%Q eqn:Hc.
    - apply Qeq_alt in Hc. split; [done|]. intros Hlt. lra.
    - by apply Qlt_alt in Hc.
    - apply Qgt_alt in Hc. split; [done|]. intros Hlt. lra. }
  eexists _, keys. split; [exact Hrun|]. cbn [log process_status_store].
  split; [done|]. split; [done|]. split.
  { intros pid. rewrite Hkeys. by setoid_rewrite Hexp. }
  split; intros pid Hpid; rewrite lookup_foldl_delete.
  - by rewrite decide_True.
  - by rewrite decide_False.
Qed.

(** X8. A record without a [created_at] field is swept exactly when the
    clock shows more than [PROCESS_ENTRY_TTL] seconds, as if it had been
    created at time 0. *)
Theorem cleanup_of_undated_record (w : world) (pid : pystr) (data : pydict) :
  process_status_store w !! pid = Some data →
  data !! "created_at" = None →
  let now := (env_time (ext w)).2 in
  ∃ w', _cleanup_old_entries w = (w', Ok tt)
    ∧ ((PROCESS_ENTRY_TTL < now)%Q → process_status_store w' !! pid = None)
    ∧ ((now <= PROCESS_ENTRY_TTL)%Q → process_status_store w' !! pid = Some data).
Proof.
  intros Hpid Hdata now.
  destruct (cleanup_old_entries_run w) as (keys & Hnd & Hkeys & Hrun).
  fold now in Hkeys, Hrun. eexists. split; [exact Hrun|].
  cbn [process_status_store]. rewrite lookup_foldl_delete.
  assert (expired (now - PROCESS_ENTRY_TTL) data = true ↔ (PROCESS_ENTRY_TTL < now)%Q)
    as Hexp.
  { unfold expired, created_at_or_0. rewrite Hdata.
    destruct (0 ?= now - PROCESS_ENTRY_TTL)%Q eqn:Hc.
    - apply Qeq_alt in Hc. split; [done|]. intros Hlt. lra.
    - apply Qlt_alt in Hc. split; [|done]. intros _. lra.
    - apply Qgt_alt in Hc. split; [done|]. intros Hlt. lra. }
  split.
  - intros Hlt. rewrite decide_True; [done|]. apply Hkeys. exists data.
    split; [done|]. by apply Hexp.
  - intros Hle. rewrite decide_False; [done|].
    intros (data' & Hd' & He')%Hkeys. rewrite Hpid in Hd'. injection Hd' as <-.
    apply Hexp in He'. lra.
Qed.

End WithEnv.

Lemma cleanup_of_undated_record_witness :
  let now := 4600%Q in
  ∃ w', _cleanup_old_entries (H := sim_env idle_config) undated_world = (w', Ok tt)
    ∧ ((PROCESS_ENTRY_TTL < now)%Q → process_status_store w' !! py "job-0" = None)
    ∧ ((now <= PROCESS_ENTRY_TTL)%Q
       → process_status_store w' !! py "job-0" = Some undated_record).
Proof.
  apply (cleanup_of_undated_record (H := sim_env idle_config) undated_world (py "job-0")
           undated_record); reflexivity.
Defined.

End SweepFacts.

(** ** The entry points *)

Module EntryPointFacts.
Import Processing Transkribus Views Sim StoreFacts SweepFacts.
Section WithEnv.
Context `{!Env}.

(** X1. A status query never changes the store or the trace, and its
    answer never holds the [created_at] field. It answers 405 exactly to
    the requests that are not GET, 200 exactly to the GET requests that
    name a record of the store, and 404 to the others; a 200 answer holds
    every other field of the record as stored. *)
Theorem check_status_response (request : HttpRequest) (w : world) :
  ∃ response,
    check_status request w = (w, Ok response)
    ∧ body response !! "created_at" = None
    ∧ (status response = 200 ∨ status response = 404 ∨ status response = 405)%Z
    ∧ (status response = 405%Z ↔ method request ≠ py "GET")
    ∧ (status response = 200%Z ↔
       method request = py "GET"
       ∧ ∃ pid data, GET request !! "process_id" = Some pid
                     ∧ process_status_store w !! pid = Some data
                     ∧ ∀ key, key ≠ "created_at" → body response !! key = data !! key).
Proof.
  unfold check_status, pystr_eqb. case_bool_decide as Hm.
  - destruct (GET request !! "process_id") as [pid|] eqn:Hpid; cbn [mbind option_bind].
    + destruct (process_status_store w !! pid) as [data|] eqn:Hd.
      * eexists. split; [reflexivity|]. cbn [body status].
        split; [apply lookup_delete_eq|]. split; [by left|].
        split; [split; [done|intros []; done]|].
        split; [|done]. intros _. split; [done|]. exists pid, data.
        split_and!; try done. intros key Hk. by rewrite lookup_delete_ne.
      * eexists. split; [reflexivity|]. unfold error_response. cbn [body status].
        split; [by rewrite lookup_singleton_ne|]. split; [right; by left|].
        split; [split; [done|intros []; done]|].
        split; [done|]. intros (_ & pid' & data & ? & ? & _). congruence.
    + eexists. split; [reflexivity|]. unfold error_response. cbn [body status].
      split; [by rewrite lookup_singleton_ne|]. split; [right; by left|].
      split; [split; [done|intros []; done]|].
      split; [done|]. intros (_ & pid' & data & ? & _). congruence.
  - eexists. split; [reflexivity|]. unfold error_response. cbn [body status].
    split; [by rewrite lookup_singleton_ne|]. split; [right; by right|].
    split; [done|]. split; [done|]. intros [? _]. done.
Qed.


Lemma one_of_Some allowed x v : one_of allowed x = Some v → x = Some v ∧ v ∈ allowed.
Proof.
  unfold one_of. destruct x as [v'|]; [|done]. case_bool_decide; [|done].
  by intros [= <-].
Qed.

(** What [upload_image] does with a request: it either answers 400 and
    does nothing else, or draws an identifier, sweeps the store, reads the
    clock, stores the initial record and answers 200 with the identifier;
    the job it starts holds the validated parameters. *)
Lemma upload_image_run (request : HttpRequest) (w : world) :
  (∃ msg, upload_image request w = (w, Ok (error_response msg 400, None)))
  ∨ (∃ job w1 keys created_at,
       upload_image request w
       = (w1, Ok (Json {[ "process_id" := VStr (ocr_process_id job) ]} 200, Some job))
       ∧ method request = py "POST"
       ∧ POST request !! "multimodal-llm-ocr" = Some (ocr_multimodal_llm job)
       ∧ ocr_multimodal_llm job ∈ VALID_MODELS
       ∧ POST request !! "transkribus-model" ≫= py_int = Some (ocr_transkribus_model job)
       ∧ py_float (default (py "0.0") (POST request !! "temperature-ocr"))
         = Some (ocr_temperature job)
       ∧ temperature_in_range (ocr_temperature job) = true
       ∧ POST request !! "mode" = Some (ocr_mode job)
       ∧ ocr_mode job ∈ VALID_MODES
       ∧ ocr_images_base64 job = map encode_image (getlist request "images")
       ∧ ocr_total_pages job = length (getlist request "images")
       ∧ (1 ≤ length (getlist request "images") ≤ MAX_PAGES)%nat
       ∧ ocr_process_id job = (env_uuid4 (ext w)).2
       ∧ log w1 = log w ++ EvUuid (ocr_process_id job)
                  :: EvTime (env_time (env_uuid4 (ext w)).1).2
                  :: map EvDelete keys
                  ++ [EvTime created_at;
                      EvCreate (ocr_process_id job)
                        (ocr_initial_record (ocr_total_pages job) created_at)]
       ∧ process_status_store w1
         = <[ocr_process_id job := ocr_initial_record (ocr_total_pages job) created_at]>
             (foldl (λ m k, delete k m) (process_status_store w) keys)
       ∧ ∀ k, k ∈ keys ↔
           ∃ data, process_status_store w !! k = Some data
                   ∧ expired ((env_time (env_uuid4 (ext w)).1).2 - PROCESS_ENTRY_TTL) data
                     = true).
Proof.
  unfold upload_image, reject, ret.
  destruct (pystr_eqb _ _ && _) eqn:Hpost; [|left; by eexists].
  apply andb_true_iff in Hpost as [Hm%bool_decide_eq_true Himages%negb_true_iff%bool_decide_eq_false].
  destruct (one_of VALID_MODELS _) as [model|] eqn:Hmodel; [|left; by eexists].
  apply one_of_Some in Hmodel as [Hmodel Hvalid].
  destruct (_ ≫= py_int) as [transkribus_model|] eqn:Htm; [|left; by eexists].
  destruct (py_float _) as [temperature|] eqn:Htemp; [|left; by eexists].
  destruct (temperature_in_range temperature) eqn:Hrange; cbn [negb]; [|left; by eexists].
  destruct (MAX_PAGES <? _)%nat eqn:Hmax; [left; by eexists|]. apply Nat.ltb_ge in Hmax.
  destruct (one_of VALID_MODES _) as [mode|] eqn:Hmode; [|left; by eexists].
  apply one_of_Some in Hmode as [Hmode Hvmode].
  right.
  unfold bind at 1. unfold uuid4 at 1. destruct (env_uuid4 (ext w)) as [x1 id] eqn:Hid.
  unfold bind at 1.
  destruct (cleanup_old_entries_run
              (emit (EvUuid id) (World x1 (process_status_store w) (log w))))
    as (keys & _ & Hkeys & ->).
  unfold emit at 1 2 3. cbn [ext process_status_store log] in *.
  unfold bind at 1. unfold time_time at 1. cbn [ext process_status_store log].
  destruct (env_time (env_time x1).1) as [x3 t].
  unfold bind, store_create, ret. cbn [fst snd process_status_store emit ext log].
  eexists (OcrJob id _ _ model transkribus_model temperature mode), _, keys, t.
  unfold emit.
  cbn [ocr_process_id ocr_total_pages ocr_images_base64 ocr_multimodal_llm
       ocr_transkribus_model ocr_temperature ocr_mode process_status_store log ext fst snd].
  rewrite length_map.
  assert (1 ≤ length (getlist request "images"))%nat.
  { destruct (getlist request "images"); [done|]. cbn [length]. lia. }
  split; [reflexivity|]. split_and!; try done.
  rewrite <- !app_assoc. reflexivity.
Qed.

(** X2. [upload_image] always answers: it raises nothing, whatever the
    request and the providers. When it starts no job it answers 400 with
    an error text and has no effect at all: the store and the trace are
    as before, so no identifier was drawn and nothing was swept. When it
    starts a job it answers 200. *)
Theorem upload_image_rejection_has_no_effect (request : HttpRequest) (w : world) :
  ∃ w' response job,
    upload_image request w = (w', Ok (response, job))
    ∧ match job with
      | None => w' = w ∧ status response = 400%Z
                ∧ ∃ msg, body response = {[ "error" := VStr msg ]}
      | Some job =>
        status response = 200%Z
        ∧ body response = {[ "process_id" := VStr (ocr_process_id job) ]}
        ∧ is_Some (process_status_store w' !! ocr_process_id job)
      end.
Proof.
  destruct (upload_image_run request w)
    as [[msg ->]|(job & w1 & keys & t & -> & H')].
  - eexists w, _, None. split; [reflexivity|]. split_and!; try done. by exists msg.
  - eexists w1, _, (Some job). split; [reflexivity|]. split_and!; try done.
    destruct H' as (_ & _ & _ & _ & _ & _ & _ & _ & _ & _ & _ & _ & _ & -> & _).
    rewrite lookup_insert_eq. by eexists.
Qed.

(** X3. A recognition job is only ever started with validated
    parameters: the model and the mode are among the allowed ones and are
    those of the request, the temperature is a finite number between 0 and
    2, the HTR model is the integer the request gave, and the job holds
    the encoded images of the request in their order, between 1 and
    [MAX_PAGES] of them, with [total_pages] their number. *)
Theorem upload_image_job_validated (request : HttpRequest) (w w1 : world)
    (response : JsonResponse) (job : ocr_job) :
  upload_image request w = (w1, Ok (response, Some job)) →
  method request = py "POST"
  ∧ POST request !! "multimodal-llm-ocr" = Some (ocr_multimodal_llm job)
  ∧ ocr_multimodal_llm job ∈ VALID_MODELS
  ∧ POST request !! "mode" = Some (ocr_mode job)
  ∧ (ocr_mode job = py "RA" ∨ ocr_mode job = py "GL")
  ∧ (∃ q, ocr_temperature job = FFin q ∧ (0 <= q)%Q ∧ (q <= 2)%Q)
  ∧ POST request !! "transkribus-model" ≫= py_int = Some (ocr_transkribus_model job)
  ∧ ocr_images_base64 job = map encode_image (getlist request "images")
  ∧ ocr_total_pages job = length (ocr_images_base64 job)
  ∧ (1 ≤ ocr_total_pages job ≤ MAX_PAGES)%nat.
Proof.
  intros Hrun.
  destruct (upload_image_run request w)
    as [[msg Hrej]|(job' & w1' & keys & t & Hacc & H')]; [congruence|].
  rewrite Hacc in Hrun. injection Hrun as <- <- <-.
  destruct H' as (? & ? & ? & ? & ? & Hrange & ? & Hmode & Himgs & Htotal & ? & _).
  split_and!; try done.
  - unfold VALID_MODES in Hmode. set_solver.
  - unfold temperature_in_range in Hrange.
    destruct (ocr_temperature job') as [| |q]; try done.
    apply andb_true_iff in Hrange as [Hlo%Qle_bool_iff Hhi%Qle_bool_iff].
    exists q. done.
  - by rewrite Himgs, length_map.
  - lia.
  - lia.
Qed.



(** The record [create_tei] stores for a new annotation job. *)
Lemma collect_images_inr request a n acc images :
  collect_images request (seq a n) acc = inr images →
  ∃ new, images = acc ++ new ∧ length new = n
    ∧ ∀ j, (j < n)%nat →
        ∃ u, FILES request !! image_key (a + j) = Some u
             ∧ new !! j = Some (encode_image (latest u)).
Proof.
  revert a acc. induction n as [|n IH]; intros a acc; cbn [seq collect_images].
  - intros [= <-]. exists []. rewrite app_nil_r. split_and!; try done. lia.
  - fold (image_key a). destruct (FILES request !! image_key a) as [u|] eqn:Hu; [|done].
    intros (new & -> & Hlen & Hnew)%IH.
    exists (encode_image (latest u) :: new). rewrite <- app_assoc. split; [done|].
    split; [cbn [length]; lia|]. intros [|j] Hj.
    + exists u. by rewrite Nat.add_0_r.
    + destruct (Hnew j) as (u' & Hu' & Hj'); [lia|]. exists u'.
      by rewrite <- Nat.add_succ_comm.
Qed.

Lemma collect_images_inl request indices acc response :
  collect_images request indices acc = inl response →
  ∃ msg, response = error_response msg 400.
Proof.
  revert acc. induction indices as [|i indices IH]; intros acc; cbn [collect_images]; [done|].
  destruct (FILES request !! _); [apply IH|]. intros [= <-]. by eexists.
Qed.

(** What [create_tei] does with a request: it either answers 405 or 400
    and does nothing else, or draws an identifier, sweeps the store, reads
    the clock, stores the initial record and answers 200. *)
Lemma create_tei_run (request : HttpRequest) (w : world) :
  (∃ msg code, create_tei request w = (w, Ok (error_response msg code, None))
               ∧ (method request ≠ py "POST" ∧ code = 405%Z
                  ∨ method request = py "POST" ∧ code = 400%Z))
  ∨ (∃ job w1 keys created_at,
       create_tei request w
       = (w1, Ok (Json {[ "process_id" := VStr (tei_process_id job) ]} 200, Some job))
       ∧ method request = py "POST"
       ∧ POST request !! "multimodal-llm-tei" = Some (tei_multimodal_llm job)
       ∧ tei_multimodal_llm job ∈ VALID_MODELS
       ∧ POST request !! "prompt-transformation-tei" = Some (tei_chosen_prompt job)
       ∧ tei_chosen_prompt job ∈ VALID_PROMPTS
       ∧ tei_custom_prompt_text job = default [] (POST request !! "custom-prompt-text")
       ∧ py_float (default (py "0.0") (POST request !! "temperature-tei"))
         = Some (tei_temperature job)
       ∧ temperature_in_range (tei_temperature job) = true
       ∧ POST request !! "merged_text" = Some (tei_merged_text job)
       ∧ tei_merged_text job ≠ []
       ∧ tei_mode job = default (py "RA") (POST request !! "mode")
       ∧ tei_mode job ∈ VALID_MODES
       ∧ (if tei_is_multipage job then
            ∃ num_pages N,
              POST request !! "num_pages" = Some num_pages ∧ num_pages ≠ []
              ∧ py_int num_pages = Some N ∧ (1 ≤ N ≤ Z.of_nat MAX_PAGES)%Z
              ∧ length (tei_images_base64 job) = Z.to_nat N
              ∧ ∀ i, (i < Z.to_nat N)%nat →
                  ∃ u, FILES request !! image_key i = Some u
                       ∧ tei_images_base64 job !! i = Some (encode_image (latest u))
          else
            (POST request !! "num_pages" = None ∨ POST request !! "num_pages" = Some [])
            ∧ ∃ u, FILES request !! "image" = Some u
                   ∧ tei_images_base64 job = [encode_image (latest u)])
       ∧ tei_process_id job = (env_uuid4 (ext w)).2
       ∧ log w1 = log w ++ EvUuid (tei_process_id job)
                  :: EvTime (env_time (env_uuid4 (ext w)).1).2
                  :: map EvDelete keys
                  ++ [EvTime created_at;
                      EvCreate (tei_process_id job) (tei_initial_record created_at)]
       ∧ process_status_store w1
         = <[tei_process_id job := tei_initial_record created_at]>
             (foldl (λ m k, delete k m) (process_status_store w) keys)
       ∧ ∀ k, k ∈ keys ↔
           ∃ data, process_status_store w !! k = Some data
                   ∧ expired ((env_time (env_uuid4 (ext w)).1).2 - PROCESS_ENTRY_TTL) data
                     = true).
Proof.
  unfold create_tei, reject, ret, pystr_eqb.
  case_bool_decide as Hm; [|left; eexists _, _; split; [reflexivity|by left]].
  destruct (one_of VALID_MODELS _) as [model|] eqn:Hmodel;
    [|left; eexists _, _; split; [reflexivity|by right]].
  apply one_of_Some in Hmodel as [Hmodel Hvalid].
  destruct (one_of VALID_PROMPTS _) as [prompt|] eqn:Hprompt;
    [|left; eexists _, _; split; [reflexivity|by right]].
  apply one_of_Some in Hprompt as [Hprompt Hvprompt].
  destruct (py_float _) as [temperature|] eqn:Htemp;
    [|left; eexists _, _; split; [reflexivity|by right]].
  destruct (temperature_in_range temperature) eqn:Hrange; cbn [negb];
    [|left; eexists _, _; split; [reflexivity|by right]].
  destruct (POST request !! "merged_text") as [[|c text]|] eqn:Htext;
    [left; eexists _, _; split; [reflexivity|by right]|
    |left; eexists _, _; split; [reflexivity|by right]].
  destruct (one_of VALID_MODES _) as [mode|] eqn:Hmode;
    [|left; eexists _, _; split; [reflexivity|by right]].
  apply one_of_Some in Hmode as [[= Hmode] Hvmode].
  cbv zeta.
  assert (∀ images multi,
    ∃ w1 keys t,
      bind uuid4 (λ process_id,
        bind _cleanup_old_entries (λ _,
          bind time_time (λ created_at,
            bind (store_create process_id
                    {[ "status" := VStr (py "TEI-XML-Generierung gestartet");
                       "tei_status" := VStr (py "RUNNING");
                       "created_at" := VTime created_at ]})
              (λ _ w,
                (w, Ok (Json {[ "process_id" := VStr process_id ]} 200,
                        Some (TeiJob process_id images multi model (c :: text) prompt
                                (default [] (POST request !! "custom-prompt-text"))
                                temperature mode))))))) w
      = (w1, Ok (Json {[ "process_id" := VStr (env_uuid4 (ext w)).2 ]} 200,
                 Some (TeiJob (env_uuid4 (ext w)).2 images multi model (c :: text) prompt
                         (default [] (POST request !! "custom-prompt-text"))
                         temperature mode)))
      ∧ log w1 = log w ++ EvUuid (env_uuid4 (ext w)).2
                 :: EvTime (env_time (env_uuid4 (ext w)).1).2
                 :: map EvDelete keys
                 ++ [EvTime t; EvCreate (env_uuid4 (ext w)).2 (tei_initial_record t)]
      ∧ process_status_store w1
        = <[(env_uuid4 (ext w)).2 := tei_initial_record t]>
            (foldl (λ m k, delete k m) (process_status_store w) keys)
      ∧ ∀ k, k ∈ keys ↔
          ∃ data, process_status_store w !! k = Some data
                  ∧ expired ((env_time (env_uuid4 (ext w)).1).2 - PROCESS_ENTRY_TTL) data
                    = true) as Hstart.
  { intros images multi.
    unfold bind at 1. unfold uuid4 at 1. destruct (env_uuid4 (ext w)) as [x1 id] eqn:Hid.
    unfold bind at 1.
    destruct (cleanup_old_entries_run
                (emit (EvUuid id) (World x1 (process_status_store w) (log w))))
      as (keys & _ & Hkeys & ->).
    unfold emit at 1 2 3. cbn [ext process_status_store log] in *.
    unfold bind at 1. unfold time_time at 1. cbn [ext process_status_store log].
    destruct (env_time (env_time x1).1) as [x3 t].
    unfold bind, store_create, ret. cbn [fst snd process_status_store emit ext log].
    eexists _, keys, t. unfold emit, tei_initial_record.
    cbn [process_status_store log ext fst snd].
    split; [reflexivity|]. split_and!; try done.
    rewrite <- !app_assoc. reflexivity. }
  destruct (POST request !! "num_pages") as [[|c' cs']|] eqn:Hnum.
  - destruct (FILES request !! "image") as [u|] eqn:Hu;
      [|left; eexists _, _; split; [reflexivity|by right]].
    right. destruct (Hstart [encode_image (latest u)] false)
      as (w1 & keys & t & -> & ? & ? & ?).
    eexists (TeiJob _ _ _ _ _ _ _ _ _), w1, keys, t.
    cbn [tei_process_id tei_images_base64 tei_is_multipage tei_multimodal_llm
         tei_merged_text tei_chosen_prompt tei_custom_prompt_text tei_temperature tei_mode].
    split; [reflexivity|]. split_and!; try done; [by right|by exists u].
  - destruct (py_int (c' :: cs')) as [N|] eqn:HN;
      [|left; eexists _, _; split; [reflexivity|by right]].
    destruct ((1 <=? N)%Z && (N <=? Z.of_nat MAX_PAGES)%Z) eqn:Hbound; cbn [negb];
      [|left; eexists _, _; split; [reflexivity|by right]].
    apply andb_true_iff in Hbound as [H1%Z.leb_le H2%Z.leb_le].
    destruct (collect_images request _ []) as [response|images] eqn:Himages.
    + left. apply collect_images_inl in Himages as [msg ->].
      eexists _, _; split; [reflexivity|by right].
    + right. apply collect_images_inr in Himages as (new & -> & Hlen & Hnew).
      destruct (Hstart ([] ++ new) true) as (w1 & keys & t & -> & ? & ? & ?).
      eexists (TeiJob _ _ _ _ _ _ _ _ _), w1, keys, t.
      cbn [tei_process_id tei_images_base64 tei_is_multipage tei_multimodal_llm
           tei_merged_text tei_chosen_prompt tei_custom_prompt_text tei_temperature tei_mode].
      split; [reflexivity|]. split_and!; try done.
      exists (c' :: cs'), N. split_and!; try done.
  - destruct (FILES request !! "image") as [u|] eqn:Hu;
      [|left; eexists _, _; split; [reflexivity|by right]].
    right. destruct (Hstart [encode_image (latest u)] false)
      as (w1 & keys & t & -> & ? & ? & ?).
    eexists (TeiJob _ _ _ _ _ _ _ _ _), w1, keys, t.
    cbn [tei_process_id tei_images_base64 tei_is_multipage tei_multimodal_llm
         tei_merged_text tei_chosen_prompt tei_custom_prompt_text tei_temperature tei_mode].
    split; [reflexivity|]. split_and!; try done; [by left|by exists u].
Qed.



(** X5. [create_tei] always answers and raises nothing. When it starts
    no job it has no effect at all on the store or the trace, and it
    answers 405 exactly when the request is not a POST and 400 otherwise.
    When it starts a job it answers 200 with the job's identifier, under
    which the store then holds a record. *)
Theorem create_tei_rejection_has_no_effect (request : HttpRequest) (w : world) :
  ∃ w' response job,
    create_tei request w = (w', Ok (response, job))
    ∧ match job with
      | None => w' = w
                ∧ (∃ msg, body response = {[ "error" := VStr msg ]})
                ∧ (method request ≠ py "POST" ∧ status response = 405%Z
                   ∨ method request = py "POST" ∧ status response = 400%Z)
      | Some job =>
        status response = 200%Z
        ∧ body response = {[ "process_id" := VStr (tei_process_id job) ]}
        ∧ is_Some (process_status_store w' !! tei_process_id job)
      end.
Proof.
  destruct (create_tei_run request w)
    as [(msg & code & -> & Hcode)|(job & w1 & keys & t & -> & H')].
  - eexists w, _, None. split; [reflexivity|]. split_and!; try done. by exists msg.
  - eexists w1, _, (Some job). split; [reflexivity|]. split_and!; try done.
    destruct H' as (_ & _ & _ & _ & _ & _ & _ & _ & _ & _ & _ & _ & _ & _ & _ & -> & _).
    rewrite lookup_insert_eq. by eexists.
Qed.

(** X6. An annotation job is only ever started with validated
    parameters: model, prompt and mode are among the allowed ones, the
    mode being RA when the request gives none; the temperature is a finite
    number between 0 and 2; the text is not empty. A multi-page job holds
    as many images as the request's non-empty [num_pages] says, between 1
    and [MAX_PAGES], image [i] being the encoded upload [image_<i>]; a
    single-page job, started when [num_pages] is missing or empty, holds
    the encoded upload [image] alone. *)
Theorem create_tei_job_validated (request : HttpRequest) (w w1 : world)
    (response : JsonResponse) (job : tei_job) :
  create_tei request w = (w1, Ok (response, Some job)) →
  method request = py "POST"
  ∧ POST request !! "multimodal-llm-tei" = Some (tei_multimodal_llm job)
  ∧ tei_multimodal_llm job ∈ VALID_MODELS
  ∧ POST request !! "prompt-transformation-tei" = Some (tei_chosen_prompt job)
  ∧ tei_chosen_prompt job ∈ VALID_PROMPTS
  ∧ tei_mode job = default (py "RA") (POST request !! "mode")
  ∧ (tei_mode job = py "RA" ∨ tei_mode job = py "GL")
  ∧ (∃ q, tei_temperature job = FFin q ∧ (0 <= q)%Q ∧ (q <= 2)%Q)
  ∧ POST request !! "merged_text" = Some (tei_merged_text job)
  ∧ tei_merged_text job ≠ []
  ∧ (if tei_is_multipage job then
       ∃ num_pages N,
         POST request !! "num_pages" = Some num_pages ∧ num_pages ≠ []
         ∧ py_int num_pages = Some (Z.of_nat N) ∧ (1 ≤ N ≤ MAX_PAGES)%nat
         ∧ length (tei_images_base64 job) = N
         ∧ ∀ i, (i < N)%nat →
             ∃ u, FILES request !! image_key i = Some u
                  ∧ tei_images_base64 job !! i = Some (encode_image (latest u))
     else
       (POST request !! "num_pages" = None ∨ POST request !! "num_pages" = Some [])
       ∧ ∃ u, FILES request !! "image" = Some u
              ∧ tei_images_base64 job = [encode_image (latest u)]).
Proof.
  intros Hrun.
  destruct (create_tei_run request w)
    as [(msg & code & Hrej & _)|(job' & w1' & keys & t & Hacc & H')]; [congruence|].
  rewrite Hacc in Hrun. injection Hrun as <- <- <-.
  destruct H' as (? & ? & ? & ? & ? & ? & ? & Hrange & ? & ? & ? & Hmode & Himgs & _).
  split_and!; try done.
  - unfold VALID_MODES in Hmode. set_solver.
  - unfold temperature_in_range in Hrange.
    destruct (tei_temperature job') as [| |q]; try done.
    apply andb_true_iff in Hrange as [Hlo%Qle_bool_iff Hhi%Qle_bool_iff].
    exists q. done.
  - destruct (tei_is_multipage job'); [|done].
    destruct Himgs as (num_pages & N & ? & ? & HN & ? & ? & ?).
    exists num_pages, (Z.to_nat N). rewrite Z2Nat.id by lia.
    split_and!; try done; lia.
Qed.

(** X26. Accepting a request sweeps the store, and rejecting one does
    not. When either entry point starts a job, every record of another
    job that was created more than [PROCESS_ENTRY_TTL] seconds before the
    clock reading of the sweep is gone from the store afterwards, and
    every other record of another job is as it was: a status query for an
    old job can start to answer 404 because someone else uploaded. *)
Theorem accepted_request_sweeps_the_store (request : HttpRequest) (w : world) :
  let now := (env_time (env_uuid4 (ext w)).1).2 in
  let swept (w1 : world) (new : pystr) :=
    ∀ pid, pid ≠ new →
      process_status_store w1 !! pid
      = match process_status_store w !! pid with
        | Some data =>
          if expired (now - PROCESS_ENTRY_TTL) data then None else Some data
        | None => None
        end in
  match upload_image request w with
  | (w1, Ok (_, Some job)) => swept w1 (ocr_process_id job)
  | (w1, _) => w1 = w
  end
  ∧ match create_tei request w with
    | (w1, Ok (_, Some job)) => swept w1 (tei_process_id job)
    | (w1, _) => w1 = w
    end.
Proof.
  intros now swept.
  assert (∀ keys pid new record,
            (∀ k, k ∈ keys ↔
               ∃ data, process_status_store w !! k = Some data
                       ∧ expired (now - PROCESS_ENTRY_TTL) data = true) →
            pid ≠ new →
            <[new := record]> (foldl (λ m k, delete k m) (process_status_store w) keys) !! pid
            = match process_status_store w !! pid with
              | Some data =>
                if expired (now - PROCESS_ENTRY_TTL) data then None else Some data
              | None => None
              end) as Hswept.
  { intros keys pid new record Hkeys Hne.
    rewrite lookup_insert_ne by done. rewrite lookup_foldl_delete.
    destruct (process_status_store w !! pid) as [data|] eqn:Hd.
    - destruct (expired (now - PROCESS_ENTRY_TTL) data) eqn:He.
      + rewrite decide_True; [done|]. apply Hkeys. by exists data.
      + rewrite decide_False; [done|]. intros (d' & Hd' & He')%Hkeys. congruence.
    - by destruct (decide _). }
  split.
  - destruct (upload_image_run request w)
      as [[msg ->]|(job & w1 & keys & t & -> & H')]; [done|].
    destruct H' as (_ & _ & _ & _ & _ & _ & _ & _ & _ & _ & _ & _ & _ & Hstore & Hkeys).
    unfold swept. intros pid Hne. rewrite Hstore. by apply Hswept.
  - destruct (create_tei_run request w)
      as [(msg & code & -> & _)|(job & w1 & keys & t & -> & H')]; [done|].
    destruct H' as (_ & _ & _ & _ & _ & _ & _ & _ & _ & _ & _ & _ & _ & _ & _ & Hstore & Hkeys).
    unfold swept. intros pid Hne. rewrite Hstore. by apply Hswept.
Qed.

End WithEnv.

(** An upload at time 5000 removes the record created at time 1000. *)
Example upload_sweeps_old_record :
  let w1 := (upload_image (H := sim_env idle_config) two_page_request late_world).1 in
  process_status_store late_world !! py "job-0" = Some boundary_record
  ∧ process_status_store w1 !! py "job-0" = None
  ∧ process_status_store w1 !! py "job-1" = Some (ocr_initial_record 2 5000).
Proof. cbv zeta. split_and!; reflexivity. Qed.

Lemma upload_image_job_validated_witness :
  method two_page_request = py "POST"
  ∧ POST two_page_request !! "multimodal-llm-ocr" = Some (ocr_multimodal_llm two_page_job)
  ∧ ocr_multimodal_llm two_page_job ∈ VALID_MODELS
  ∧ POST two_page_request !! "mode" = Some (ocr_mode two_page_job)
  ∧ (ocr_mode two_page_job = py "RA" ∨ ocr_mode two_page_job = py "GL")
  ∧ (∃ q, ocr_temperature two_page_job = FFin q ∧ (0 <= q)%Q ∧ (q <= 2)%Q)
  ∧ POST two_page_request !! "transkribus-model" ≫= py_int (Env := sim_env two_page_config)
    = Some (ocr_transkribus_model two_page_job)
  ∧ ocr_images_base64 two_page_job
    = map (encode_image (Env := sim_env two_page_config)) (getlist two_page_request "images")
  ∧ ocr_total_pages two_page_job = length (ocr_images_base64 two_page_job)
  ∧ (1 ≤ ocr_total_pages two_page_job ≤ MAX_PAGES)%nat.
Proof.
  apply (upload_image_job_validated (H := sim_env two_page_config) two_page_request
           (sim_world0 two_page_config) two_page_world two_page_response two_page_job).
  reflexivity.
Defined.


Lemma create_tei_job_validated_witness :
  method two_image_tei_request = py "POST"
  ∧ POST two_image_tei_request !! "multimodal-llm-tei"
    = Some (tei_multimodal_llm two_image_tei_job)
  ∧ tei_multimodal_llm two_image_tei_job ∈ VALID_MODELS
  ∧ POST two_image_tei_request !! "prompt-transformation-tei"
    = Some (tei_chosen_prompt two_image_tei_job)
  ∧ tei_chosen_prompt two_image_tei_job ∈ VALID_PROMPTS
  ∧ tei_mode two_image_tei_job = default (py "RA") (POST two_image_tei_request !! "mode")
  ∧ (tei_mode two_image_tei_job = py "RA" ∨ tei_mode two_image_tei_job = py "GL")
  ∧ (∃ q, tei_temperature two_image_tei_job = FFin q ∧ (0 <= q)%Q ∧ (q <= 2)%Q)
  ∧ POST two_image_tei_request !! "merged_text" = Some (tei_merged_text two_image_tei_job)
  ∧ tei_merged_text two_image_tei_job ≠ []
  ∧ (if tei_is_multipage two_image_tei_job then
       ∃ num_pages N,
         POST two_image_tei_request !! "num_pages" = Some num_pages ∧ num_pages ≠ []
         ∧ py_int (Env := sim_env idle_config) num_pages = Some (Z.of_nat N)
         ∧ (1 ≤ N ≤ MAX_PAGES)%nat
         ∧ length (tei_images_base64 two_image_tei_job) = N
         ∧ ∀ i, (i < N)%nat →
             ∃ u, FILES two_image_tei_request !! image_key i = Some u
                  ∧ tei_images_base64 two_image_tei_job !! i
                    = Some (encode_image (Env := sim_env idle_config) (latest u))
     else
       (POST two_image_tei_request !! "num_pages" = None
        ∨ POST two_image_tei_request !! "num_pages" = Some [])
       ∧ ∃ u, FILES two_image_tei_request !! "image" = Some u
              ∧ tei_images_base64 two_image_tei_job
                = [encode_image (Env := sim_env idle_config) (latest u)]).
Proof.
  apply (create_tei_job_validated (H := sim_env idle_config) two_image_tei_request
           (sim_world0 idle_config)
           (create_tei (H := sim_env idle_config) two_image_tei_request
              (sim_world0 idle_config)).1
           (Json {[ "process_id" := VStr (py "job-0") ]} 200) two_image_tei_job).
  reflexivity.
Defined.

End EntryPointFacts.

(** ** The background jobs *)

Module JobOutcomes.
Import Processing Transkribus Views Sim JobLogic PollFacts OcrFacts JobFacts.
Section WithEnv.
Context `{!Env}.

Lemma store_set_run (w : world) pid key v d :
  process_status_store w !! pid = Some d →
  store_set pid key v w
  = (World (ext w) (<[pid := <[key := v]> d]> (process_status_store w))
       (log w ++ [EvWrite pid key v]), Ok tt).
Proof. intros Hd. unfold store_set. by rewrite Hd. Qed.

(** A trace that writes to no record but that of [pid] leaves the other
    records as they are. *)
Lemma replay_within_other (pid : pystr) (keys : list string) (evs : list event)
    (m : gmap pystr pydict) (pid' : pystr) :
  Forall (λ ev, writes_within pid keys ev = true) evs →
  pid' ≠ pid →
  replay evs m !! pid' = m !! pid'.
Proof.
  intros Hevs Hne. revert m. induction Hevs as [|ev evs Hev _ IH]; intros m; [done|].
  cbn [replay foldl]. fold (replay evs (replay_event ev m)). rewrite IH.
  destruct ev; try done. cbn [writes_within replay_event] in *.
  apply bool_decide_eq_true in Hev as [-> _]. by rewrite lookup_alter_ne.
Qed.

Lemma within_job_event pid keys evs :
  Forall (λ ev, writes_within pid keys ev = true) evs →
  Forall (λ ev, job_event ev = true) evs.
Proof. intros Hevs. eapply Forall_impl; [exact Hevs|]. by intros []. Qed.

(** The two ways a recognition job ends, and what it has written when it
    does not end. *)
Lemma process_ocr_run fuel schedule job d (w : world) :
  process_status_store w !! ocr_process_id job = Some d →
  ocr_total_pages job = length (ocr_images_base64 job) →
  d !! "results" = Some (VResults []) →
  ∃ evs,
    log (process_ocr fuel schedule job w).1 = log w ++ evs
    ∧ process_status_store (process_ocr fuel schedule job w).1
      = replay evs (process_status_store w)
    ∧ Forall (λ ev, writes_within (ocr_process_id job) ocr_keys ev = true) evs
    ∧ match (process_ocr fuel schedule job w).2 with
      | Ok _ => (∃ page_results, ocr_completed job evs page_results)
                ∨ (∃ e, ocr_failed job evs e)
      | Raise _ => False
      | Diverge => True
      end.
Proof.
  intros Hd Htotal Hres.
  destruct (process_ocr_spec fuel schedule job d Htotal Hres w Hd)
    as (evs & Hlog & Hst & Hje & HQ).
  exists evs. split; [done|]. split; [done|].
  assert (ocr_status_keys ⊆ ocr_keys) as Hsub by (unfold ocr_status_keys, ocr_keys; set_solver).
  destruct (process_ocr fuel schedule job w).2 as [[]|e|]; [|done|].
  - split; [|done].
    destruct HQ as [[prs (pids & evs_before & -> & Hbefore & _)]|[e (body & -> & Hbody)]].
    + apply Forall_app_2; [by eapply within_weaken|].
      repeat apply Forall_cons_2; try apply Forall_nil_2;
        cbn [writes_within]; apply bool_decide_eq_true_2; (split; [done|]);
        unfold ocr_keys; set_solver.
    + apply Forall_app_2; [by eapply within_weaken|].
      repeat apply Forall_cons_2; try apply Forall_nil_2;
        cbn [writes_within]; apply bool_decide_eq_true_2; (split; [done|]);
        unfold ocr_keys; set_solver.
  - split; [|done]. by eapply within_weaken.
Qed.


(** X10. Whatever happens in a recognition job, also when it does not
    end, it touches nothing but five fields of its own record: the other
    records of the store are as before, its own record still exists with
    the fields outside [status], [transkribus_status], [mllm_status],
    [results] and [error] unchanged, and the job creates and deletes no
    record, draws no identifier and does not read the clock. *)
Theorem process_ocr_touches_only_its_record (w : world) (fuel : nat) (schedule : list nat)
    (job : ocr_job) (d : pydict) :
  process_status_store w !! ocr_process_id job = Some d →
  ocr_total_pages job = length (ocr_images_base64 job) →
  d !! "results" = Some (VResults []) →
  let w2 := (process_ocr fuel schedule job w).1 in
  (∀ pid', pid' ≠ ocr_process_id job →
     process_status_store w2 !! pid' = process_status_store w !! pid')
  ∧ (∃ d2, process_status_store w2 !! ocr_process_id job = Some d2
           ∧ ∀ key, key ∉ ocr_keys → d2 !! key = d !! key)
  ∧ ∃ evs, log w2 = log w ++ evs
           ∧ Forall (λ ev, match ev with
                           | EvCreate _ _ | EvDelete _ | EvUuid _ | EvTime _ => False
                           | EvWrite pid' key _ =>
                             pid' = ocr_process_id job ∧ key ∈ ocr_keys
                           | _ => True
                           end) evs.
Proof.
  intros Hd Htotal Hres w2.
  destruct (process_ocr_run fuel schedule job d w Hd Htotal Hres)
    as (evs & Hlog & Hst & Hwithin & _).
  fold w2 in Hlog, Hst. split_and!.
  - intros pid' Hne. rewrite Hst. by eapply replay_within_other.
  - eexists. split.
    + rewrite Hst. by apply replay_job_record; [eapply within_job_event|].
    + intros key Hkey. by eapply apply_writes_other_key.
  - exists evs. split; [done|]. eapply Forall_impl; [exact Hwithin|].
    intros [] Hev; try done. cbn [writes_within] in Hev.
    by apply bool_decide_eq_true in Hev.
Qed.

(** What an annotation job does, in full. *)
Lemma process_tei_run (w : world) job d :
  process_status_store w !! tei_process_id job = Some d →
  let pid := tei_process_id job in
  process_tei job w
  = match tei_answer job with
    | inr answer =>
      let result_tei := remove_first_empty_line answer in
      (World (ext w)
         (<[pid := <["result_text_content_only" := VStr (text_content_only result_tei)]>
                     (<["result_tei" := VStr result_tei]>
                       (<["tei_status" := VStr (py "FINISHED")]>
                         (<["status" := VStr (py "Verarbeitung abgeschlossen")]> d)))]>
            (process_status_store w))
         (log w ++ [tei_started pid;
                    EvWrite pid "status" (VStr (py "Verarbeitung abgeschlossen"));
                    EvWrite pid "tei_status" (VStr (py "FINISHED"));
                    EvWrite pid "result_tei" (VStr result_tei);
                    EvWrite pid "result_text_content_only"
                      (VStr (text_content_only result_tei))]),
       Ok tt)
    | inl e =>
      (World (ext w)
         (<[pid := <["tei_status" := VStr (py "ERROR")]>
                     (<["error" := VStr (str_exn e)]>
                       (<["status" := VStr (py "Fehler: " ++ str_exn e)]> d))]>
            (process_status_store w))
         (log w ++ tei_started pid :: tei_failure_writes pid e),
       Ok tt)
    end.
Proof.
  intros Hd pid. unfold process_tei, process_tei_body, try_except. fold pid.
  unfold bind at 1. rewrite (store_set_run w pid _ _ d Hd).
  set (w1 := World _ _ _).
  assert (process_status_store w1 !! pid
          = Some (<["status" := VStr (py "TEI-XML wird generiert...")]> d)) as Hd1.
  { unfold w1. cbn [process_status_store]. by rewrite lookup_insert_eq. }
  assert (∀ e,
    (let* _ := store_set pid "status" (VStr (py "Fehler: " ++ str_exn e)) in
     let* _ := store_set pid "error" (VStr (str_exn e)) in
     store_set pid "tei_status" (VStr (py "ERROR"))) w1
    = (World (ext w)
         (<[pid := <["tei_status" := VStr (py "ERROR")]>
                     (<["error" := VStr (str_exn e)]>
                       (<["status" := VStr (py "Fehler: " ++ str_exn e)]> d))]>
            (process_status_store w))
         (log w ++ tei_started pid :: tei_failure_writes pid e),
       Ok tt)) as Hfail.
  { intros e. unfold bind. rewrite (store_set_run w1 pid _ _ _ Hd1).
    erewrite store_set_run by (cbn [process_status_store]; apply lookup_insert_eq).
    erewrite store_set_run by (cbn [process_status_store]; apply lookup_insert_eq).
    unfold w1, tei_failure_writes, tei_started.
    cbn [ext process_status_store log].
    rewrite !insert_insert_eq. rewrite <- !app_assoc. reflexivity. }
  assert (∀ image_data,
    tei_answer job
    = get_tei_from_mllm (tei_multimodal_llm job) image_data (tei_merged_text job)
        (tei_chosen_prompt job) (tei_custom_prompt_text job) (tei_temperature job)
        (tei_mode job) →
    match
      (let* result_tei :=
         call (get_tei_from_mllm (tei_multimodal_llm job) image_data
                 (tei_merged_text job) (tei_chosen_prompt job)
                 (tei_custom_prompt_text job) (tei_temperature job) (tei_mode job)) in
       let result_tei := remove_first_empty_line result_tei in
       let result_text_content_only :=
         remove_first_empty_line
           (remove_specific_string
              (strip_lines (remove_empty_lines (remove_accent (remove_xml_tags result_tei))))
              default_string_to_remove) in
       let* _ := store_set pid "status" (VStr (py "Verarbeitung abgeschlossen")) in
       let* _ := store_set pid "tei_status" (VStr (py "FINISHED")) in
       let* _ := store_set pid "result_tei" (VStr result_tei) in
       store_set pid "result_text_content_only" (VStr result_text_content_only)) w1
    with
    | (w', Raise e) =>
      (let* _ := store_set pid "status" (VStr (py "Fehler: " ++ str_exn e)) in
       let* _ := store_set pid "error" (VStr (str_exn e)) in
       store_set pid "tei_status" (VStr (py "ERROR"))) w'
    | other => other
    end
    = match tei_answer job with
      | inr answer =>
        let result_tei := remove_first_empty_line answer in
        (World (ext w)
           (<[pid := <["result_text_content_only" := VStr (text_content_only result_tei)]>
                       (<["result_tei" := VStr result_tei]>
                         (<["tei_status" := VStr (py "FINISHED")]>
                           (<["status" := VStr (py "Verarbeitung abgeschlossen")]> d)))]>
              (process_status_store w))
           (log w ++ [tei_started pid;
                      EvWrite pid "status" (VStr (py "Verarbeitung abgeschlossen"));
                      EvWrite pid "tei_status" (VStr (py "FINISHED"));
                      EvWrite pid "result_tei" (VStr result_tei);
                      EvWrite pid "result_text_content_only"
                        (VStr (text_content_only result_tei))]),
         Ok tt)
      | inl e =>
        (World (ext w)
           (<[pid := <["tei_status" := VStr (py "ERROR")]>
                       (<["error" := VStr (str_exn e)]>
                         (<["status" := VStr (py "Fehler: " ++ str_exn e)]> d))]>
              (process_status_store w))
           (log w ++ tei_started pid :: tei_failure_writes pid e),
         Ok tt)
      end) as Hcall.
  { intros image_data ->. unfold bind at 1.
    destruct (get_tei_from_mllm _ _ _ _ _ _ _) as [e|answer]; cbn [call raise ret].
    - apply Hfail.
    - cbv zeta. unfold bind. rewrite (store_set_run w1 pid _ _ _ Hd1).
      erewrite store_set_run by (cbn [process_status_store]; apply lookup_insert_eq).
      erewrite store_set_run by (cbn [process_status_store]; apply lookup_insert_eq).
      erewrite store_set_run by (cbn [process_status_store]; apply lookup_insert_eq).
      unfold w1, tei_started, text_content_only. cbn [ext process_status_store log].
      rewrite !insert_insert_eq. rewrite <- !app_assoc. reflexivity. }
  unfold bind at 1. unfold tei_answer in *.
  destruct (tei_is_multipage job).
  - cbn [ret]. by apply Hcall.
  - unfold bind at 1, index. destruct (tei_images_base64 job) as [|image images].
    + cbn [lookup list_lookup raise]. apply Hfail.
    + cbn [lookup list_lookup ret]. by apply Hcall.
Qed.

(** X11. An annotation job always ends, and never by an exception. Its
    record then shows a terminal [tei_status]: FINISHED, with [result_tei]
    the model's answer without its first line when that is blank and
    [result_text_content_only] the plain text cleaned from it, exactly
    when the model call succeeded; ERROR, with the error text in [error]
    and after [Fehler: ] in [status], when the call failed or a
    single-page job has no image. Nothing else in the store changes. *)
Theorem process_tei_final_record (w : world) (job : tei_job) (d : pydict) :
  process_status_store w !! tei_process_id job = Some d →
  ∃ w2 d2,
    process_tei job w = (w2, Ok tt)
    ∧ ext w2 = ext w
    ∧ process_status_store w2 = <[tei_process_id job := d2]> (process_status_store w)
    ∧ (∀ key, key ∉ tei_keys → d2 !! key = d !! key)
    ∧ match tei_answer job with
      | inr answer =>
        d2 !! "tei_status" = Some (VStr (py "FINISHED"))
        ∧ d2 !! "status" = Some (VStr (py "Verarbeitung abgeschlossen"))
        ∧ d2 !! "result_tei" = Some (VStr (remove_first_empty_line answer))
        ∧ d2 !! "result_text_content_only"
          = Some (VStr (text_content_only (remove_first_empty_line answer)))
        ∧ d2 !! "error" = d !! "error"
      | inl e =>
        d2 !! "tei_status" = Some (VStr (py "ERROR"))
        ∧ d2 !! "status" = Some (VStr (py "Fehler: " ++ str_exn e))
        ∧ d2 !! "error" = Some (VStr (str_exn e))
        ∧ d2 !! "result_tei" = d !! "result_tei"
        ∧ d2 !! "result_text_content_only" = d !! "result_text_content_only"
      end.
Proof.
  intros Hd. rewrite (process_tei_run w job d Hd).
  destruct (tei_answer job) as [e|answer]; cbv zeta.
  - eexists _, _. split; [reflexivity|]. cbn [ext process_status_store].
    split; [done|]. split; [reflexivity|]. split.
    { intros key Hkey. unfold tei_keys in Hkey.
      rewrite !lookup_insert_ne by set_solver. done. }
    split_and!.
    + by rewrite lookup_insert_eq.
    + rewrite !lookup_insert_ne by done. by rewrite lookup_insert_eq.
    + rewrite !lookup_insert_ne by done. by rewrite lookup_insert_eq.
    + by rewrite !lookup_insert_ne by done.
    + by rewrite !lookup_insert_ne by done.
  - eexists _, _. split; [reflexivity|]. cbn [ext process_status_store].
    split; [done|]. split; [reflexivity|]. split.
    { intros key Hkey. unfold tei_keys in Hkey.
      rewrite !lookup_insert_ne by set_solver. done. }
    split_and!.
    + rewrite !lookup_insert_ne by done. by rewrite lookup_insert_eq.
    + rewrite !lookup_insert_ne by done. by rewrite lookup_insert_eq.
    + rewrite !lookup_insert_ne by done. by rewrite lookup_insert_eq.
    + by rewrite lookup_insert_eq.
    + by rewrite !lookup_insert_ne by done.
Qed.

(** X12. A job whose record is no longer in the store, as after a sweep,
    cannot even report its failure: the first write raises [KeyError],
    the handler's write raises it again, and the exception leaves the job
    with the store and the trace untouched. *)
Theorem job_without_record_raises (w : world) :
  (∀ fuel schedule job,
     process_status_store w !! ocr_process_id job = None →
     process_ocr fuel schedule job w = (w, Raise (KeyError (ocr_process_id job))))
  ∧ (∀ job,
       process_status_store w !! tei_process_id job = None →
       process_tei job w = (w, Raise (KeyError (tei_process_id job)))).
Proof.
  split.
  - intros fuel schedule job Hnone.
    unfold process_ocr, process_ocr_body, try_except.
    unfold bind at 1. unfold store_set at 1. rewrite Hnone. cbn [negb].
    unfold bind, store_set. by rewrite Hnone.
  - intros job Hnone.
    unfold process_tei, process_tei_body, try_except.
    unfold bind at 1. unfold store_set at 1. rewrite Hnone.
    unfold bind, store_set. by rewrite Hnone.
Qed.

End WithEnv.


Lemma process_ocr_touches_only_its_record_witness :
  let w2 := two_page_run.1 in
  (∀ pid', pid' ≠ ocr_process_id two_page_job →
     process_status_store w2 !! pid' = process_status_store two_page_world !! pid')
  ∧ (∃ d2, process_status_store w2 !! ocr_process_id two_page_job = Some d2
           ∧ ∀ key, key ∉ ocr_keys → d2 !! key = ocr_initial_record 2 0 !! key)
  ∧ ∃ evs, log w2 = log two_page_world ++ evs
           ∧ Forall (λ ev, match ev with
                           | EvCreate _ _ | EvDelete _ | EvUuid _ | EvTime _ => False
                           | EvWrite pid' key _ =>
                             pid' = ocr_process_id two_page_job ∧ key ∈ ocr_keys
                           | _ => True
                           end) evs.
Proof.
  apply (process_ocr_touches_only_its_record (H := sim_env two_page_config) two_page_world
           10 [1; 0]%nat two_page_job (ocr_initial_record 2 0)); reflexivity.
Defined.

Lemma process_tei_final_record_witness :
  ∃ w2 d2,
    process_tei (H := sim_env failing_tei_config) example_tei_job
      (tei_world failing_tei_config) = (w2, Ok tt)
    ∧ ext w2 = ext (tei_world failing_tei_config)
    ∧ process_status_store w2
      = <[tei_process_id example_tei_job := d2]>
          (process_status_store (tei_world failing_tei_config))
    ∧ (∀ key, key ∉ tei_keys → d2 !! key = boundary_record !! key)
    ∧ match tei_answer (H := sim_env failing_tei_config) example_tei_job with
      | inr answer =>
        d2 !! "tei_status" = Some (VStr (py "FINISHED"))
        ∧ d2 !! "status" = Some (VStr (py "Verarbeitung abgeschlossen"))
        ∧ d2 !! "result_tei" = Some (VStr (remove_first_empty_line answer))
        ∧ d2 !! "result_text_content_only"
          = Some (VStr (text_content_only (remove_first_empty_line answer)))
        ∧ d2 !! "error" = boundary_record !! "error"
      | inl e =>
        d2 !! "tei_status" = Some (VStr (py "ERROR"))
        ∧ d2 !! "status" = Some (VStr (py "Fehler: " ++ str_exn e))
        ∧ d2 !! "error" = Some (VStr (str_exn e))
        ∧ d2 !! "result_tei" = boundary_record !! "result_tei"
        ∧ d2 !! "result_text_content_only" = boundary_record !! "result_text_content_only"
      end.
Proof.
  apply (process_tei_final_record (H := sim_env failing_tei_config)
           (tei_world failing_tei_config) example_tei_job boundary_record); reflexivity.
Defined.

End JobOutcomes.

(** ** Polling and submission *)

Module PollOutcomes.
Import Processing Transkribus Views Sim JobLogic PollFacts OcrFacts JobFacts.
Section WithEnv.
Context `{!Env}.

(** The requests of one status check: when it returns, the answer it
    returns is the last effect, and no earlier request was answered. *)
Lemma check_process_status_with_retry_answers pid d pid_i headers username password :
  job_spec pid d (check_process_status_with_retry pid_i headers username password)
    (λ r evs,
      match r with
      | Ok (response, headers') =>
        ∃ pre, evs = pre ++ [EvGet (status_url pid_i) headers' (inr response)]
               ∧ Forall (λ ev, error_answer ev = false) pre
      | _ => Forall (λ ev, error_answer ev = false) evs
      end).
Proof.
  unfold check_process_status_with_retry.
  eapply job_try_except with
    (Q1 := λ r evs, ∃ out, evs = [EvGet (status_url pid_i) headers out]
             ∧ r = match out with inl e => Raise e | inr x => Ok (x, headers) end).
  - eapply job_bind with
      (Q1 := λ r evs, ∃ out, evs = [EvGet (status_url pid_i) headers out]
               ∧ r = match out with inl e => Raise e | inr x => Ok x end).
    + apply job_requests_get_json. intros out. by exists out.
    + intros a evs1 (out & -> & Hr). apply job_ret.
      exists out. rewrite app_nil_r. split; [done|]. by destruct out; simplify_eq.
    + intros e evs1 (out & -> & Hr). exists out. by destruct out; simplify_eq.
    + intros evs1 (out & -> & Hr). by destruct out.
  - intros e evs1 (out & -> & Hr) _. destruct out as [e0|]; [|done].
    case_bool_decide.
    + eapply job_bind with
        (Q1 := λ r evs, ∃ o, evs = [EvLogin username password o]).
      * apply job_transkribus_login. intros o. by exists o.
      * intros token evs2 [o ->].
        eapply job_bind with
          (Q1 := λ r evs, ∃ o, evs = [EvGet (status_url pid_i) (auth_headers token) o]
                   ∧ r = match o with inl e => Raise e | inr x => Ok x end).
        -- apply job_requests_get_json. intros o'. by exists o'.
        -- intros a evs3 (o' & -> & Hr'). apply job_ret. rewrite app_nil_r.
           destruct o' as [|response]; simplify_eq.
           exists [EvGet (status_url pid_i) headers (inl e0); EvLogin username password o].
           split; [done|]. by repeat constructor.
        -- intros e' evs3 (o' & -> & Hr'). destruct o'; simplify_eq.
           by repeat constructor.
        -- intros evs3 (o' & -> & Hr'). by destruct o'.
      * intros e' evs2 [o ->]. by repeat constructor.
      * intros evs2 [o ->]. by repeat constructor.
    + apply job_raise. by repeat constructor.
  - intros e evs1 (out & -> & Hr) _. destruct out; [|done]. by repeat constructor.
  - intros [response headers'] evs1 (out & -> & Hr). destruct out; simplify_eq.
    exists []. by split.
  - intros evs1 (out & -> & Hr). by destruct out.
Qed.

Lemma poll_aborted_app {A} pid pids evs1 evs2 (r : result A) :
  Forall (λ ev, error_answer ev = false) evs1 →
  poll_aborted pid pids evs2 r → poll_aborted pid pids (evs1 ++ evs2) r.
Proof.
  intros Hclean (pre & h & response & i & pid_i & -> & Hpre & ? & ? & ?).
  exists (evs1 ++ pre), h, response, i, pid_i. rewrite <- app_assoc.
  split_and!; try done. by apply Forall_app_2.
Qed.

Lemma poll_aborted_Raise {A B} pid pids evs e :
  poll_aborted (A := A) pid pids evs (Raise e) →
  poll_aborted (A := B) pid pids evs (Raise e).
Proof.
  intros (pre & h & response & i & pid_i & -> & Hpre & ? & ? & [= ->]).
  by exists pre, h, response, i, pid_i.
Qed.

Lemma poll_aborted_Diverge {A} pid pids evs : ¬ poll_aborted (A := A) pid pids evs Diverge.
Proof. by intros (pre & h & response & i & pid_i & _ & _ & _ & _ & ?). Qed.

(** The outcome of one iteration: no request was answered ERROR, or the
    first such answer has ended the polling. *)
Lemma poll_page_outcome pid d username password total pids i pid_i st :
  pids !! i = Some pid_i →
  job_spec pid d (poll_page pid username password total i pid_i st)
    (λ r evs,
      match r with
      | Ok _ => Forall (λ ev, error_answer ev = false) evs
      | _ => Forall (λ ev, error_answer ev = false) evs ∨ poll_aborted pid pids evs r
      end).
Proof.
  intros Hpid. unfold poll_page.
  destruct (results st !! i) as [[t|]|] eqn:Hi.
  - by apply job_ret.
  - eapply job_bind; [apply check_process_status_with_retry_answers|..].
    + intros [response headers'] evs1 (pre & -> & Hpre).
      case_bool_decide as Hfin.
      * assert (Forall (λ ev, error_answer ev = false)
                  (pre ++ [EvGet (status_url pid_i) headers' (inr response)])) as Hclean.
        { apply Forall_app_2; [done|]. repeat constructor. cbn [error_answer].
          apply bool_decide_eq_false_2. rewrite Hfin. by intros [= ?%(inj py)]. }
        rewrite (get_process_result_finished _ Hfin).
        destruct (resp_text response) as [text|] eqn:Htext.
        -- apply job_bind_ret, job_bind_store_set, job_ret.
           apply Forall_app_2; [done|]. by repeat constructor.
        -- apply job_bind_raise. rewrite app_nil_r. by left.
      * case_bool_decide as Herr.
        -- apply job_bind_store_set, job_bind_store_set, job_raise. right.
           exists pre, headers', response, i, pid_i. rewrite <- app_assoc.
           by split_and!.
        -- apply job_ret. rewrite app_nil_r.
           apply Forall_app_2; [done|]. repeat constructor. cbn [error_answer].
           by apply bool_decide_eq_false_2.
    + intros e evs1 Hclean. by left.
    + intros evs1 Hclean. by left.
  - apply job_raise. by left.
Qed.

Lemma poll_round_outcome pid d username password total pids_all i pids st :
  (∀ j pid_j, pids !! j = Some pid_j → pids_all !! (i + j)%nat = Some pid_j) →
  job_spec pid d (poll_round pid username password total i pids st)
    (λ r evs,
      match r with
      | Ok _ => Forall (λ ev, error_answer ev = false) evs
      | _ => Forall (λ ev, error_answer ev = false) evs ∨ poll_aborted pid pids_all evs r
      end).
Proof.
  revert d i st. induction pids as [|pid_i pids IH]; intros d i st Hpids; cbn [poll_round].
  - by apply job_ret.
  - eapply job_bind.
    + apply (poll_page_outcome _ _ _ _ _ pids_all). specialize (Hpids 0%nat pid_i eq_refl).
      by rewrite Nat.add_0_r in Hpids.
    + intros st' evs1 Hclean. cbn beta in Hclean. eapply job_conseq.
      * apply IH. intros j pid_j Hj. rewrite Nat.add_succ_comm. by apply (Hpids (S j)).
      * intros [st''| |] evs2 H2; cbn beta.
        -- by apply Forall_app_2.
        -- destruct H2 as [H2|H2]; [left; by apply Forall_app_2|].
           right. by apply poll_aborted_app.
        -- destruct H2 as [H2|H2]; [left; by apply Forall_app_2|].
           right. by apply poll_aborted_app.
    + intros e evs1 H1. done.
    + intros evs1 H1. done.
Qed.

Lemma poll_loop_outcome fuel pid d username password total pids interval st :
  job_spec pid d (poll_loop fuel pids pid username password total interval st)
    (λ r evs,
      match r with
      | Ok _ => Forall (λ ev, error_answer ev = false) evs
      | _ => Forall (λ ev, error_answer ev = false) evs ∨ poll_aborted pid pids evs r
      end).
Proof.
  revert d interval st. induction fuel as [|fuel IH]; intros d interval st; cbn [poll_loop].
  - destruct (_ <? _)%nat; [apply job_diverge; by left|by apply job_ret].
  - destruct (_ <? _)%nat; [|by apply job_ret].
    eapply job_bind with (Q1 := λ r evs, evs = [EvSleep interval]).
    + by apply job_time_sleep.
    + intros [] evs1 ->. cbv zeta. eapply job_bind.
      * apply (poll_round_outcome _ _ _ _ _ pids). by intros j pid_j Hj.
      * intros st' evs2 H2. cbn beta in H2. eapply job_conseq; [apply IH|].
        intros [res| |] evs3 H3; cbn beta.
        -- constructor; [done|]. by apply Forall_app_2.
        -- destruct H3 as [H3|H3].
           ++ left. constructor; [done|]. by apply Forall_app_2.
           ++ right. apply (poll_aborted_app _ _ [EvSleep interval]); [by repeat constructor|].
              by apply poll_aborted_app.
        -- destruct H3 as [H3|H3].
           ++ left. constructor; [done|]. by apply Forall_app_2.
           ++ right. apply (poll_aborted_app _ _ [EvSleep interval]); [by repeat constructor|].
              by apply poll_aborted_app.
      * intros e evs2 [H2|H2]; cbn beta.
        -- left. by constructor.
        -- right. apply (poll_aborted_app _ _ [EvSleep interval]); [by repeat constructor|].
           by eapply poll_aborted_Raise.
      * intros evs2 [H2|H2]; cbn beta.
        -- left. by constructor.
        -- by apply poll_aborted_Diverge in H2.
    + intros e evs1 ->. left. by repeat constructor.
    + intros evs1 ->. left. by repeat constructor.
Qed.

(** X13. Polling stops at the first status answer that says ERROR. Either
    no request of the run was answered ERROR; or the first such answer,
    for the HTR job of some page [i], is the last request of the run: it
    is followed by exactly two writes, a [status] naming page [i + 1] and
    [transkribus_status] ERROR, and polling raises a [RuntimeError]
    naming that page, leaving these two values in the record. *)
Theorem htr_error_aborts_polling (w : world) (fuel : nat) (process_ids : list pystr)
    (headers : headers_t) (username password process_id : pystr) (total_pages : nat)
    (d : pydict) :
  process_status_store w !! process_id = Some d →
  let run := _poll_transkribus_jobs fuel process_ids headers username password
               process_id total_pages w in
  ∃ evs,
    log run.1 = log w ++ evs
    ∧ (Forall (λ ev, error_answer ev = false) evs
       ∨ ∃ pre headers' response i pid_i d2,
           evs = pre ++ EvGet (status_url pid_i) headers' (inr response)
                        :: abort_writes process_id i
           ∧ Forall (λ ev, error_answer ev = false) pre
           ∧ process_ids !! i = Some pid_i
           ∧ resp_status response = Some (py "ERROR")
           ∧ run.2 = Raise (RuntimeError
                              (py "Transkribus processing failed for page "
                               ++ str_nat (i + 1)))
           ∧ process_status_store run.1 !! process_id = Some d2
           ∧ d2 !! "status"
             = Some (VStr (py "Fehler bei der Texterkennung bei Seite " ++ str_nat (i + 1)))
           ∧ d2 !! "transkribus_status" = Some (VStr (py "ERROR"))).
Proof.
  intros Hd run.
  destruct (poll_loop_outcome fuel process_id d username password total_pages process_ids 5
              (PollState (replicate total_pages None) 0 headers) w Hd)
    as (evs & Hlog & Hst & Hje & HQ).
  fold (_poll_transkribus_jobs fuel process_ids headers username password process_id
          total_pages) in Hlog, Hst, HQ.
  fold run in Hlog, Hst, HQ.
  exists evs. split; [done|].
  assert (Forall (λ ev, error_answer ev = false) evs ∨ poll_aborted process_id process_ids evs run.2)
    as [Hclean|Habort].
  { destruct run.2; [by left|done..]. }
  - by left.
  - right. destruct Habort as (pre & h & response & i & pid_i & -> & Hpre & Hi & Herr & Hr).
    pose proof (replay_job_record _ _ _ _ Hje Hd) as Hrec. rewrite <- Hst in Hrec.
    eexists pre, h, response, i, pid_i, _. split_and!; try done.
    + rewrite apply_writes_app. cbn [apply_writes foldl write_to abort_writes].
      rewrite !decide_True by done. rewrite lookup_insert_ne by done.
      by rewrite lookup_insert_eq.
    + rewrite apply_writes_app. cbn [apply_writes foldl write_to abort_writes].
      rewrite !decide_True by done. by rewrite lookup_insert_eq.
Qed.

(** The submission loop: the images are submitted in order until one
    submission fails. *)
Lemma submit_images_run access_token model_id images pids0 headers0 (w : world) :
  let run := submit_images access_token model_id images pids0 headers0 w in
  process_status_store run.1 = process_status_store w
  ∧ ∃ pids,
      (run.2 = Ok (pids0 ++ pids,
                   match images with [] => headers0 | _ => auth_headers access_token end)
       ∧ length pids = length images
       ∧ log run.1 = log w ++ submit_events access_token model_id images pids)
      ∨ (∃ e image,
           run.2 = Raise e
           ∧ images !! length pids = Some image
           ∧ log run.1 = log w ++ submit_events access_token model_id images pids
                         ++ [EvSubmit (auth_headers access_token) image model_id (inl e)]).
Proof.
  revert pids0 headers0 w. induction images as [|image images IH]; intros pids0 headers0 w.
  - cbn. split; [done|]. exists []. left. by rewrite !app_nil_r.
  - cbv zeta. cbn [submit_images]. unfold bind, start_recognition_process.
    destruct (http_post_process (ext w) (auth_headers access_token) image model_id)
      as [x [e|p]] eqn:Hpost; cbn zeta.
    + cbn [fst snd]. split; [done|]. exists []. right. exists e, image.
      split_and!; done.
    + destruct (IH (pids0 ++ [p]) (auth_headers access_token)
                  (emit (EvSubmit (auth_headers access_token) image model_id (inr p))
                     (World x (process_status_store w) (log w))))
        as [Hstore [pids Hrun]].
      cbv zeta in *. split; [by rewrite Hstore|]. exists (p :: pids).
      unfold emit in *. cbn [log ext process_status_store] in *.
      destruct Hrun as [(Hr & Hlen & Hlog)|(e & image' & Hr & Himage & Hlog)].
      * left. rewrite Hr, Hlog, <- !app_assoc. cbn [length]. rewrite Hlen.
        split_and!; try done. by destruct images.
      * right. exists e, image'. rewrite Hr, Hlog, <- !app_assoc. done.
Qed.

(** X14. [_start_transkribus_jobs] logs in exactly once, before anything
    else, with the RA credentials for the mode RA and the GL credentials
    for every other mode. When the log-in fails nothing is submitted. Then
    the images are submitted in their order, each with the token of that
    log-in and the given model, until the first submission that fails:
    that failure is raised and no later image is submitted. When all have
    succeeded, the process identifiers are returned in the order of the
    images. The store is never touched. *)
Theorem start_transkribus_jobs_trace (w : world) (images_base64 : list pystr)
    (transkribus_model : Z) (mode : pystr) :
  let username :=
    if bool_decide (mode = py "RA") then USERNAME_TRANSKRIBUS_RA
    else USERNAME_TRANSKRIBUS_GL in
  let password :=
    if bool_decide (mode = py "RA") then PASSWORD_TRANSKRIBUS_RA
    else PASSWORD_TRANSKRIBUS_GL in
  let login := (http_post_token (ext w) username password).2 in
  let run := _start_transkribus_jobs images_base64 transkribus_model mode w in
  process_status_store run.1 = process_status_store w
  ∧ match login with
    | inl e => run.2 = Raise e ∧ log run.1 = log w ++ [EvLogin username password login]
    | inr access_token =>
      ∃ pids,
        (run.2 = Ok (pids,
                     match images_base64 with
                     | [] => ∅
                     | _ => auth_headers access_token
                     end, username, password)
         ∧ length pids = length images_base64
         ∧ log run.1 = log w ++ EvLogin username password login
                       :: submit_events access_token transkribus_model images_base64 pids)
        ∨ (∃ e image,
             run.2 = Raise e
             ∧ images_base64 !! length pids = Some image
             ∧ log run.1
               = log w ++ EvLogin username password login
                 :: submit_events access_token transkribus_model images_base64 pids
                 ++ [EvSubmit (auth_headers access_token) image transkribus_model (inl e)])
    end.
Proof.
  intros username password login run.
  assert (run = match http_post_token (ext w) username password with
                | (x, inl e) =>
                  (emit (EvLogin username password (inl e))
                     (World x (process_status_store w) (log w)), Raise e)
                | (x, inr access_token) =>
                  bind (submit_images access_token transkribus_model images_base64 [] ∅)
                    (λ '(process_ids, headers), ret (process_ids, headers, username, password))
                    (emit (EvLogin username password (inr access_token))
                       (World x (process_status_store w) (log w)))
                end) as ->.
  { unfold run, _start_transkribus_jobs, pystr_eqb. fold username password.
    unfold bind at 1. unfold transkribus_login.
    by destruct (http_post_token (ext w) username password) as [x [e|access_token]]. }
  unfold login.
  destruct (http_post_token (ext w) username password) as [x [e|access_token]];
    cbn [fst snd].
  - by split.
  - destruct (submit_images_run access_token transkribus_model images_base64 [] ∅
                (emit (EvLogin username password (inr access_token))
                   (World x (process_status_store w) (log w))))
      as [Hstore [pids Hrun]].
    cbv zeta in *. unfold bind.
    destruct (submit_images _ _ _ _ _ _) as [w' r]. cbn [fst snd] in *.
    unfold emit in *. cbn [log ext process_status_store] in *.
    destruct Hrun as [(-> & Hlen & Hlog)|(e & image & -> & Himage & Hlog)].
    + cbn [fst snd ret]. split; [done|]. exists pids. left.
      rewrite Hlog, <- app_assoc. done.
    + cbn [fst snd]. split; [done|]. exists pids. right. exists e, image.
      rewrite Hlog, <- !app_assoc. done.
Qed.

(** One iteration for a page whose HTR job has finished. *)
Lemma poll_page_finished (w : world) pid username password total i pid_i st d text :
  process_status_store w !! pid = Some d →
  results st !! i = Some None →
  (http_get_status (ext w) (status_url pid_i) (headers st)).2
  = inr (StatusResponse (Some (py "FINISHED")) (Some text)) →
  ∃ w' evs,
    poll_page pid username password total i pid_i st w
    = (w', Ok (PollState (<[i := Some text]> (results st)) (S (finished_count st))
                 (headers st)))
    ∧ is_Some (process_status_store w' !! pid)
    ∧ log w' = log w ++ evs ∧ sleeps evs = [].
Proof.
  intros Hd Hi Hget. unfold poll_page. rewrite Hi.
  unfold bind at 1. unfold check_process_status_with_retry, try_except.
  unfold bind at 1. unfold requests_get_json.
  destruct (http_get_status (ext w) (status_url pid_i) (headers st)) as [x out].
  cbn [snd] in Hget. subst out. cbn [ret resp_status].
  rewrite bool_decide_true by done.
  unfold bind at 1. unfold get_process_result. cbn [resp_status resp_text].
  rewrite bool_decide_false by (by intros [= ?%(inj py)]).
  rewrite bool_decide_true by done. cbn [negb ret].
  unfold bind, store_set, emit. cbn [process_status_store ext log]. rewrite Hd.
  eexists _, _. split; [reflexivity|]. cbn [process_status_store log].
  rewrite lookup_insert_eq. split; [by eexists|]. split.
  - rewrite <- app_assoc. reflexivity.
  - done.
Qed.

(** One round over pages whose HTR jobs have all finished. *)
Lemma poll_round_finished pid username password total rest :
  ∀ i done st (w : world),
    (∀ x pid_i h, pid_i ∈ rest →
       ∃ text, (http_get_status x (status_url pid_i) h).2
               = inr (StatusResponse (Some (py "FINISHED")) (Some text))) →
    results st = map Some done ++ replicate (length rest) None →
    length done = i →
    finished_count st = i →
    is_Some (process_status_store w !! pid) →
    ∃ w' texts evs,
      poll_round pid username password total i rest st w
      = (w', Ok (PollState (map Some (done ++ texts)) (i + length rest) (headers st)))
      ∧ length texts = length rest
      ∧ is_Some (process_status_store w' !! pid)
      ∧ log w' = log w ++ evs ∧ sleeps evs = [].
Proof.
  induction rest as [|pid_i rest IH]; intros i done st w Hfin Hres Hlen Hcount [d Hd].
  - cbn [poll_round ret length replicate] in *. rewrite app_nil_r in Hres.
    exists w, [], []. rewrite !app_nil_r, Nat.add_0_r. split_and!; try done.
    destruct st as [res fc hs]. cbn [results finished_count headers] in *. by subst.
  - cbn [poll_round]. unfold bind at 1.
    destruct (Hfin (ext w) pid_i (headers st)) as [text Htext]; [by left|].
    assert (results st !! i = Some None) as Hi.
    { rewrite Hres, lookup_app_r by (rewrite length_map; lia).
      rewrite length_map, Hlen, Nat.sub_diag. done. }
    destruct (poll_page_finished w pid username password total i pid_i st d text Hd Hi Htext)
      as (w1 & evs1 & -> & Hd1 & Hlog1 & Hs1).
    destruct (IH (S i) (done ++ [text])
                (PollState (<[i := Some text]> (results st)) (S (finished_count st))
                   (headers st)) w1)
      as (w2 & texts & evs2 & -> & Hlen2 & Hd2 & Hlog2 & Hs2).
    + intros x p h Hp. apply Hfin. by right.
    + cbn [results]. rewrite Hres, map_app, <- app_assoc. cbn [map app length replicate].
      rewrite insert_app_r_alt by (rewrite length_map; lia).
      rewrite length_map, Hlen, Nat.sub_diag. done.
    + rewrite length_app. cbn [length]. lia.
    + cbn [finished_count]. by rewrite Hcount.
    + done.
    + exists w2, (text :: texts), (evs1 ++ evs2). cbn [headers length].
      rewrite <- app_assoc. cbn [app]. rewrite Nat.add_succ_r.
      split_and!; try done.
      * by rewrite Hlen2.
      * by rewrite Hlog2, Hlog1, app_assoc.
      * by rewrite sleeps_app, Hs1, Hs2.
Qed.

(** X15. Polling ends when the provider answers. If every status request
    for the jobs of the pages is answered FINISHED with a text, then
    polling with room for one round returns one text per page, in the
    order of the pages, after having slept exactly once, for 5 seconds;
    without pages it returns at once and does not sleep. *)
Theorem polling_ends_when_all_finished (w : world) (fuel : nat) (process_ids : list pystr)
    (headers : headers_t) (username password process_id : pystr) (d : pydict) :
  process_status_store w !! process_id = Some d →
  (∀ x pid_i h, pid_i ∈ process_ids →
     ∃ text, (http_get_status x (status_url pid_i) h).2
             = inr (StatusResponse (Some (py "FINISHED")) (Some text))) →
  let run := _poll_transkribus_jobs (S fuel) process_ids headers username password
               process_id (length process_ids) w in
  ∃ texts evs,
    run.2 = Ok (map Some texts)
    ∧ length texts = length process_ids
    ∧ log run.1 = log w ++ evs
    ∧ sleeps evs = match process_ids with [] => [] | _ => [5%Q] end.
Proof.
  intros Hd Hfin run. unfold run, _poll_transkribus_jobs.
  destruct process_ids as [|pid0 pids].
  - cbn. exists [], []. by rewrite app_nil_r.
  - set (total := length (pid0 :: pids)).
    assert (∃ w2 texts evs,
              poll_loop (S fuel) (pid0 :: pids) process_id username password total 5
                (PollState (replicate total None) 0 headers) w
              = (w2, Ok (map Some texts))
              ∧ length texts = total
              ∧ log w2 = log w ++ EvSleep 5 :: evs ∧ sleeps evs = [])
      as (w2 & texts & evs & -> & Hlen & Hlog & Hs).
    { cbn [poll_loop].
      assert ((finished_count (PollState (replicate total None) 0 headers) <? total)%nat
              = true) as -> by (apply Nat.ltb_lt; cbn; lia).
      unfold bind at 1. unfold time_sleep at 1.
      set (w1 := emit _ _). unfold bind at 1.
      destruct (poll_round_finished process_id username password total (pid0 :: pids) 0 []
                  (PollState (replicate total None) 0 headers) w1)
        as (w2 & texts & evs & -> & Hlen & Hd2 & Hlog & Hs).
      - done.
      - by rewrite app_nil_l.
      - done.
      - done.
      - unfold w1, emit. cbn [process_status_store]. rewrite Hd. by eexists.
      - rewrite JobClaims.poll_loop_stops by (cbn [finished_count]; fold total; lia).
        cbn [results app]. exists w2, texts, evs. split_and!; try done.
        rewrite Hlog. unfold w1, emit. cbn [log]. by rewrite <- app_assoc. }
    cbn [fst snd]. exists texts, (EvSleep 5 :: evs). split_and!; try done.
    change (sleeps (EvSleep 5 :: evs)) with (5%Q :: sleeps evs). by rewrite Hs.
Qed.

End WithEnv.

Lemma htr_error_aborts_polling_witness :
  let run := _poll_transkribus_jobs (H := sim_env error_config) 5 [py "p0"; py "p1"] ∅
               (py "u") (py "p") (py "job-0") 2 (tei_world error_config) in
  ∃ evs,
    log run.1 = log (tei_world error_config) ++ evs
    ∧ (Forall (λ ev, error_answer ev = false) evs
       ∨ ∃ pre headers' response i pid_i d2,
           evs = pre ++ EvGet (status_url pid_i) headers' (inr response)
                        :: abort_writes (py "job-0") i
           ∧ Forall (λ ev, error_answer ev = false) pre
           ∧ [py "p0"; py "p1"] !! i = Some pid_i
           ∧ resp_status response = Some (py "ERROR")
           ∧ run.2 = Raise (RuntimeError
                              (py "Transkribus processing failed for page "
                               ++ str_nat (i + 1)))
           ∧ process_status_store run.1 !! py "job-0" = Some d2
           ∧ d2 !! "status"
             = Some (VStr (py "Fehler bei der Texterkennung bei Seite " ++ str_nat (i + 1)))
           ∧ d2 !! "transkribus_status" = Some (VStr (py "ERROR"))).
Proof.
  apply (htr_error_aborts_polling (H := sim_env error_config) (tei_world error_config) 5
           [py "p0"; py "p1"] ∅ (py "u") (py "p") (py "job-0") 2 boundary_record).
  reflexivity.
Defined.

(** The run of the example: page 0 is still running, the answer for page
    1 ends the polling in its first round. *)
Example poll_with_failed_page :
  let run := _poll_transkribus_jobs (H := sim_env error_config) 5 [py "p0"; py "p1"] ∅
               (py "u") (py "p") (py "job-0") 2 (tei_world error_config) in
  map event_kind (log run.1)
  = ["sleep"; "get"; "get"; "write status"; "write transkribus_status"]
  ∧ run.2 = Raise (RuntimeError (py "Transkribus processing failed for page 2")).
Proof. vm_compute. split; reflexivity. Qed.

Lemma polling_ends_when_all_finished_witness :
  let run := _poll_transkribus_jobs (H := sim_env finished_config) 1 [py "p0"; py "p1"] ∅
               (py "u") (py "p") (py "job-0") 2 (tei_world finished_config) in
  ∃ texts evs,
    run.2 = Ok (map Some texts)
    ∧ length texts = 2%nat
    ∧ log run.1 = log (tei_world finished_config) ++ evs
    ∧ sleeps evs = [5%Q].
Proof.
  apply (polling_ends_when_all_finished (H := sim_env finished_config)
           (tei_world finished_config) 0 [py "p0"; py "p1"] ∅ (py "u") (py "p")
           (py "job-0") boundary_record).
  - reflexivity.
  - intros x pid_i h _. eexists. reflexivity.
Defined.

End PollOutcomes.

(** ** The synchronous recognition cycle *)

Module SyncFacts.
Import Processing Transkribus Views Sim TranskribusSync PollFacts PollOutcomes.
Section WithEnv.
Context `{!Env}.

(** The loop of [get_recognition_result], from step [n] of the back-off. *)
Lemma recognition_loop_run fuel process_id headers :
  ∀ n (w w' : world) r,
    recognition_loop fuel process_id headers (backoff n) w = (w', r) →
    process_status_store w' = process_status_store w
    ∧ ∃ waiting,
        Forall pending waiting
        ∧ (length waiting ≤ fuel)%nat
        ∧ match r with
          | Ok text =>
            ∃ response,
              log w' = log w ++ polls (status_url process_id) headers n waiting
                       ++ [EvGet (status_url process_id) headers (inr response)]
              ∧ resp_status response = Some (py "FINISHED")
              ∧ resp_text response = Some text
          | Raise e =>
            ∃ out,
              log w' = log w ++ polls (status_url process_id) headers n waiting
                       ++ [EvGet (status_url process_id) headers out]
              ∧ match out with
                | inl e' => e = e'
                | inr response =>
                  (resp_status response = Some (py "ERROR")
                   ∧ e = RuntimeError
                           (py "Transkribus-Verarbeitung fehlgeschlagen (Prozess-ID: "
                            ++ process_id ++ py ")."))
                  ∨ (resp_status response = Some (py "FINISHED")
                     ∧ resp_text response = None ∧ e = KeyError (py "'content'"))
                end
          | Diverge =>
            length waiting = fuel
            ∧ log w' = log w ++ polls (status_url process_id) headers n waiting
          end.
Proof.
  induction fuel as [|fuel IH]; intros n w w' r; cbn [recognition_loop].
  - intros [= <- <-]. split; [done|]. exists []. cbn. by rewrite app_nil_r.
  - unfold bind at 1. unfold check_process_status, requests_get_json.
    destruct (http_get_status (ext w) (status_url process_id) headers) as [x [e|response]].
    + intros [= <- <-]. split; [done|]. exists []. split_and!; [done|cbn; lia|].
      exists (inl e). done.
    + cbv zeta. case_bool_decide as Hfin.
      * unfold get_process_result. rewrite Hfin.
        rewrite bool_decide_false by (by intros [= ?%(inj py)]).
        rewrite bool_decide_true by done. cbn [negb].
        destruct (resp_text response) as [text|] eqn:Htext.
        -- intros [= <- <-]. split; [done|]. exists []. split_and!; [done|cbn; lia|].
           by exists response.
        -- intros [= <- <-]. split; [done|]. exists []. split_and!; [done|cbn; lia|].
           exists (inr response). split; [done|]. by right.
      * case_bool_decide as Herr.
        -- intros [= <- <-]. split; [done|]. exists []. split_and!; [done|cbn; lia|].
           exists (inr response). split; [done|]. by left.
        -- unfold bind at 1. unfold time_sleep at 1.
           change (py_min (backoff n * 1.5) 30) with (backoff (S n)).
           intros Hrun. apply IH in Hrun as [Hstore (waiting & Hpending & Hlen & Hr)].
           split; [done|]. exists (response :: waiting).
           split; [by constructor|]. split; [cbn [length]; lia|].
           unfold emit in Hr. cbn [log] in Hr. cbn [polls length].
           destruct r as [text|e|].
           ++ destruct Hr as (response' & -> & ? & ?). exists response'.
              rewrite <- !app_assoc. done.
           ++ destruct Hr as (out & -> & ?). exists out. rewrite <- !app_assoc. done.
           ++ destruct Hr as [-> ->]. rewrite <- !app_assoc. done.
Qed.


(** X17. Both ways into the HTR provider log in first, once, with the RA
    credentials for the mode RA and the GL credentials for the mode GL.
    For any other mode they differ: [get_result_from_transkribus] logs in
    with an empty user name and password, [_start_transkribus_jobs] with
    the GL credentials. *)
Theorem transkribus_credentials_by_mode (w : world) (fuel : nat) (image_data : pystr)
    (images_base64 : list pystr) (model_id : Z) (mode : pystr) :
  let single := get_result_from_transkribus fuel image_data model_id mode w in
  let batch := _start_transkribus_jobs images_base64 model_id mode w in
  ∃ username password out rest username' password' out' rest',
    log single.1 = log w ++ EvLogin username password out :: rest
    ∧ log batch.1 = log w ++ EvLogin username' password' out' :: rest'
    ∧ (mode = py "RA" →
       username = USERNAME_TRANSKRIBUS_RA ∧ password = PASSWORD_TRANSKRIBUS_RA
       ∧ username' = USERNAME_TRANSKRIBUS_RA ∧ password' = PASSWORD_TRANSKRIBUS_RA)
    ∧ (mode = py "GL" →
       username = USERNAME_TRANSKRIBUS_GL ∧ password = PASSWORD_TRANSKRIBUS_GL
       ∧ username' = USERNAME_TRANSKRIBUS_GL ∧ password' = PASSWORD_TRANSKRIBUS_GL)
    ∧ (mode ≠ py "RA" → mode ≠ py "GL" →
       username = [] ∧ password = []
       ∧ username' = USERNAME_TRANSKRIBUS_GL ∧ password' = PASSWORD_TRANSKRIBUS_GL).
Proof.
  intros single batch.
  assert (∀ u p, ∃ out rest,
            log (bind (transkribus_login u p)
                   (λ access_token,
                      get_recognition_result fuel access_token image_data model_id) w).1
            = log w ++ EvLogin u p out :: rest) as Hsingle.
  { intros u p. unfold bind at 1. unfold transkribus_login.
    destruct (http_post_token (ext w) u p) as [x [e|access_token]].
    - by exists (inl e), [].
    - unfold get_recognition_result, bind, start_recognition_process.
      set (w1 := emit (EvLogin _ _ _) _).
      destruct (http_post_process (ext w1) _ _ _) as [x' [e|process_id]].
      + eexists _, _. unfold emit, w1, emit. cbn [fst log].
        rewrite <- app_assoc. reflexivity.
      + set (w2 := emit (EvSubmit _ _ _ _) _).
        destruct (recognition_loop fuel process_id (auth_headers access_token) 5 w2)
          as [w' r] eqn:Hrun.
        change 5%Q with (backoff 0) in Hrun.
        apply recognition_loop_run in Hrun as [_ (waiting & _ & _ & Hr)].
        unfold w2, emit, w1, emit in Hr. cbn [log] in Hr. cbn [fst].
        destruct r as [text|e|].
        * destruct Hr as (response & -> & _). eexists _, _.
          rewrite <- !app_assoc. reflexivity.
        * destruct Hr as (out & -> & _). eexists _, _.
          rewrite <- !app_assoc. reflexivity.
        * destruct Hr as [_ ->]. eexists _, _.
          rewrite <- !app_assoc. reflexivity. }
  assert (∀ u p, ∃ out rest,
            log (bind (transkribus_login u p)
                   (λ access_token,
                      bind (submit_images access_token model_id images_base64 [] ∅)
                        (λ '(process_ids, headers), ret (process_ids, headers, u, p))) w).1
            = log w ++ EvLogin u p out :: rest) as Hbatch.
  { intros u p. unfold bind at 1. unfold transkribus_login.
    destruct (http_post_token (ext w) u p) as [x [e|access_token]].
    - by exists (inl e), [].
    - set (w1 := emit (EvLogin _ _ _) _).
      destruct (submit_images_run access_token model_id images_base64 [] ∅ w1)
        as [_ [pids Hrun]].
      cbv zeta in Hrun. unfold bind.
      destruct (submit_images _ _ _ _ _ _) as [w' r]. cbn [fst snd] in *.
      unfold w1, emit in Hrun. cbn [log] in Hrun.
      destruct Hrun as [(-> & _ & Hlog)|(e & image & -> & _ & Hlog)]; cbn [fst ret].
      + eexists _, _. rewrite Hlog, <- !app_assoc. reflexivity.
      + eexists _, _. rewrite Hlog, <- !app_assoc. reflexivity. }
  unfold single, batch, get_result_from_transkribus, _start_transkribus_jobs, pystr_eqb.
  case_bool_decide as HRA; [|case_bool_decide as HGL].
  - destruct (Hsingle USERNAME_TRANSKRIBUS_RA PASSWORD_TRANSKRIBUS_RA)
      as (out & rest & Hlog).
    destruct (Hbatch USERNAME_TRANSKRIBUS_RA PASSWORD_TRANSKRIBUS_RA)
      as (out' & rest' & Hlog').
    eexists _, _, out, rest, _, _, out', rest'.
    split; [exact Hlog|]. split; [exact Hlog'|].
    split_and!; try done. rewrite HRA. vm_compute. discriminate.
  - destruct (Hsingle USERNAME_TRANSKRIBUS_GL PASSWORD_TRANSKRIBUS_GL)
      as (out & rest & Hlog).
    destruct (Hbatch USERNAME_TRANSKRIBUS_GL PASSWORD_TRANSKRIBUS_GL)
      as (out' & rest' & Hlog').
    eexists _, _, out, rest, _, _, out', rest'.
    split; [exact Hlog|]. split; [exact Hlog'|].
    split_and!; done.
  - destruct (Hsingle [] []) as (out & rest & Hlog).
    destruct (Hbatch USERNAME_TRANSKRIBUS_GL PASSWORD_TRANSKRIBUS_GL)
      as (out' & rest' & Hlog').
    eexists _, _, out, rest, _, _, out', rest'.
    split; [exact Hlog|]. split; [exact Hlog'|].
    split_and!; done.
Qed.

End WithEnv.
End SyncFacts.

(** ** Encoding of the images *)

Module EncodingFacts.
Import Processing Base64.

Lemma b64_char_alphabet i : is_b64_char (b64_char i) = true.
Proof.
  unfold b64_char, is_b64_char.
  destruct (i <? 26) eqn:H1; [apply N.ltb_lt in H1|apply N.ltb_ge in H1].
  { replace (65 <=? 65 + i) with true by (symmetry; apply N.leb_le; lia).
    replace (65 + i <=? 90) with true by (symmetry; apply N.leb_le; lia). done. }
  destruct (i <? 52) eqn:H2; [apply N.ltb_lt in H2|apply N.ltb_ge in H2].
  { replace (97 <=? 97 + (i - 26)) with true by (symmetry; apply N.leb_le; lia).
    replace (97 + (i - 26) <=? 122) with true by (symmetry; apply N.leb_le; lia).
    by rewrite orb_true_r. }
  destruct (i <? 62) eqn:H3; [apply N.ltb_lt in H3|apply N.ltb_ge in H3].
  { replace (48 <=? 48 + (i - 52)) with true by (symmetry; apply N.leb_le; lia).
    replace (48 + (i - 52) <=? 57) with true by (symmetry; apply N.leb_le; lia).
    by rewrite !orb_true_r. }
  by destruct (i =? 62).
Qed.

(** Induction over a sequence of bytes in groups of three. *)
Lemma groups_of_three_ind (P : list N → Prop) :
  P [] → (∀ a, P [a]) → (∀ a b, P [a; b]) →
  (∀ a b c rest, P rest → P (a :: b :: c :: rest)) →
  ∀ content, P content.
Proof.
  intros H0 H1 H2 H3 content.
  assert (∀ n content, (length content ≤ n)%nat → P content) as Hall.
  { clear content. induction n as [|n IH]; intros content Hlen.
    - destruct content; [done|cbn in Hlen; lia].
    - destruct content as [|a [|b [|c rest]]]; try done.
      apply H3, IH. cbn [length] in Hlen. lia. }
  by apply (Hall (length content)).
Qed.

(** X18. The encoding of an image has four characters for every three
    bytes, the last group being padded: its length is [4 * ceil(n / 3)]
    for [n] bytes; every character is of the base64 alphabet; and the
    encoding is empty only for an empty file. *)
Theorem encode_image_shape (image_content : list N) :
  length (encode_image image_content) = (4 * ((length image_content + 2) / 3))%nat
  ∧ Forall (λ c, is_b64_char c = true) (encode_image image_content)
  ∧ (encode_image image_content = [] ↔ image_content = []).
Proof.
  unfold encode_image. induction image_content as [|a|a b|a b c rest IH]
    using groups_of_three_ind.
  - done.
  - split_and!; [done| |done]. repeat constructor; apply b64_char_alphabet.
  - split_and!; [done| |done]. repeat constructor; apply b64_char_alphabet.
  - destruct IH as (Hlen & Hall & _). cbn [b64encode length]. split_and!.
    + rewrite Hlen.
      replace (S (S (S (length rest))) + 2)%nat with (length rest + 2 + 1 * 3)%nat by lia.
      rewrite Nat.div_add by done. lia.
    + repeat (constructor; [apply b64_char_alphabet|]). done.
    + done.
Qed.

Lemma byte_pairs (f : N → N → bool) :
  forallb (λ a, forallb (f a) (map N.of_nat (seq 0 256))) (map N.of_nat (seq 0 256)) = true →
  ∀ a b, a < 256 → b < 256 → f a b = true.
Proof.
  intros Hall a b Ha Hb.
  assert (∀ x, x < 256 → List.In x (map N.of_nat (seq 0 256))) as Hin.
  { intros x Hx. apply in_map_iff. exists (N.to_nat x). split; [by rewrite N2Nat.id|].
    apply in_seq. lia. }
  rewrite forallb_forall in Hall. specialize (Hall a (Hin a Ha)).
  rewrite forallb_forall in Hall. exact (Hall b (Hin b Hb)).
Qed.

(** The first two characters of an encoding are [/9] only for a first
    byte FF and a second byte D0 to DF. *)
Lemma jpeg_first_chars a b :
  a < 256 → b < 256 →
  b64_char (N.shiftr a 2) = 47 →
  b64_char (N.lor (N.shiftl (N.land a 3) 4) (N.shiftr b 4)) = 57 →
  a = 255 ∧ N.shiftr b 4 = 13.
Proof.
  intros Ha Hb H1 H2.
  pose proof (byte_pairs
    (λ a b, implb ((b64_char (N.shiftr a 2) =? 47)
                   && (b64_char (N.lor (N.shiftl (N.land a 3) 4) (N.shiftr b 4)) =? 57))
                  ((a =? 255) && (N.shiftr b 4 =? 13)))
    ltac:(vm_compute; reflexivity) a b Ha Hb) as Hcheck.
  cbv beta in Hcheck. rewrite H1, H2 in Hcheck. cbn [N.eqb Pos.eqb andb implb] in Hcheck.
  apply andb_true_iff in Hcheck as [?%N.eqb_eq ?%N.eqb_eq]. done.
Qed.

(** The last two are [j/] only for a second byte D8 and a third byte FF. *)
Lemma jpeg_last_chars b c :
  b < 256 → c < 256 →
  N.shiftr b 4 = 13 →
  b64_char (N.lor (N.shiftl (N.land b 15) 2) (N.shiftr c 6)) = 106 →
  b64_char (N.land c 63) = 47 →
  b = 216 ∧ c = 255.
Proof.
  intros Hb Hc H1 H2 H3.
  pose proof (byte_pairs
    (λ b c, implb ((N.shiftr b 4 =? 13)
                   && (b64_char (N.lor (N.shiftl (N.land b 15) 2) (N.shiftr c 6)) =? 106)
                   && (b64_char (N.land c 63) =? 47))
                  ((b =? 216) && (c =? 255)))
    ltac:(vm_compute; reflexivity) b c Hb Hc) as Hcheck.
  cbv beta in Hcheck. rewrite H1, H2, H3 in Hcheck.
  cbn [N.eqb Pos.eqb andb implb] in Hcheck.
  apply andb_true_iff in Hcheck as [?%N.eqb_eq ?%N.eqb_eq]. done.
Qed.

(** X19. [get_image_type] tells a JPEG by its first bytes. For the
    encoding of a file it answers [jpeg] exactly when the file starts
    with the three bytes FF D8 FF, and [png] for every other file,
    whatever it holds. *)
Theorem get_image_type_of_encoded_image (image_content : list N) :
  Forall (λ byte, byte < 256) image_content →
  (get_image_type (encode_image image_content) = py "jpeg"
   ↔ ∃ rest, image_content = jpeg_magic ++ rest)
  ∧ (get_image_type (encode_image image_content) = py "jpeg"
     ∨ get_image_type (encode_image image_content) = py "png").
Proof.
  intros Hbytes. unfold get_image_type, encode_image, jpeg_magic.
  assert (py "/9j/" = [47; 57; 106; 47]) as -> by (vm_compute; reflexivity).
  assert (py "png" ≠ py "jpeg") as Hpng by (vm_compute; discriminate).
  split; [|destruct (strip_prefix _ _); [by left|by right]].
  split.
  - destruct image_content as [|a [|b [|c rest]]]; cbn [b64encode strip_prefix].
    + done.
    + destruct (47 =? b64_char _); [|done].
      destruct (57 =? b64_char _); [|done]. done.
    + destruct (47 =? b64_char _); [|done].
      destruct (57 =? b64_char _); [|done].
      destruct (106 =? b64_char _); [|done]. done.
    + apply Forall_cons in Hbytes as [Ha Hbytes].
      apply Forall_cons in Hbytes as [Hb Hbytes].
      apply Forall_cons in Hbytes as [Hc _].
      destruct (47 =? b64_char _) eqn:H1; [apply N.eqb_eq in H1|done].
      destruct (57 =? b64_char _) eqn:H2; [apply N.eqb_eq in H2|done].
      destruct (106 =? b64_char _) eqn:H3; [apply N.eqb_eq in H3|done].
      destruct (47 =? b64_char _) eqn:H4; [apply N.eqb_eq in H4|done].
      intros _.
      destruct (jpeg_first_chars a b Ha Hb) as [-> Hb']; [done..|].
      destruct (jpeg_last_chars b c Hb Hc Hb') as [-> ->]; [done..|].
      by exists rest.
  - intros [rest ->]. cbn [app b64encode].
    change (b64_char (N.shiftr 255 2)) with 47.
    change (b64_char (N.lor (N.shiftl (N.land 255 3) 4) (N.shiftr 216 4))) with 57.
    change (b64_char (N.lor (N.shiftl (N.land 216 15) 2) (N.shiftr 255 6))) with 106.
    change (b64_char (N.land 255 63)) with 47.
    done.
Qed.

Lemma get_image_type_of_encoded_image_witness :
  (get_image_type (encode_image [255; 216; 255; 224; 0; 16]) = py "jpeg"
   ↔ ∃ rest, [255; 216; 255; 224; 0; 16] = jpeg_magic ++ rest)
  ∧ (get_image_type (encode_image [255; 216; 255; 224; 0; 16]) = py "jpeg"
     ∨ get_image_type (encode_image [255; 216; 255; 224; 0; 16]) = py "png").
Proof.
  apply (get_image_type_of_encoded_image [255; 216; 255; 224; 0; 16]).
  repeat constructor.
Defined.

(** The start of a JPEG file and of a PNG file. *)
Example image_types :
  get_image_type (encode_image [255; 216; 255; 224; 0; 16]) = py "jpeg"
  ∧ encode_image [255; 216; 255; 224; 0; 16] = py "/9j/4AAQ"
  ∧ get_image_type (encode_image [137; 80; 78; 71; 13; 10; 26; 10]) = py "png"
  ∧ encode_image [137; 80; 78; 71; 13; 10; 26; 10] = py "iVBORw0KGgo=".
Proof. vm_compute. done. Qed.

End EncodingFacts.

(** ** The text transforms, continued *)

Module TextFacts.
Import Re Processing ProcessingFacts.

(** *** [remove_empty_lines] *)

Lemma blank_run_end_spaces s r :
  blank_run_end s = Some r → ∃ ws, s = ws ++ r ∧ Forall (λ c, is_space c = true) ws.
Proof.
  revert r. induction s as [|c s IH]; intros r; [done|].
  cbn [blank_run_end]. destruct (is_space c) eqn:Hc; [|done].
  destruct (blank_run_end s) as [r'|] eqn:Hs.
  - intros [= <-]. destruct (IH r' eq_refl) as (ws & -> & Hws).
    exists (c :: ws). split; [done|]. by constructor.
  - destruct (c =? LF); [|done]. intros [= <-]. exists [c]. split; [done|].
    by repeat constructor.
Qed.

Lemma filter_spaces_nil (ws : pystr) :
  Forall (λ c, is_space c = true) ws → filter (λ c, is_space c = false) ws = [].
Proof.
  induction 1 as [|c ws Hc _ IH]; [done|].
  rewrite filter_cons_False by (by rewrite Hc). done.
Qed.

(** X20. [remove_empty_lines] deletes white space and nothing else: the
    characters of its result that are not white space are those of the
    text, in their order, and the result is never longer than the text.
    It leaves a text unchanged exactly when no line feed of the text is
    followed by white space and another line feed. *)
Theorem remove_empty_lines_deletes_only_white_space (text_input : pystr) :
  filter (λ c, is_space c = false) (remove_empty_lines text_input)
  = filter (λ c, is_space c = false) text_input
  ∧ (length (remove_empty_lines text_input) ≤ length text_input)%nat
  ∧ (remove_empty_lines text_input = text_input ↔ settled text_input).
Proof.
  split_and!.
  - remember (length text_input) as n eqn:Hn. revert text_input Hn.
    induction n as [n IH] using lt_wf_ind. intros s ->.
    destruct s as [|c s]; [done|].
    rewrite remove_empty_lines_cons. destruct (N.eqb_spec c LF) as [->|Hc].
    + destruct (blank_run_end s) as [rest|] eqn:Hs.
      * destruct (blank_run_end_spaces _ _ Hs) as (ws & -> & Hws).
        rewrite !filter_cons_False by (by vm_compute).
        rewrite filter_app, (filter_spaces_nil ws Hws). cbn [app].
        eapply IH; [|done]. cbn [length]. rewrite length_app. lia.
      * rewrite !filter_cons_False by (by vm_compute).
        eapply IH; [|done]. cbn [length]. lia.
    + rewrite !filter_cons. rewrite (IH (length s)); [done|cbn [length]; lia|done].
  - remember (length text_input) as n eqn:Hn. revert text_input Hn.
    induction n as [n IH] using lt_wf_ind. intros s ->.
    destruct s as [|c s]; [done|].
    rewrite remove_empty_lines_cons. destruct (c =? LF).
    + destruct (blank_run_end s) as [rest|] eqn:Hs.
      * destruct (blank_run_end_suffix _ _ Hs) as [_ Hlt]. cbn [length].
        specialize (IH (length rest) ltac:(cbn [length]; lia) rest eq_refl). lia.
      * cbn [length]. specialize (IH (length s) ltac:(cbn [length]; lia) s eq_refl). lia.
    + cbn [length]. specialize (IH (length s) ltac:(cbn [length]; lia) s eq_refl). lia.
  - split; [|apply settled_fixed]. intros <-. apply settled_remove_empty_lines.
Qed.

(** *** [strip_lines] *)

Lemma lstrip_spec s :
  ∃ pre, s = pre ++ lstrip s
    ∧ Forall (λ c, is_space c = true) pre
    ∧ match lstrip s with c :: _ => is_space c = false | [] => True end.
Proof.
  induction s as [|c s (pre & Hs & Hpre & Hhead)]; [by exists []|].
  cbn [lstrip]. destruct (is_space c) eqn:Hc.
  - exists (c :: pre). split; [cbn; by rewrite <- Hs|]. split; [by constructor|done].
  - by exists [].
Qed.

(** The text between the white space at the two ends. *)
Lemma strip_spec s :
  ∃ pre post, s = pre ++ strip s ++ post
    ∧ Forall (λ c, is_space c = true) pre
    ∧ Forall (λ c, is_space c = true) post
    ∧ stripped (strip s).
Proof.
  unfold strip, rstrip.
  destruct (lstrip_spec s) as (pre & Hs & Hpre & Hhead).
  destruct (lstrip_spec (reverse (lstrip s))) as (post & Ht & Hpost & Hlast).
  set (t := lstrip s) in *. set (u := lstrip (reverse t)) in *.
  assert (t = reverse u ++ reverse post) as Ht'.
  { rewrite <- (reverse_involutive t), Ht, reverse_app. done. }
  exists pre, (reverse post). split; [by rewrite Hs, Ht'|].
  split; [done|]. split; [by apply Forall_reverse|].
  unfold stripped. destruct (reverse u) as [|c r] eqn:Hr; [done|].
  split.
  - rewrite Ht' in Hhead. done.
  - rewrite <- Hr, last_reverse. destruct u as [|c' u']; [done|].
    by exists c'.
Qed.





(** A text with Windows line ends and white space around its lines. *)
Example strip_lines_example :
  strip_lines (py "  a b " ++ [CR; LF] ++ py " c" ++ [9; CR] ++ py "d ")
  = py "a b" ++ [LF] ++ py "c" ++ [LF] ++ py "d".
Proof. vm_compute. reflexivity. Qed.

(** *** [remove_xml_tags] *)

(** The backtracking matcher's answer for [[^>]*>]: the text after the
    first [>]. *)
Lemma star_tag_end s :
  head (flat_map (matches (Lit 62)) (star_matches (λ c, negb (c =? 62)) s)) = tag_end s.
Proof.
  induction s as [|c s IH]; [done|].
  cbn [star_matches tag_end]. destruct (c =? 62) eqn:Hc; cbn [negb].
  - cbn [flat_map matches]. rewrite (N.eqb_sym 62 c), Hc. done.
  - rewrite flat_map_app, head_app_first, IH.
    destruct (tag_end s); [done|].
    cbn [flat_map matches]. by rewrite (N.eqb_sym 62 c), Hc.
Qed.

Lemma match_xml_tag c s :
  match_here xml_tag_re (c :: s) =
    if c =? 60 then
      match s with
      | c' :: s' => if c' =? 62 then None else tag_end s'
      | [] => None
      end
    else None.
Proof.
  unfold match_here, xml_tag_re. cbn [matches].
  rewrite (N.eqb_sym 60 c). destruct (c =? 60); [|done].
  cbn [flat_map]. rewrite app_nil_r.
  destruct s as [|c' s']; [done|]. destruct (c' =? 62); cbn [negb]; [done|].
  apply star_tag_end.
Qed.

Lemma tag_end_suffix s r :
  tag_end s = Some r → ∃ body, s = body ++ 62 :: r ∧ Forall (λ c, c ≠ 62) body.
Proof.
  revert r. induction s as [|c s IH]; intros r; [done|].
  cbn [tag_end]. destruct (N.eqb_spec c 62) as [->|Hc].
  - intros [= <-]. by exists [].
  - intros (body & -> & Hbody)%IH. exists (c :: body). split; [done|]. by constructor.
Qed.

Lemma tag_end_None s : tag_end s = None ↔ 62 ∉ s.
Proof.
  induction s as [|c s IH]; [split; [intros _; apply not_elem_of_nil|done]|].
  cbn [tag_end]. destruct (N.eqb_spec c 62) as [->|Hc].
  - split; [done|]. intros []. by left.
  - rewrite IH, not_elem_of_cons. naive_solver.
Qed.

(** The scan of [remove_xml_tags], one character at a time. *)
Lemma remove_xml_tags_cons c s :
  remove_xml_tags (c :: s) =
    if c =? 60 then
      match s with
      | c' :: s' =>
        if c' =? 62 then c :: remove_xml_tags s
        else match tag_end s' with
             | Some rest => remove_xml_tags rest
             | None => c :: remove_xml_tags s
             end
      | [] => [c]
      end
    else c :: remove_xml_tags s.
Proof.
  unfold remove_xml_tags, sub. cbn [sub_go].
  rewrite match_xml_tag. destruct (c =? 60); [|done].
  destruct s as [|c' s']; [done|]. destruct (c' =? 62); [done|].
  destruct (tag_end s') as [rest|] eqn:Hs; [|done].
  cbn [app]. rewrite sub_go_skip.
  destruct (tag_end_suffix _ _ Hs) as (body & -> & _). f_equal.
  cbn [length]. rewrite length_app. cbn [length].
  replace (S (length body + S (length rest)) - length rest)%nat
    with (length (c' :: body ++ [62])) by (cbn [length]; rewrite length_app; cbn; lia).
  replace (c' :: body ++ 62 :: rest) with ((c' :: body ++ [62]) ++ rest)
    by (cbn; by rewrite <- app_assoc).
  by rewrite drop_app_length.
Qed.

(** [remove_xml_tags] only deletes characters. *)
Lemma remove_xml_tags_elem c s : c ∈ remove_xml_tags s → c ∈ s.
Proof.
  remember (length s) as n eqn:Hn. revert s Hn.
  induction n as [n IH] using lt_wf_ind. intros s ->.
  destruct s as [|c0 s]; [done|].
  rewrite remove_xml_tags_cons.
  assert (c ∈ c0 :: remove_xml_tags s → c ∈ c0 :: s) as Hkeep.
  { intros [->|Hc]%elem_of_cons; [by left|]. right.
    eapply IH; [|done|done]. cbn [length]. lia. }
  destruct (c0 =? 60); [|done].
  destruct s as [|c' s']; [done|]. destruct (c' =? 62); [done|].
  destruct (tag_end s') as [rest|] eqn:Hs; [|done].
  destruct (tag_end_suffix _ _ Hs) as (body & -> & _).
  intros Hc. do 2 right. apply elem_of_app. right. right.
  eapply IH; [|done|done]. cbn [length]. rewrite length_app. cbn [length]. lia.
Qed.

Lemma tag_free_cons c s :
  tag_free s →
  (c = 60 → match s with c' :: t => c' ≠ 62 → tag_end t = None | [] => True end) →
  tag_free (c :: s).
Proof.
  intros Hs Hc [|c0 pre] c' t; cbn [app].
  - intros [= -> ->]. by apply Hc.
  - intros [= -> ->]. by apply (Hs pre c' t).
Qed.

Lemma tag_free_remove_xml_tags s : tag_free (remove_xml_tags s).
Proof.
  remember (length s) as n eqn:Hn. revert s Hn.
  induction n as [n IH] using lt_wf_ind. intros s ->.
  destruct s as [|c s].
  { intros pre c t H. by destruct pre. }
  rewrite remove_xml_tags_cons.
  assert (tag_free (remove_xml_tags s)) as Hs by (eapply IH; [|done]; cbn [length]; lia).
  destruct (N.eqb_spec c 60) as [->|Hc].
  - destruct s as [|c' s'].
    { intros pre c t H. destruct pre as [|? [|? ?]]; done. }
    destruct (N.eqb_spec c' 62) as [->|Hc'].
    + apply tag_free_cons; [done|]. intros _.
      rewrite remove_xml_tags_cons. cbn. done.
    + destruct (tag_end s') as [rest|] eqn:Hend.
      * eapply IH; [|done]. destruct (tag_end_suffix _ _ Hend) as (body & -> & _).
        cbn [length]. rewrite length_app. cbn [length]. lia.
      * apply tag_free_cons; [done|]. intros _.
        destruct (remove_xml_tags (c' :: s')) as [|d t] eqn:Hr; [done|].
        intros _. apply tag_end_None. intros Hin.
        assert (62 ∈ c' :: s') as [?|Hin']%elem_of_cons; [|done|].
        { apply remove_xml_tags_elem. rewrite Hr. by right. }
        by apply tag_end_None in Hend.
  - apply tag_free_cons; [done|]. done.
Qed.

Lemma tag_free_fixed s : tag_free s → remove_xml_tags s = s.
Proof.
  induction s as [|c s IH]; intros Hs; [done|].
  assert (tag_free s) as Hs' by (intros pre c' t ->; by apply (Hs (c :: pre) c' t)).
  rewrite remove_xml_tags_cons, (IH Hs').
  destruct (N.eqb_spec c 60) as [->|]; [|done].
  destruct s as [|c' s']; [done|]. destruct (N.eqb_spec c' 62) as [->|Hc']; [done|].
  by rewrite (Hs [] c' s' eq_refl Hc').
Qed.

(** X22. [remove_xml_tags] removes every tag at once: in its result the
    pattern matches nowhere, so that a second pass changes nothing; and a
    text without a tag is left as it is. It only deletes: every character
    of the result is one of the text. *)
Theorem remove_xml_tags_leaves_no_tag (text_input : pystr) :
  tag_free (remove_xml_tags text_input)
  ∧ remove_xml_tags (remove_xml_tags text_input) = remove_xml_tags text_input
  ∧ (remove_xml_tags text_input = text_input ↔ tag_free text_input)
  ∧ (∀ c, c ∈ remove_xml_tags text_input → c ∈ text_input).
Proof.
  split_and!.
  - apply tag_free_remove_xml_tags.
  - apply tag_free_fixed, tag_free_remove_xml_tags.
  - split; [|apply tag_free_fixed]. intros <-. apply tag_free_remove_xml_tags.
  - intros c. apply remove_xml_tags_elem.
Qed.

(** A [<] that opens no tag stays, also next to a removed tag. *)
Example remove_xml_tags_example :
  remove_xml_tags (py "a <> b <c d='>'>e</c> 1 < 2") = py "a <> b '>e 1 < 2".
Proof. vm_compute. reflexivity. Qed.

End TextFacts.

(** ** The plain text of an annotation *)

Module ContentFacts.
Import Re Processing ProcessingFacts TextFacts Transkribus Views Sim JobOutcomes.

Lemma edit_refl s : edit s s.
Proof. induction s; by constructor. Qed.

Lemma edit_app s1 t1 s2 t2 : edit s1 t1 → edit s2 t2 → edit (s1 ++ s2) (t1 ++ t2).
Proof.
  induction 1 as [|c s t _ IH|c s t Hc _ IH|c d s t Hc Hd _ IH]; intros H2; cbn [app].
  - done.
  - apply edit_keep; auto.
  - apply edit_drop; auto.
  - apply edit_subst; auto.
Qed.

Lemma edit_drop_all ws s t :
  Forall (λ c, angle c = false) ws → edit s t → edit (ws ++ s) t.
Proof. induction 1; intros ?; cbn [app]; [done|]. apply edit_drop; auto. Qed.

Lemma edit_trans s t u : edit s t → edit t u → edit s u.
Proof.
  intros Hst. revert u. induction Hst as [|c s t _ IH|c s t Hc _ IH|c d s t Hc Hd _ IH];
    intros u Htu.
  - done.
  - inversion Htu; subst.
    + apply edit_keep; auto.
    + apply edit_drop; auto.
    + apply edit_subst; auto.
  - apply edit_drop; auto.
  - inversion Htu; subst.
    + apply edit_subst; auto.
    + apply edit_drop; auto.
    + apply edit_subst; auto.
Qed.

Lemma edit_angle_elem s t c : edit s t → angle c = true → c ∈ t → c ∈ s.
Proof.
  intros Hst Hc. induction Hst as [|c0 s t _ IH|c0 s t _ _ IH|c0 d s t _ Hd _ IH].
  - done.
  - intros [->|?]%elem_of_cons; [by left|right; auto].
  - intros ?. right. auto.
  - intros [->|?]%elem_of_cons; [congruence|right; auto].
Qed.

Lemma tag_free_tail c s : tag_free (c :: s) → tag_free s.
Proof. intros Hs pre c' t ->. by apply (Hs (c :: pre) c' t). Qed.

(** Deleting and replacing other characters makes no tag. *)
Lemma edit_tag_free s t : edit s t → tag_free s → tag_free t.
Proof.
  induction 1 as [|c s t Hst IH|c s t Hc Hst IH|c d s t Hc Hd Hst IH]; intros Hs.
  - done.
  - apply tag_free_cons; [by eapply IH, tag_free_tail|].
    intros ->. destruct t as [|c' t'] eqn:Ht; [done|]. intros Hc'.
    apply tag_end_None. intros Hin.
    assert (62 ∈ s) as Hin'.
    { eapply edit_angle_elem; [exact Hst|done|]. by right. }
    destruct s as [|c0 s']; [by apply elem_of_nil in Hin'|].
    destruct (decide (c0 = 62)) as [->|Hc0].
    + inversion Hst; subst; done.
    + pose proof (Hs [] c0 s' eq_refl Hc0) as Hend. apply tag_end_None in Hend.
      apply elem_of_cons in Hin' as [?|?]; done.
  - by eapply IH, tag_free_tail.
  - apply tag_free_cons; [by eapply IH, tag_free_tail|].
    intros ->. done.
Qed.

Lemma space_not_angle c : is_space c = true → angle c = false.
Proof.
  intros Hc. unfold angle.
  destruct (N.eqb_spec c 60) as [->|]; [by vm_compute in Hc|].
  destruct (N.eqb_spec c 62) as [->|]; [by vm_compute in Hc|]. done.
Qed.

Lemma linebreak_not_angle c : is_linebreak c = true → angle c = false.
Proof.
  intros Hc. unfold angle.
  destruct (N.eqb_spec c 60) as [->|]; [by vm_compute in Hc|].
  destruct (N.eqb_spec c 62) as [->|]; [by vm_compute in Hc|]. done.
Qed.

(** *** The literal replacements *)

Lemma strip_prefix_Some old s rest : strip_prefix old s = Some rest → s = old ++ rest.
Proof.
  revert s. induction old as [|p old IH]; intros s; cbn [strip_prefix].
  - by intros [= ->].
  - destruct s as [|c s]; [done|]. destruct (N.eqb_spec p c) as [->|]; [|done].
    intros ->%IH. done.
Qed.

Lemma matches_lits old s :
  old ≠ [] →
  matches (lits old) s = match strip_prefix old s with Some rest => [rest] | None => [] end.
Proof.
  intros Hold. revert s. induction old as [|p old IH]; intros s; [done|].
  destruct old as [|p' old'].
  - cbn [lits matches strip_prefix]. destruct s as [|c s]; [done|]. by destruct (p =? c).
  - change (lits (p :: p' :: old')) with (Seq (Lit p) (lits (p' :: old'))).
    cbn [matches]. destruct s as [|c s]; [done|].
    change (strip_prefix (p :: p' :: old') (c :: s))
      with (if p =? c then strip_prefix (p' :: old') s else None).
    destruct (p =? c); [|done]. cbn [flat_map]. rewrite app_nil_r. by apply IH.
Qed.

Lemma sub_lits_edit old s :
  old ≠ [] → Forall (λ c, angle c = false) old → edit s (sub (lits old) [] s).
Proof.
  intros Hold Hangle. unfold sub.
  remember (length s) as n eqn:Hn. revert s Hn.
  induction n as [n IH] using lt_wf_ind. intros s ->.
  destruct s as [|c s]; [apply edit_nil|].
  cbn [sub_go]. unfold match_here. rewrite matches_lits by done.
  destruct (strip_prefix old (c :: s)) as [rest|] eqn:Hp; cbn [head].
  - apply strip_prefix_Some in Hp. cbn [app]. rewrite sub_go_skip.
    destruct old as [|p old']; [done|]. injection Hp as <- ->.
    rewrite length_app.
    replace (length old' + length rest - length rest)%nat with (length old') by lia.
    rewrite drop_app_length. apply Forall_cons in Hangle as [Hp Hold'].
    apply edit_drop; [done|]. apply edit_drop_all; [done|].
    eapply IH; [|done]. cbn [length]. rewrite length_app. lia.
  - apply edit_keep. eapply IH; [|done]. cbn [length]. lia.
Qed.

Lemma remove_accent_edit s : edit s (remove_accent s).
Proof.
  unfold remove_accent. eapply edit_trans.
  - apply (sub_lits_edit (py "```xml")); [by vm_compute|].
    vm_compute. repeat constructor.
  - apply (sub_lits_edit (py "```")); [by vm_compute|].
    vm_compute. repeat constructor.
Qed.

Lemma replace_go_skip old k s : replace_go old k s = replace_go old 0 (drop k s).
Proof.
  revert k. induction s as [|c s IH]; intros [|k]; try done.
  cbn [replace_go drop]. apply IH.
Qed.

Lemma remove_specific_string_edit s old :
  old ≠ [] → Forall (λ c, angle c = false) old → edit s (remove_specific_string s old).
Proof.
  intros Hold Hangle. unfold remove_specific_string.
  remember (length s) as n eqn:Hn. revert s Hn.
  induction n as [n IH] using lt_wf_ind. intros s ->.
  destruct s as [|c s]; [apply edit_nil|].
  cbn [replace_go].
  destruct (strip_prefix old (c :: s)) as [rest|] eqn:Hp.
  - apply strip_prefix_Some in Hp. rewrite replace_go_skip.
    destruct old as [|p old']; [done|]. injection Hp as <- ->.
    replace (length (c :: old') - 1)%nat with (length old') by (cbn [length]; lia).
    rewrite drop_app_length.
    apply Forall_cons in Hangle as [Hp Hold'].
    apply edit_drop; [done|]. apply edit_drop_all; [done|].
    eapply IH; [|done]. cbn [length]. rewrite length_app. lia.
  - apply edit_keep. eapply IH; [|done]. cbn [length]. lia.
Qed.

(** *** The blank lines *)

Lemma remove_empty_lines_edit s : edit s (remove_empty_lines s).
Proof.
  remember (length s) as n eqn:Hn. revert s Hn.
  induction n as [n IH] using lt_wf_ind. intros s ->.
  destruct s as [|c s]; [apply edit_nil|].
  rewrite remove_empty_lines_cons. destruct (N.eqb_spec c LF) as [->|Hc].
  - destruct (blank_run_end s) as [rest|] eqn:Hs.
    + destruct (blank_run_end_spaces _ _ Hs) as (ws & -> & Hws).
      apply edit_keep. apply edit_drop_all.
      * eapply Forall_impl; [exact Hws|]. apply space_not_angle.
      * eapply IH; [|done]. cbn [length]. rewrite length_app. lia.
    + apply edit_keep. eapply IH; [|done]. cbn [length]. lia.
  - apply edit_keep. eapply IH; [|done]. cbn [length]. lia.
Qed.

(** *** The lines *)

Lemma edit_strip l : edit l (strip l).
Proof.
  destruct (strip_spec l) as (pre & post & Heq & Hpre & Hpost & _).
  rewrite Heq at 1. apply edit_drop_all.
  { eapply Forall_impl; [exact Hpre|]. apply space_not_angle. }
  rewrite <- (app_nil_r (strip l)) at 2. apply edit_app; [apply edit_refl|].
  rewrite <- (app_nil_r post). apply edit_drop_all; [|apply edit_nil].
  eapply Forall_impl; [exact Hpost|]. apply space_not_angle.
Qed.

Lemma splitlines_from_nil cur s : splitlines_from cur s = [] → cur = [] ∧ s = [].
Proof.
  remember (length s) as n eqn:Hn. revert cur s Hn.
  induction n as [n IH] using lt_wf_ind. intros cur s ->.
  destruct s as [|c s]; cbn [splitlines_from].
  - by destruct cur.
  - destruct (is_linebreak c).
    + destruct (c =? CR); [|done]. destruct s as [|c' s']; [done|]. by destruct (c' =? LF).
    + intros Hnil.
      apply (IH (length s) ltac:(cbn [length]; lia) (cur ++ [c]) s eq_refl) in Hnil
        as [Hcur _].
      by destruct cur.
Qed.

(** The first line of a text, the line boundary after it and the rest. *)
Lemma splitlines_from_cons cur s l0 lines :
  splitlines_from cur s = l0 :: lines →
  ∃ br tail, cur ++ s = l0 ++ br ++ tail
    ∧ Forall (λ c, angle c = false) br
    ∧ (br = [] → tail = [])
    ∧ lines = splitlines_from [] tail.
Proof.
  remember (length s) as n eqn:Hn. revert cur s Hn.
  induction n as [n IH] using lt_wf_ind. intros cur s ->.
  destruct s as [|c s]; cbn [splitlines_from].
  - destruct cur as [|c0 cur0]; [done|]. intros [= <- <-].
    exists [], []. by rewrite !app_nil_r.
  - destruct (is_linebreak c) eqn:Hc.
    + assert (angle c = false) as Hc' by (by apply linebreak_not_angle).
      destruct (N.eqb_spec c CR) as [->|_].
      * destruct s as [|c' s'].
        -- intros [= <- <-]. exists [CR], []. split_and!; [done| |done|done].
           by repeat constructor.
        -- destruct (N.eqb_spec c' LF) as [->|_].
           ++ intros [= <- <-]. exists [CR; LF], s'. split_and!; [done| |done|done].
              by repeat constructor.
           ++ intros [= <- <-]. exists [CR], (c' :: s'). split_and!; [done| |done|done].
              by repeat constructor.
      * intros [= <- <-]. exists [c], s. split_and!; [done| |done|done].
        by repeat constructor.
    + intros Hl.
      apply (IH (length s) ltac:(cbn [length]; lia) (cur ++ [c]) s eq_refl) in Hl
        as (br & tail & Heq & Hbr & Hnil & Hlines).
      exists br, tail. rewrite <- app_assoc in Heq. done.
Qed.

(** Joining the lines of a text again, each changed only in characters
    other than [<] and [>], changes only such characters of the text. *)
Lemma join_lines_edit (f : pystr → pystr) s :
  (∀ l, edit l (f l)) → edit s (join [LF] (map f (splitlines s))).
Proof.
  intros Hf. unfold splitlines.
  remember (length s) as n eqn:Hn. revert s Hn.
  induction n as [n IH] using lt_wf_ind. intros s ->.
  destruct (splitlines_from [] s) as [|l0 lines] eqn:Hs.
  - apply splitlines_from_nil in Hs as [_ ->]. apply edit_nil.
  - apply splitlines_from_cons in Hs as (br & tail & Heq & Hbr & Hnil & ->).
    cbn [app] in Heq. subst s.
    destruct (splitlines_from [] tail) as [|l1 lines] eqn:Htail.
    + apply splitlines_from_nil in Htail as [_ ->]. cbn [map join].
      rewrite <- (app_nil_r (f l0)). apply edit_app; [apply Hf|].
      apply edit_drop_all; [done|apply edit_nil].
    + assert (br ≠ []) as Hne.
      { intros ->. by rewrite (Hnil eq_refl) in Htail. }
      change (join [LF] (map f (l0 :: l1 :: lines)))
        with (f l0 ++ [LF] ++ join [LF] (map f (l1 :: lines))).
      apply edit_app; [apply Hf|].
      destruct br as [|b br]; [done|]. apply Forall_cons in Hbr as [Hb Hbr].
      cbn [app]. apply edit_subst; [done|done|]. apply edit_drop_all; [done|].
      rewrite <- Htail. eapply IH; [|done].
      rewrite !length_app. cbn [length]. lia.
Qed.

Lemma strip_lines_edit s : edit s (strip_lines s).
Proof. apply join_lines_edit, edit_strip. Qed.

Lemma remove_first_empty_line_edit s : edit s (remove_first_empty_line s).
Proof.
  unfold remove_first_empty_line, pystr_eqb.
  destruct (splitlines s) as [|l0 lines] eqn:Hs; [apply edit_refl|].
  case_bool_decide as Hblank; [|apply edit_refl].
  apply splitlines_from_cons in Hs as (br & tail & Heq & Hbr & _ & ->).
  cbn [app] in Heq. subst s.
  destruct (strip_spec l0) as (pre & post & Hl0 & Hpre & Hpost & _).
  rewrite Hblank in Hl0. cbn [app] in Hl0.
  apply edit_drop_all.
  { rewrite Hl0. apply Forall_app_2; (eapply Forall_impl; [eassumption|]);
      apply space_not_angle. }
  apply edit_drop_all; [done|].
  rewrite <- (map_id (splitlines_from [] tail)).
  apply (join_lines_edit id). apply edit_refl.
Qed.

(** The plain text [process_tei] derives from an annotated text holds no
    tag. *)
Lemma text_content_only_tag_free result_tei : tag_free (text_content_only result_tei).
Proof.
  unfold text_content_only.
  eapply edit_tag_free; [apply remove_first_empty_line_edit|].
  eapply edit_tag_free.
  { apply remove_specific_string_edit; [by vm_compute|].
    vm_compute. repeat constructor. }
  eapply edit_tag_free; [apply strip_lines_edit|].
  eapply edit_tag_free; [apply remove_empty_lines_edit|].
  eapply edit_tag_free; [apply remove_accent_edit|].
  apply tag_free_remove_xml_tags.
Qed.

Section WithEnv.
Context `{!Env}.

(** X25. The plain text of a finished annotation job holds no tag. The
    answer of the model may be any text: what [process_tei] stores in
    [result_text_content_only] has no [<] that is followed by a character
    other than [>] and, later, by a [>]; none of the clean-up steps that
    follow the removal of the tags can make a new one. *)
Theorem stored_text_content_has_no_tag (w : world) (job : tei_job) (d : pydict)
    (answer : pystr) :
  process_status_store w !! tei_process_id job = Some d →
  tei_answer job = inr answer →
  ∃ d2 text,
    process_status_store (process_tei job w).1 !! tei_process_id job = Some d2
    ∧ d2 !! "result_text_content_only" = Some (VStr text)
    ∧ tag_free text
    ∧ remove_xml_tags text = text.
Proof.
  intros Hd Hanswer. rewrite (process_tei_run w job d Hd), Hanswer. cbv zeta.
  cbn [fst process_status_store]. eexists _, _.
  split; [apply lookup_insert_eq|]. split; [apply lookup_insert_eq|].
  split; [apply text_content_only_tag_free|].
  apply tag_free_fixed, text_content_only_tag_free.
Qed.

End WithEnv.

Lemma stored_text_content_has_no_tag_witness :
  ∃ d2 text,
    process_status_store
      (process_tei (H := sim_env two_page_config) example_tei_job
         (tei_world two_page_config)).1 !! tei_process_id example_tei_job = Some d2
    ∧ d2 !! "result_text_content_only" = Some (VStr text)
    ∧ tag_free text
    ∧ remove_xml_tags text = text.
Proof.
  apply (stored_text_content_has_no_tag (H := sim_env two_page_config)
           (tei_world two_page_config) example_tei_job boundary_record
           (py "<text>Hello</text>")); reflexivity.
Defined.

(** The run of the example: the model wraps the text in one element. *)
Example stored_text_content :
  (process_status_store
     (process_tei (H := sim_env two_page_config) example_tei_job
        (tei_world two_page_config)).1 !! py "job-0")
  ≫= (λ data, data !! "result_text_content_only")
  = Some (VStr (py "Hello")).
Proof. vm_compute. reflexivity. Qed.

End ContentFacts.

(** ** Routing and the thread pool *)

Module RoutingFacts.
Import Views Llms.

(** X23. Every model that the entry points accept has exactly one
    provider: [get_result_from_mllm] hands a request for it to that
    provider and returns the provider's answer, so that for an accepted
    model it never falls through to [None] by itself. For every other
    model it returns [None] and calls no provider. *)
Theorem accepted_models_have_one_provider (model : pystr)
    (openai anthropic google : exn + option pystr) :
  (model ∈ VALID_MODELS
   ↔ model ∈ OPENAI_MODELS ∨ model ∈ ANTHROPIC_MODELS ∨ model ∈ GOOGLE_MODELS)
  ∧ (model ∈ OPENAI_MODELS → get_result_from_mllm openai anthropic google model = openai)
  ∧ (model ∈ ANTHROPIC_MODELS →
     get_result_from_mllm openai anthropic google model = anthropic)
  ∧ (model ∈ GOOGLE_MODELS → get_result_from_mllm openai anthropic google model = google)
  ∧ (model ∉ VALID_MODELS → get_result_from_mllm openai anthropic google model = inr None).
Proof.
  assert (py "gpt-5.2" ≠ py "claude-sonnet-4-5-20250929") as H1
    by (vm_compute; discriminate).
  assert (py "gpt-5.2" ≠ py "gemini-2.5-pro") as H2 by (vm_compute; discriminate).
  assert (py "gpt-5.2" ≠ py "gemini-3-pro-preview") as H3 by (vm_compute; discriminate).
  assert (py "claude-sonnet-4-5-20250929" ≠ py "gemini-2.5-pro") as H4
    by (vm_compute; discriminate).
  assert (py "claude-sonnet-4-5-20250929" ≠ py "gemini-3-pro-preview") as H5
    by (vm_compute; discriminate).
  unfold get_result_from_mllm, VALID_MODELS, OPENAI_MODELS, ANTHROPIC_MODELS, GOOGLE_MODELS.
  generalize dependent (py "gpt-5.2"). intros gpt.
  generalize dependent (py "claude-sonnet-4-5-20250929"). intros claude.
  generalize dependent (py "gemini-2.5-pro"). intros gemini25.
  generalize dependent (py "gemini-3-pro-preview"). intros gemini3.
  intros H1 H2 H3 H4 H5.
  split_and!.
  - set_solver.
  - intros Hm. by rewrite bool_decide_true.
  - intros Hm. rewrite bool_decide_false by set_solver. by rewrite bool_decide_true.
  - intros Hm. rewrite !bool_decide_false by set_solver. by rewrite bool_decide_true.
  - intros Hm. by rewrite !bool_decide_false by set_solver.
Qed.

End RoutingFacts.

Module FutureFacts.
Import Views Sim.
Section WithEnv.
Context `{!Env}.

(** The slots of the futures after the calls of [schedule] have
    completed. *)
Lemma run_futures_slots {A} (tasks : list (exn + A)) (schedule : list nat) (i : nat) :
  run_futures tasks schedule !! i
  = (λ out, if bool_decide (i ∈ schedule) then Some out else None) <$> tasks !! i.
Proof.
  unfold run_futures.
  assert (∀ (slots : list (option (exn + A))) (completed : list nat),
    (∀ i, slots !! i
          = (λ out, if bool_decide (i ∈ completed) then Some out else None)
              <$> tasks !! i) →
    ∀ i, foldl (λ slots i, match tasks !! i with
                           | Some out => <[i := Some out]> slots
                           | None => slots
                           end) slots schedule !! i
         = (λ out, if bool_decide (i ∈ completed ++ schedule) then Some out else None)
             <$> tasks !! i) as Hfold.
  { clear i. induction schedule as [|j schedule IH]; intros slots completed Hslots i.
    - cbn [foldl]. by rewrite app_nil_r.
    - cbn [foldl]. rewrite (IH _ (completed ++ [j])).
      + by rewrite <- app_assoc.
      + clear i. intros i. destruct (tasks !! j) as [out|] eqn:Hj.
        * destruct (decide (i = j)) as [->|Hne].
          -- rewrite list_lookup_insert_eq.
             ++ rewrite Hj. cbn. rewrite bool_decide_true by set_solver. done.
             ++ apply lookup_lt_is_Some. rewrite Hslots, Hj. by eexists.
          -- rewrite list_lookup_insert_ne by done. rewrite Hslots.
             destruct (tasks !! i); [|done]. cbn.
             rewrite (bool_decide_ext (i ∈ completed ++ [j]) (i ∈ completed)); [done|].
             set_solver.
        * rewrite Hslots. destruct (tasks !! i) eqn:Hi; [|done]. cbn.
          rewrite (bool_decide_ext (i ∈ completed ++ [j]) (i ∈ completed)); [done|].
          rewrite elem_of_app, list_elem_of_singleton.
          split; [|by left]. intros [Hi' | ->]; [done|]. congruence. }
  apply (Hfold _ []). intros i'.
  destruct (tasks !! i') eqn:Hi; cbn.
  - apply lookup_replicate_2. by eapply lookup_lt_Some.
  - apply lookup_replicate_None. by apply lookup_ge_None.
Qed.

(** X24. The results of the thread pool do not depend on the order in
    which the calls complete. When every submitted call completes, in
    whatever order, the futures hold the outcomes in the order of
    submission; collecting them gives the values in that order when all
    calls returned, and otherwise raises the exception of the first call,
    in the order of submission, that raised. Collecting touches neither
    the store nor the trace. *)
Theorem future_results_in_submission_order {A} (tasks : list (exn + A))
    (schedule : list nat) (w : world) :
  (∀ i, (i < length tasks)%nat → i ∈ schedule) →
  run_futures tasks schedule = map Some tasks
  ∧ (∀ values, tasks = map inr values →
       collect_results (run_futures tasks schedule) w = (w, Ok values))
  ∧ (∀ values e rest, tasks = map inr values ++ inl e :: rest →
       collect_results (run_futures tasks schedule) w = (w, Raise e)).
Proof.
  intros Hall.
  assert (run_futures tasks schedule = map Some tasks) as ->.
  { apply list_eq. intros i. rewrite run_futures_slots, list_lookup_fmap.
    destruct (tasks !! i) eqn:Hi; [|done]. cbn.
    rewrite bool_decide_true; [done|]. apply Hall. by eapply lookup_lt_Some. }
  clear Hall. split; [done|]. split.
  - intros values ->. induction values as [|x values IH]; [done|].
    cbn [map collect_results future_result call]. unfold bind at 1. cbn [ret].
    unfold bind at 1. rewrite IH. done.
  - intros values e rest ->. induction values as [|x values IH].
    + cbn [map app collect_results future_result call]. done.
    + cbn [map app collect_results future_result call]. unfold bind at 1. cbn [ret].
      unfold bind at 1. rewrite IH. done.
Qed.

End WithEnv.

Lemma future_results_in_submission_order_witness :
  let tasks : list (exn + pystr) :=
    [inr (py "a"); inl (ValueError (py "b")); inl (ValueError (py "c"))] in
  run_futures tasks [2; 0; 1]%nat = map Some tasks
  ∧ (∀ values, tasks = map inr values →
       collect_results (H := sim_env idle_config) (run_futures tasks [2; 0; 1]%nat)
         (sim_world0 idle_config)
       = (sim_world0 idle_config, Ok values))
  ∧ (∀ values e rest, tasks = map inr values ++ inl e :: rest →
       collect_results (H := sim_env idle_config) (run_futures tasks [2; 0; 1]%nat)
         (sim_world0 idle_config)
       = (sim_world0 idle_config, Raise e)).
Proof.
  apply (future_results_in_submission_order (H := sim_env idle_config)
           [inr (py "a"); inl (ValueError (py "b")); inl (ValueError (py "c"))]
           [2; 0; 1]%nat (sim_world0 idle_config)).
  intros i Hi. cbn [length] in Hi.
  assert (i = 0 ∨ i = 1 ∨ i = 2)%nat as [-> | [-> | ->]] by lia; set_solver.
Defined.

(** The call that completed first raised [c]; the exception of the pool
    is [b], that of the earlier submission. *)
Example first_submitted_failure_wins :
  collect_results (H := sim_env idle_config)
    (run_futures [inr (py "a"); inl (ValueError (py "b")); inl (ValueError (py "c"))]
       [2; 0; 1]%nat)
    (sim_world0 idle_config)
  = (sim_world0 idle_config, Raise (ValueError (py "b"))).
Proof. reflexivity. Qed.

End FutureFacts.
